(** * Crop-track: the adaptive checkpoint loader of [backend/app.py]

    A shallow embedding of the model-discovery scan, the class-count
    detection, the checkpoint normalisation, the variant selection, the
    weight binding and the model cache of [backend/app.py] (with the
    classifier head of [BinaryCNN_Deep] from [backend/models.py]), and the
    properties of these functions.

    Conventions of the embedding.
    - Python [str] values are Rocq strings; keys and file names are taken to
      be ASCII, so [str.lower] only touches the letters [A]-[Z] and the
      regular-expression class [\d] is the digits [0]-[9].
    - A Python [dict] is an association list in insertion order (Python
      dicts iterate in insertion order); lookups take the first entry of a
      key, and a well-formed dict has no repeated key.
    - The three module-level tables [loaded_models], [model_paths] and
      [model_configs] are finite maps: the functions modelled here read and
      write them by key only.
    - Exceptions are values of [PyExn]; a function that can raise returns a
      sum [PyExn + A]. *)

From Stdlib Require Import NArith Ascii Sorted Permutation DecimalString.
From Stdlib Require ZArith QArith Lqa.
From stdpp Require Import base option list strings gmap fin_maps.

Set Warnings "-register-all".

Local Open Scope N_scope.

(** ** Python string primitives *)

Module PyStr.

(** [c.lower()] on one ASCII character. *)
Definition lower_ascii (c : ascii) : ascii :=
  let n := N_of_ascii c in
  if (65 <=? n) && (n <=? 90) then ascii_of_N (n + 32) else c.

(** [s.lower()] *)
Fixpoint lower (s : string) : string :=
  match s with
  | EmptyString => EmptyString
  | String c rest => String (lower_ascii c) (lower rest)
  end.

(** [s.startswith(p)] *)
Fixpoint startswith (p s : string) : bool :=
  match p, s with
  | EmptyString, _ => true
  | String _ _, EmptyString => false
  | String a p', String b s' => Ascii.eqb a b && startswith p' s'
  end.

(** [needle in hay] on strings: [needle] occurs somewhere in [hay]. *)
Fixpoint contains (needle hay : string) : bool :=
  startswith needle hay ||
  match hay with
  | EmptyString => false
  | String _ rest => contains needle rest
  end.

(** [s.replace(old, new)] for a non-empty [old]: the occurrences of [old]
    are replaced from left to right, without overlap.  [skip] counts the
    characters of an occurrence that are still to be dropped. *)
Fixpoint replace_from (old new s : string) (skip : nat) : string :=
  match s with
  | EmptyString => EmptyString
  | String c rest =>
      match skip with
      | S k => replace_from old new rest k
      | O =>
          if startswith old s
          then new +:+ replace_from old new rest (Nat.pred (String.length old))
          else String c (replace_from old new rest O)
      end
  end.

Definition replace (old new s : string) : string := replace_from old new s O.

Definition is_digit (c : ascii) : bool :=
  let n := N_of_ascii c in (48 <=? n) && (n <=? 57).

Definition digit_value (c : ascii) : N := N_of_ascii c - 48.

(** [int(ds)] for a run of decimal digits, most significant first. *)
Definition int_of_digits (ds : list ascii) : N :=
  fold_left (fun acc c => 10 * acc + digit_value c) ds 0.

(** The longest run of digits at the start of [s], and what follows it. *)
Fixpoint take_digits (s : string) : list ascii * string :=
  match s with
  | String c rest =>
      if is_digit c
      then let '(ds, tl) := take_digits rest in (c :: ds, tl)
      else ([], s)
  | EmptyString => ([], EmptyString)
  end.

(** [str(n)] for a non-negative integer. *)
Definition str_of_N (n : N) : string := NilZero.string_of_uint (N.to_uint n).

End PyStr.

(** ** Tensors and deserialised Python objects *)

(** A parameter tensor: its shape ([tensor.shape], a sequence of
    non-negative sizes) and a token that stands for its numeric content. *)
Record Tensor := mkTensor { shape : list N; payload : N }.

(** What [torch.load] may return: a tensor, a dict with string keys, [None],
    or some other object ([PyOpaque]: a number, a string, a pickled module),
    which has neither [.shape] nor [.items()]. *)
Inductive PyObj :=
| PyNone
| PyTensor (t : Tensor)
| PyDict (items : list (string * PyObj))
| PyOpaque (tag : N).

Inductive PyExn :=
| ValueError_not_found        (* "Model ... not found at ..." *)
| ValueError_unknown_model    (* "Unknown model name: ..." *)
| UnboundLocalError           (* [state_dict] read before assignment *)
| AttributeError              (* [.items()], [.shape] on an object without it *)
| TypeError                   (* [load_state_dict] on a non-mapping *)
| RuntimeError (size_mismatch : bool)
    (* raised by [load_state_dict]; the flag says whether the message
       contains "size mismatch" *)
| IndexError.                 (* [input_param[0]] on an empty tensor *)

(** [tensor.shape]: only tensors have the attribute. *)
Definition shape_of (v : PyObj) : PyExn + list N :=
  match v with
  | PyTensor t => inr (shape t)
  | _ => inl AttributeError
  end.

(** [state_dict.items()] *)
Definition items_of (v : PyObj) : PyExn + list (string * PyObj) :=
  match v with
  | PyDict items => inr items
  | _ => inl AttributeError
  end.

(** [key in d] and [d[key]] for a dict given by its items. *)
Fixpoint dict_get {A} (items : list (string * A)) (key : string) : option A :=
  match items with
  | [] => None
  | (k, v) :: rest => if String.eqb k key then Some v else dict_get rest key
  end.

(** A parameter map whose values are all tensors, as a Python object. *)
Definition tensor_items (sd : list (string * Tensor)) : list (string * PyObj) :=
  map (fun kv => (fst kv, PyTensor (snd kv))) sd.

Definition as_dict (sd : list (string * Tensor)) : PyObj := PyDict (tensor_items sd).

(** ** Class-count detection *)

(** [_extract_layer_index]: the leftmost match of the regular expression
    [\.(\d+)\.] in [key], as an integer; [0] when there is none.  A match
    starts at a dot that is followed by a non-empty maximal run of digits
    and then by a dot. *)
Fixpoint search_dot_digits (key : string) : option (list ascii) :=
  match key with
  | EmptyString => None
  | String c rest =>
      if Ascii.eqb c "."%char
      then match PyStr.take_digits rest with
           | (d :: ds, String c' _) =>
               if Ascii.eqb c' "."%char then Some (d :: ds) else search_dot_digits rest
           | _ => search_dot_digits rest
           end
      else search_dot_digits rest
  end.

Definition _extract_layer_index (key : string) : N :=
  match search_dot_digits key with
  | Some ds => PyStr.int_of_digits ds
  | None => 0
  end.

(** One entry of [candidate_layers]. *)
Record Candidate := mkCandidate {
  cand_key : string;
  output_dim : N;
  input_dim : N;
  index : N
}.

Definition classifier_terms : list string := ["classifier"; "fc"; "head"].

(** [any(term in key.lower() for term in ['classifier', 'fc', 'head'])] *)
Definition is_classifier_key (key : string) : bool :=
  existsb (fun term => PyStr.contains term (PyStr.lower key)) classifier_terms.

(** The first loop of [detect_num_classes_from_checkpoint]: [acc] is
    [candidate_layers] so far.  [tensor.shape] is only evaluated for a key
    that contains "weight" ([and] is short-circuit). *)
Fixpoint collect_candidates (items : list (string * PyObj)) (acc : list Candidate)
  : PyExn + list Candidate :=
  match items with
  | [] => inr acc
  | (key, tensor) :: rest =>
      if PyStr.contains "weight" key then
        match shape_of tensor with
        | inl e => inl e
        | inr [d0; d1] =>
            if is_classifier_key key
            then collect_candidates rest
                   (acc ++ [mkCandidate key d0 d1 (_extract_layer_index key)])
            else collect_candidates rest acc
        | inr _ => collect_candidates rest acc
        end
      else collect_candidates rest acc
  end.

(** [candidate_layers.sort(key=lambda x: x['index'], reverse=True)]:
    Python's sort is stable, also with [reverse=True]: candidates of equal
    index keep their order.  The model inserts each candidate, from the last
    to the first, in front of the first one whose index is not larger. *)
Fixpoint insert_desc (c : Candidate) (l : list Candidate) : list Candidate :=
  match l with
  | [] => [c]
  | d :: l' => if index d <=? index c then c :: d :: l' else d :: insert_desc c l'
  end.

Fixpoint sort_desc (l : list Candidate) : list Candidate :=
  match l with
  | [] => []
  | c :: l' => insert_desc c (sort_desc l')
  end.

(** [2 <= output_dim <= 100] *)
Definition reasonable (c : Candidate) : bool :=
  (2 <=? output_dim c) && (output_dim c <=? 100).

(** [detect_num_classes_from_checkpoint] from [if not candidate_layers] on. *)
Definition select_num_classes (candidate_layers : list Candidate) : option N :=
  match candidate_layers with
  | [] => None
  | _ :: _ =>
      let sorted := sort_desc candidate_layers in
      match List.find reasonable sorted with
      | Some layer => Some (output_dim layer)
      | None =>
          match sorted with
          | final_layer :: _ => Some (output_dim final_layer)
          | [] => None
          end
      end
  end.

Definition detect_num_classes_from_checkpoint (state_dict : PyObj) : PyExn + option N :=
  match items_of state_dict with
  | inl e => inl e
  | inr items =>
      match collect_candidates items [] with
      | inl e => inl e
      | inr candidate_layers => inr (select_num_classes candidate_layers)
      end
  end.

(** ** Checkpoint normalisation *)

(** [for key in checkpoint.keys(): if 'state_dict' in key.lower() or
    'model' in key.lower(): ...; break]: the first such key. *)
Definition is_container_key (key : string) : bool :=
  PyStr.contains "state_dict" (PyStr.lower key) || PyStr.contains "model" (PyStr.lower key).

Fixpoint find_container_key (keys : list string) : option string :=
  match keys with
  | [] => None
  | key :: rest => if is_container_key key then Some key else find_container_key rest
  end.

(** The checkpoint-format block of [load_model]: from the deserialised
    [checkpoint] to [state_dict].  In the last branch [state_dict] starts as
    [None], takes the value under the first container-like key, and is
    replaced by the checkpoint itself when it is (still) [None]. *)
Definition normalize_checkpoint (checkpoint : PyObj) : PyObj :=
  match checkpoint with
  | PyDict items =>
      match dict_get items "model_state_dict" with
      | Some v => v
      | None =>
          match dict_get items "state_dict" with
          | Some v => v
          | None =>
              match dict_get items "model" with
              | Some v => v
              | None =>
                  let state_dict :=
                    match find_container_key (map fst items) with
                    | Some key => default PyNone (dict_get items key)
                    | None => PyNone
                    end in
                  match state_dict with
                  | PyNone => checkpoint
                  | _ => state_dict
                  end
              end
          end
      end
  | _ => checkpoint
  end.

(** ** Variant selection *)

(** The loop over [state_dict.items()] under [if model_name ==
    'BinaryCNN_Deep']: [true] when it sets [variant = 'simple']. *)
Fixpoint has_simple_head (items : list (string * PyObj)) (num_classes : N) : PyExn + bool :=
  match items with
  | [] => inr false
  | (key, tensor) :: rest =>
      if PyStr.contains "classifier.4.weight" key then
        match shape_of tensor with
        | inl e => inl e
        | inr [d0; d1] =>
            if (d0 =? num_classes) && (d1 =? 128)
            then inr true
            else has_simple_head rest num_classes
        | inr _ => has_simple_head rest num_classes
        end
      else has_simple_head rest num_classes
  end.

(** [state_dict] is [None] when the name was never assigned ([torch.load]
    raised inside the [try]). *)
Definition select_variant (model_name : string) (state_dict : option PyObj) (num_classes : N)
  : PyExn + string :=
  if String.eqb model_name "BinaryCNN_Deep" then
    match state_dict with
    | None => inl UnboundLocalError
    | Some sd =>
        match items_of sd with
        | inl e => inl e
        | inr items =>
            match has_simple_head items num_classes with
            | inl e => inl e
            | inr true => inr "simple"
            | inr false => inr "default"
            end
        end
    end
  else inr "default".

(** ** The architectures ([models.py]) *)

(** The parameters of [nn.Linear(in_features, out_features)] registered
    under [prefix], with their shapes. *)
Definition linear_shapes (prefix : string) (in_features out_features : N)
  : list (string * list N) :=
  [(prefix +:+ ".weight", [out_features; in_features]);
   (prefix +:+ ".bias", [out_features])].

(** The [classifier] of [BinaryCNN_Deep.__init__]: an [nn.Sequential] whose
    linear layers sit at positions 1, 4 (and 7). *)
Definition BinaryCNN_Deep_classifier (num_classes : N) (variant : string)
  : list (string * list N) :=
  if String.eqb variant "simple" || String.eqb variant "checkpoint" then
    linear_shapes "classifier.1" 512 128 ++
    linear_shapes "classifier.4" 128 num_classes
  else
    linear_shapes "classifier.1" 512 256 ++
    linear_shapes "classifier.4" 256 128 ++
    linear_shapes "classifier.7" 128 num_classes.

(** An instantiated network: [obj_id] is the identity of the Python object,
    [parameters] is its [state_dict()]. *)
Record Model := mkModel {
  obj_id : nat;
  arch_name : string;
  out_features : N;
  arch_variant : string;
  parameters : gmap string Tensor
}.

Definition known_architectures : list string :=
  ["ShuffleNet"; "MobileNetV3"; "EfficientNet"; "CustomCNN1"; "CustomCNN2";
   "CustomCNN3"; "BinaryCNN_Light"; "BinaryCNN_Deep"; "BinaryCNN_Efficient"].

(** ** Weight binding *)

(** [torch.nn.Module.load_state_dict(state_dict, strict=False)], as
    [Module._load_from_state_dict] carries it out.  For every parameter or
    buffer of the module whose key is in [state_dict]: a value that is no
    tensor gives an error for that key; a one-dimensional tensor that meets
    a parameter without dimensions is replaced by its first element,
    [input_param[0]], which raises [IndexError] on an empty tensor; a tensor
    of the parameter's shape is then copied into the parameter, and a tensor
    of another shape gives a "size mismatch" error for that key and leaves
    the parameter alone.  The copies are done in place, key by key, before
    the collected errors are raised as one [RuntimeError]; without errors
    the call returns the missing and the unexpected keys. *)

(** [input_param[0]]: the first element, a tensor without dimensions cut
    from the same content. *)
Definition first_element (t : Tensor) : Tensor := mkTensor [] (payload t).

(** [len(param.shape) == 0 and len(input_param.shape) == 1] *)
Definition vector_for_scalar (current t : Tensor) : bool :=
  bool_decide (shape current = []) && bool_decide (length (shape t) = 1%nat).

(** The tensor that is held against the parameter [current]. *)
Definition input_param (current t : Tensor) : PyExn + Tensor :=
  if vector_for_scalar current t then
    if bool_decide (shape t = [0]) then inl IndexError else inr (first_element t)
  else inr t.

Definition copy_param (items : list (string * PyObj)) (key : string) (current : Tensor)
  : Tensor :=
  match dict_get items key with
  | Some (PyTensor t) =>
      match input_param current t with
      | inr input => if bool_decide (shape input = shape current) then input else current
      | inl _ => current
      end
  | _ => current
  end.

Inductive ParamError := SizeMismatch | NotATensor.

Definition param_error (items : list (string * PyObj)) (key : string) (current : Tensor)
  : option ParamError :=
  match dict_get items key with
  | Some (PyTensor t) =>
      match input_param current t with
      | inr input =>
          if bool_decide (shape input = shape current) then None else Some SizeMismatch
      | inl _ => None
      end
  | Some _ => Some NotATensor
  | None => None
  end.

(** The keys at which [input_param[0]] raises. *)
Definition index_error (items : list (string * PyObj)) (key : string) (current : Tensor)
  : bool :=
  match dict_get items key with
  | Some (PyTensor t) =>
      match input_param current t with inl _ => true | inr _ => false end
  | _ => false
  end.

Definition is_size_mismatch (e : ParamError) : bool :=
  match e with SizeMismatch => true | NotATensor => false end.

(** The last component of a dotted key. *)
Fixpoint last_component (key : string) : string :=
  match key with
  | EmptyString => EmptyString
  | String c rest =>
      if PyStr.contains "." rest then last_component rest
      else if Ascii.eqb c "."%char then rest else key
  end.

(** The buffer [num_batches_tracked] of a normalisation layer.  A [dict]
    carries no version of the layers it was saved from, and for such a
    state dict the layer takes its own buffer when the key is absent: the
    key is then not reported as missing.  In the architectures of
    [models.py] only [nn.BatchNorm2d] registers a buffer of this name. *)
Definition is_batch_counter (key : string) : bool :=
  String.eqb (last_component key) "num_batches_tracked".

(** An [IndexError] leaves [load_state_dict] in the middle of its pass over
    the module, and [load_model] lets it leave too: the module is dropped
    half written, and the parameters given with the exception here are
    those before the call. *)
Definition load_state_dict (params : gmap string Tensor) (state_dict : PyObj)
  : gmap string Tensor * (PyExn + (list string * list string)) :=
  match state_dict with
  | PyDict items =>
      if existsb (fun kv => index_error items (fst kv) (snd kv)) (map_to_list params)
      then (params, inl IndexError)
      else
        let params' := map_imap (fun key cur => Some (copy_param items key cur)) params in
        let errors :=
          omap (fun kv => param_error items (fst kv) (snd kv)) (map_to_list params) in
        match errors with
        | [] =>
            let missing_keys :=
              List.filter (fun key => bool_decide (dict_get items key = None)
                                      && negb (is_batch_counter key))
                          (map fst (map_to_list params)) in
            let unexpected_keys :=
              List.filter (fun key => bool_decide (params !! key = None)) (map fst items) in
            (params', inr (missing_keys, unexpected_keys))
        | _ :: _ => (params', inl (RuntimeError (existsb is_size_mismatch errors)))
        end
  | _ => (params, inl TypeError)
  end.

(** An entry of [incompatible_keys]: the code formats it as
    ["{key}: checkpoint {shape} vs model {shape}"] or ["{key}: not in model"]. *)
Inductive IncompatibleKey :=
| ShapeMismatch (key : string) (checkpoint_shape model_shape : list N)
| NotInModel (key : string).

(** The loop that builds [compatible_state] and [incompatible_keys]. *)
Fixpoint filter_compatible (model_state : gmap string Tensor) (items : list (string * PyObj))
    (compatible_state : list (string * PyObj)) (incompatible_keys : list IncompatibleKey)
  : PyExn + (list (string * PyObj) * list IncompatibleKey) :=
  match items with
  | [] => inr (compatible_state, incompatible_keys)
  | (key, value) :: rest =>
      match model_state !! key with
      | Some current =>
          match shape_of value with
          | inl e => inl e
          | inr value_shape =>
              if bool_decide (shape current = value_shape)
              then filter_compatible model_state rest
                     (compatible_state ++ [(key, value)]) incompatible_keys
              else filter_compatible model_state rest compatible_state
                     (incompatible_keys ++ [ShapeMismatch key value_shape (shape current)])
          end
      | None =>
          filter_compatible model_state rest compatible_state
            (incompatible_keys ++ [NotInModel key])
      end
  end.

(** What a successful binding reports (the code prints it). *)
Inductive LoadDiagnostics :=
| FullLoad (missing_keys unexpected_keys : list string)
| PartialLoad (compatible_state : list (string * PyObj))
              (incompatible_keys : list IncompatibleKey).

(** The "Load weights" block of [load_model] on the parameters of the fresh
    model: the parameters afterwards, and the diagnostics or the exception
    that leaves the block. *)
Definition bind_weights (params : gmap string Tensor) (state_dict : option PyObj)
  : gmap string Tensor * (PyExn + LoadDiagnostics) :=
  match state_dict with
  | None => (params, inl UnboundLocalError)
  | Some sd =>
      match load_state_dict params sd with
      | (params1, inr (missing_keys, unexpected_keys)) =>
          (params1, inr (FullLoad missing_keys unexpected_keys))
      | (params1, inl (RuntimeError true)) =>
          match items_of sd with
          | inl e => (params1, inl e)
          | inr items =>
              match filter_compatible params1 items [] [] with
              | inl e => (params1, inl e)
              | inr (compatible_state, incompatible_keys) =>
                  match load_state_dict params1 (PyDict compatible_state) with
                  | (params2, inr _) =>
                      (params2, inr (PartialLoad compatible_state incompatible_keys))
                  | (params2, inl e) => (params2, inl e)
                  end
              end
          end
      | (params1, inl e) => (params1, inl e)
      end
  end.

(** ** The module state and the model cache *)

(** A value of [model_configs] / [MODEL_CONFIGS]. *)
Record ModelConfig := mkConfig { num_classes : N; class_names : list string }.

(** The globals of [app.py], with two counters of what has happened: the
    next fresh object identity and the paths handed to [torch.load]. *)
Record State := mkState {
  loaded_models : gmap string Model;
  model_paths : gmap string string;
  model_configs : gmap string ModelConfig;
  next_obj_id : nat;
  checkpoint_reads : list string
}.

(** What a call finds outside the process: [os.path.exists], the outcome of
    [torch.load] on a path ([None] when it raises), and the initial
    parameters a constructor of [models.py] produces. *)
Record Env := mkEnv {
  path_exists : string -> bool;
  torch_load : string -> option PyObj;
  init_parameters : string -> N -> string -> gmap string Tensor
}.

(** [create_model_architecture]: only [BinaryCNN_Deep] receives [variant]. *)
Definition create_model_architecture (env : Env) (fresh_id : nat)
    (model_name : string) (n : N) (variant : string) : PyExn + Model :=
  if existsb (String.eqb model_name) known_architectures then
    let v := if String.eqb model_name "BinaryCNN_Deep" then variant else "default" in
    inr (mkModel fresh_id model_name n v (init_parameters env model_name n v))
  else inl ValueError_unknown_model.

Definition generated_class_names (n : N) : list string :=
  map (fun i => "Class_" +:+ PyStr.str_of_N (N.of_nat i)) (seq 0 (N.to_nat n)).

(** The [if num_classes == 2 ... elif ... else] chain. *)
Definition class_names_for (n : N) : list string :=
  if n =? 2 then ["Healthy"; "Not Healthy"]
  else if n =? 5 then ["Cerscospora"; "Healthy"; "Leaf rust"; "Miner"; "Phoma"]
  else if n =? 10 then generated_class_names n
  else generated_class_names n.

(** The first [try] block of [load_model]: [state_dict] (when it got
    assigned), [num_classes], [class_names] and [model_configs] afterwards.
    [if detected_num_classes:] is false for [None] and for [0]. *)
Definition read_checkpoint (env : Env) (configs : gmap string ModelConfig)
    (model_name model_path : string) (dflt : ModelConfig)
  : option PyObj * ModelConfig * gmap string ModelConfig :=
  match torch_load env model_path with
  | None => (None, dflt, configs)
  | Some checkpoint =>
      let state_dict := normalize_checkpoint checkpoint in
      match detect_num_classes_from_checkpoint state_dict with
      | inr (Some detected_num_classes) =>
          if detected_num_classes =? 0 then (Some state_dict, dflt, configs)
          else
            let cfg := mkConfig detected_num_classes (class_names_for detected_num_classes) in
            (Some state_dict, cfg, <[model_name := cfg]> configs)
      | inr None => (Some state_dict, dflt, configs)
      | inl _ => (Some state_dict, dflt, configs)
      end
  end.

(** [load_model] after the cache lookup has missed. *)
Definition load_uncached (env : Env) (st : State) (model_name : string)
  : (PyExn + Model) * State :=
  match model_paths st !! model_name with
  | None => (inl ValueError_not_found, st)
  | Some model_path =>
      if String.eqb model_path "" || negb (path_exists env model_path)
      then (inl ValueError_not_found, st)
      else
        let dflt :=
          match model_configs st !! model_name with
          | Some config => config
          | None => mkConfig 5 []
          end in
        let '(state_dict, cfg, configs) :=
          read_checkpoint env (model_configs st) model_name model_path dflt in
        let st1 := mkState (loaded_models st) (model_paths st) configs
                     (next_obj_id st) (model_path :: checkpoint_reads st) in
        match select_variant model_name state_dict (num_classes cfg) with
        | inl e => (inl e, st1)
        | inr variant =>
            match create_model_architecture env (next_obj_id st) model_name
                    (num_classes cfg) variant with
            | inl e => (inl e, st1)
            | inr model =>
                let st2 := mkState (loaded_models st) (model_paths st) configs
                             (S (next_obj_id st)) (model_path :: checkpoint_reads st) in
                match bind_weights (parameters model) state_dict with
                | (_, inl e) => (inl e, st2)
                | (params, inr _) =>
                    let model' := mkModel (obj_id model) (arch_name model)
                                    (out_features model) (arch_variant model) params in
                    (inr model',
                     mkState (<[model_name := model']> (loaded_models st)) (model_paths st)
                       configs (S (next_obj_id st)) (model_path :: checkpoint_reads st))
                end
            end
        end
  end.

(** [load_model(model_name)] *)
Definition load_model (env : Env) (st : State) (model_name : string)
  : (PyExn + Model) * State :=
  match loaded_models st !! model_name with
  | Some model => (inr model, st)
  | None => load_uncached env st model_name
  end.

(** ** Calls that overlap *)

(** [load_model] takes no lock.  A call first reads the cache,
    [if model_name in loaded_models: return loaded_models[model_name]], and
    on a miss runs the rest of the function, which ends in the write
    [loaded_models[model_name] = model]; between the two steps another
    thread of the server may run. *)
Definition cache_lookup (st : State) (model_name : string) : option Model :=
  loaded_models st !! model_name.

Definition after_lookup (env : Env) (st : State) (model_name : string)
    (found : option Model) : (PyExn + Model) * State :=
  match found with
  | Some model => (inr model, st)
  | None => load_uncached env st model_name
  end.




(** [range(len(class_names))] in [predict_image]: the positions of
    [all_probs], the model's output row, that are read. *)
Definition predict_positions (config : ModelConfig) : list nat :=
  seq 0 (length (class_names config)).

(** ** Discovery scan *)

(** [MODEL_CONFIGS], in the order of the source. *)
Definition five_classes : ModelConfig :=
  mkConfig 5 ["Cerscospora"; "Healthy"; "Leaf rust"; "Miner"; "Phoma"].
Definition two_classes : ModelConfig := mkConfig 2 ["Healthy"; "Not Healthy"].

Definition MODEL_CONFIGS : list (string * ModelConfig) :=
  [("ShuffleNet", five_classes); ("MobileNetV3", five_classes);
   ("EfficientNet", five_classes); ("CustomCNN1", five_classes);
   ("CustomCNN2", five_classes); ("CustomCNN3", five_classes);
   ("BinaryCNN_Light", two_classes); ("BinaryCNN_Deep", two_classes);
   ("BinaryCNN_Efficient", two_classes)].

(** A file found by [models_dir.glob('*.pth')]: its name and
    [str(pth_file.resolve())]. *)
Record PthFile := mkPth { file_name : string; resolved : string }.

(** [PurePath.stem]: the name without its last suffix; a name whose only
    dot is the first or the last character has no suffix. *)
Fixpoint rfind_dot (s : string) (pos : nat) (last : option nat) : option nat :=
  match s with
  | EmptyString => last
  | String c rest =>
      rfind_dot rest (S pos) (if Ascii.eqb c "."%char then Some pos else last)
  end.

Definition stem (name : string) : string :=
  match rfind_dot name 0%nat None with
  | Some i =>
      if (0 <? i)%nat && (i <? String.length name - 1)%nat
      then String.substring 0 i name
      else name
  | None => name
  end.

(** The three-way test of the inner loop. *)
Definition name_matches (config_name model_name : string) : bool :=
  PyStr.contains (PyStr.lower config_name) (PyStr.lower model_name)
  || PyStr.contains (PyStr.lower model_name) (PyStr.lower config_name)
  || PyStr.contains
       (PyStr.replace "_" "" (PyStr.replace "cnn" "" (PyStr.lower config_name)))
       (PyStr.replace "_" "" (PyStr.lower model_name)).

(** The inner loop [for config_name in MODEL_CONFIGS.keys()]: the tables
    afterwards and the flag [matched].  The [break] sits under
    [if config_name not in model_paths]. *)
Fixpoint match_file (registry : list (string * ModelConfig)) (model_name path : string)
    (paths : gmap string string) (configs : gmap string ModelConfig)
  : gmap string string * gmap string ModelConfig * bool :=
  match registry with
  | [] => (paths, configs, false)
  | (config_name, config) :: rest =>
      if name_matches config_name model_name then
        match paths !! config_name with
        | None => (<[config_name := path]> paths, <[config_name := config]> configs, true)
        | Some _ => match_file rest model_name path paths configs
        end
      else match_file rest model_name path paths configs
  end.

Definition model_name_of (f : PthFile) : string :=
  PyStr.replace "_checkpoint" "" (PyStr.replace "_best" "" (stem (file_name f))).

(** The outer loop [for pth_file in pth_files]; [unmatched] collects the
    files of the "Could not match" warning. *)
Fixpoint scan_files (pth_files : list PthFile) (paths : gmap string string)
    (configs : gmap string ModelConfig) (unmatched : list string)
  : gmap string string * gmap string ModelConfig * list string :=
  match pth_files with
  | [] => (paths, configs, unmatched)
  | f :: rest =>
      let '(paths', configs', matched) :=
        match_file MODEL_CONFIGS (model_name_of f) (resolved f) paths configs in
      scan_files rest paths' configs'
        (if matched then unmatched else unmatched ++ [file_name f])
  end.

(** [scan_for_models()] on the [.pth] files of the models directory (none
    when the directory is missing): both tables start empty. *)
Definition scan_for_models (pth_files : list PthFile) (st : State) : State * list string :=
  let '(paths, configs, unmatched) := scan_files pth_files ∅ ∅ [] in
  (mkState (loaded_models st) paths configs (next_obj_id st) (checkpoint_reads st),
   unmatched).

(** ** Vocabulary of the statements *)

(** [\.(\d+)\.] matches in [key] right after [pre], with [ds] as its group. *)
Definition dot_digits_at (key pre : string) (ds : list ascii) : Prop :=
  ds <> [] /\ Forall (fun c => PyStr.is_digit c = true) ds /\
  exists post, key = pre +:+ String "." (String.string_of_list_ascii ds +:+ String "." post).

(** What [re.search] finds: the leftmost match, if any. *)
Definition leftmost_dot_digits (key : string) (found : option (list ascii)) : Prop :=
  match found with
  | Some ds =>
      exists pre, dot_digits_at key pre ds /\
        forall pre' ds', dot_digits_at key pre' ds' -> (String.length pre <= String.length pre')%nat
  | None => forall pre ds, ~ dot_digits_at key pre ds
  end.

(** The candidate an entry of a parameter map gives rise to, if any. *)
Definition candidate_of (kv : string * Tensor) : option Candidate :=
  if PyStr.contains "weight" (fst kv) && is_classifier_key (fst kv) then
    match shape (snd kv) with
    | [d0; d1] => Some (mkCandidate (fst kv) d0 d1 (_extract_layer_index (fst kv)))
    | _ => None
    end
  else None.

(** The candidates as the specification words them: any two-dimensional
    entry with a classifier-like key, indexed by the first integer token
    (the first run of digits) of the key. *)
Fixpoint first_integer_token (key : string) : N :=
  match key with
  | EmptyString => 0
  | String c rest =>
      if PyStr.is_digit c then PyStr.int_of_digits (fst (PyStr.take_digits key))
      else first_integer_token rest
  end.

Definition spec_candidate_of (kv : string * Tensor) : option Candidate :=
  if is_classifier_key (fst kv) then
    match shape (snd kv) with
    | [d0; d1] => Some (mkCandidate (fst kv) d0 d1 (first_integer_token (fst kv)))
    | _ => None
    end
  else None.

Definition spec_candidates (sd : list (string * Tensor)) : list Candidate :=
  omap spec_candidate_of sd.

(** [c] is the candidate of [l] with the highest index, the first one among
    those of that index. *)
Definition first_of_highest_index (c : Candidate) (l : list Candidate) : Prop :=
  exists pre post, l = pre ++ c :: post /\
    Forall (fun d => index d < index c) pre /\
    Forall (fun d => index d <= index c) post.

(** Descending by index. *)
Definition sorted_desc (l : list Candidate) : Prop :=
  StronglySorted (fun a b => index b <= index a) l.

(** The container keys that are probed first, in their order. *)
Definition wrapper_keys : list string := ["model_state_dict"; "state_dict"; "model"].

(** The normalisation as the specification words it: the value of the first
    key that contains "state_dict" or "model" is taken whatever it is. *)
Definition spec_normalize (checkpoint : PyObj) : PyObj :=
  match checkpoint with
  | PyDict items =>
      match omap (dict_get items) wrapper_keys with
      | v :: _ => v
      | [] =>
          match List.find (fun kv => is_container_key (fst kv)) items with
          | Some (_, v) => v
          | None => checkpoint
          end
      end
  | _ => checkpoint
  end.

(** The variant as the specification words it: the first dimension of the
    shape plays no part. *)
Definition spec_select_variant (model_name : string) (sd : list (string * Tensor)) : string :=
  if String.eqb model_name "BinaryCNN_Deep" then
    if existsb (fun kv => PyStr.contains "classifier.4.weight" (fst kv) &&
                          match shape (snd kv) with
                          | [_; d1] => d1 =? 128
                          | _ => false
                          end) sd
    then "simple" else "default"
  else "default".

(** What a parameter holds after a checkpoint [sd] of tensors of which
    none is a vector for a scalar was bound: the tensor [sd] has under its
    key when the shapes agree, its value before otherwise. *)
Definition bound_value (sd : list (string * Tensor)) (key : string) (current : Tensor)
  : Tensor :=
  match dict_get sd key with
  | Some t => if bool_decide (shape t = shape current) then t else current
  | None => current
  end.

(** What a parameter holds after any checkpoint [sd] of tensors was bound:
    the tensor of its key when the shapes are identical, the first element
    of that tensor when the parameter has no dimension and the tensor has
    one, its value before otherwise. *)
Definition loaded_value (sd : list (string * Tensor)) (key : string) (current : Tensor)
  : Tensor :=
  match dict_get sd key with
  | Some t =>
      if bool_decide (shape t = shape current) then t
      else if vector_for_scalar current t then first_element t
      else current
  | None => current
  end.

(** No empty one-dimensional tensor of the checkpoint meets a parameter
    without dimensions. *)
Definition indexable (params : gmap string Tensor) (sd : list (string * Tensor)) : Prop :=
  forall key t current,
    params !! key = Some current -> dict_get sd key = Some t ->
    shape current = [] -> shape t <> [0].

(** A checkpoint entry that torch reports as a size mismatch for the
    parameter [current]. *)
Definition size_mismatch (current t : Tensor) : Prop :=
  shape t <> shape current /\ vector_for_scalar current t = false.

(** An entry of the checkpoint that the model can take. *)
Definition compatible (params : gmap string Tensor) (kv : string * Tensor) : bool :=
  match params !! fst kv with
  | Some current => bool_decide (shape current = shape (snd kv))
  | None => false
  end.

(** What [incompatible_keys] gets for an entry of the checkpoint. *)
Definition incompatible_entry (params : gmap string Tensor) (kv : string * Tensor)
  : option IncompatibleKey :=
  match params !! fst kv with
  | Some current =>
      if bool_decide (shape current = shape (snd kv)) then None
      else Some (ShapeMismatch (fst kv) (shape (snd kv)) (shape current))
  | None => Some (NotInModel (fst kv))
  end.

(** The globals when the module has just been imported. *)
Definition initial_state : State := mkState ∅ ∅ ∅ 0 [].

(** A sequence of [load_model] calls, each in its own surroundings. *)
Fixpoint load_models (calls : list (Env * string)) (st : State) : State :=
  match calls with
  | [] => st
  | (env, model_name) :: rest => load_models rest (snd (load_model env st model_name))
  end.

(** A models directory with one checkpoint of [CustomCNN1], wrapped under
    "state_dict" (the specification's first scenario), and constructors
    whose head is [Linear(128, num_classes)] at position 4. *)
Definition example_path : string := "/srv/backend/models/CustomCNN1_best.pth".

Definition example_checkpoint : PyObj :=
  PyDict [("epoch", PyOpaque 12);
          ("state_dict",
           as_dict [("classifier.4.weight", mkTensor [5; 128] 1);
                    ("classifier.4.bias", mkTensor [5] 2);
                    ("features.0.weight", mkTensor [32; 3; 3; 3] 3)])].

Definition example_parameters (model_name : string) (n : N) (variant : string)
  : gmap string Tensor :=
  {[ "classifier.4.weight" := mkTensor [n; 128] 100;
     "classifier.4.bias" := mkTensor [n] 101;
     "features.0.weight" := mkTensor [32; 3; 3; 3] 102 ]}.

Definition example_env : Env :=
  mkEnv (fun path => String.eqb path example_path)
        (fun path => if String.eqb path example_path then Some example_checkpoint else None)
        example_parameters.

(** The same directory after the file has been removed. *)
Definition emptied_env : Env :=
  mkEnv (fun _ => false) (fun _ => None) example_parameters.

(** The state after the start-up scan of that directory. *)
Definition example_state : State :=
  fst (scan_for_models [mkPth "CustomCNN1_best.pth" example_path] initial_state).

(** A directory whose checkpoint of [CustomCNN1] has a head without rows. *)
Definition rowless_checkpoint : PyObj :=
  as_dict [("classifier.4.weight", mkTensor [0; 128] 1)].

Definition rowless_env : Env :=
  mkEnv (fun path => String.eqb path example_path)
        (fun path => if String.eqb path example_path then Some rowless_checkpoint else None)
        example_parameters.

(** The first registered name that matches a model name, bound or not. *)
Definition first_matching_name (model_name : string) : option string :=
  fst <$> List.find (fun entry => name_matches (fst entry) model_name) MODEL_CONFIGS.

(** The scan as the specification words it: whoever holds a file is the
    first registered name that matches it. *)
Definition held_by_first_match (pth_files : list PthFile) (paths : gmap string string)
  : Prop :=
  forall f config_name,
    In f pth_files -> paths !! config_name = Some (resolved f) ->
    first_matching_name (model_name_of f) = Some config_name.

(** A registered name that the inner loop passes over: it does not match,
    or it is bound already. *)
Definition passed_over (model_name : string) (paths : gmap string string)
    (entry : string * ModelConfig) : Prop :=
  name_matches (fst entry) model_name = false \/ is_Some (paths !! fst entry).

(** The specification's second scenario: the checkpoint's head was trained
    on 256 features, the constructor's head takes 128. *)
Definition drifted_checkpoint : PyObj :=
  PyDict [("state_dict",
           as_dict [("classifier.4.weight", mkTensor [5; 256] 1);
                    ("classifier.4.bias", mkTensor [5] 2);
                    ("features.0.weight", mkTensor [32; 3; 3; 3] 3)])].

Definition drifted_env : Env :=
  mkEnv (fun path => String.eqb path example_path)
        (fun path => if String.eqb path example_path then Some drifted_checkpoint else None)
        example_parameters.

(** ** Vocabulary of the further properties *)

(** The state in which the module serves requests: the scan of the models
    directory has run on the fresh globals. *)
Definition started (pth_files : list PthFile) : State :=
  fst (scan_for_models pth_files initial_state).

(** A configuration with one class name per class. *)
Definition config_sized (config : ModelConfig) : Prop :=
  length (class_names config) = N.to_nat (num_classes config).

(** The three tables agree: a name with a path is a known architecture and
    has a sized configuration; a cached model sits under its own name, which
    has a path, and has as many outputs as its configuration has classes. *)
Definition tables_consistent (st : State) : Prop :=
  (forall name, is_Some (model_paths st !! name) ->
     In name known_architectures /\
     exists config, model_configs st !! name = Some config /\ config_sized config) /\
  (forall name model, loaded_models st !! name = Some model ->
     is_Some (model_paths st !! name) /\ arch_name model = name /\
     exists config, model_configs st !! name = Some config /\
       num_classes config = out_features model).

(** The names of [MODEL_CONFIGS.keys()]. *)
Definition registered_names : list string := map fst MODEL_CONFIGS.

(** The ways a checkpoint of a registered model is named: the name itself,
    or the name followed by "_best" or "_checkpoint". *)
Definition named_after (f : PthFile) (config_name : string) : Prop :=
  In config_name registered_names /\
  In (file_name f)
     [config_name +:+ ".pth"; config_name +:+ "_best.pth"; config_name +:+ "_checkpoint.pth"].

(** ** The architectures of [models.py] as parameter tables *)

(** A [torch.nn] module as far as its [state_dict()] goes: the layers with
    parameters (strides and paddings do not show in the shapes), modules
    without parameters ([ReLU], [Dropout], the pooling layers, [Flatten]),
    and modules with named children. *)
Inductive NNModule :=
| Conv2d (in_channels out_channels kernel_size groups : N) (bias : bool)
| BatchNorm2d (num_features : N)
| Linear (in_features out_features : N)
| Plain
| Container (children : list (string * NNModule)).

(** [nn.Sequential] of some layers: the children are named by their
    position. *)
Definition Sequential (layers : list NNModule) : NNModule :=
  Container (imap (fun i layer => (PyStr.str_of_N (N.of_nat i), layer)) layers).

(** The keys of [module.state_dict(prefix=prefix)] with the shapes, in
    torch's order: parameters, then buffers, then the children. *)
Fixpoint state_shapes (prefix : string) (m : NNModule) : list (string * list N) :=
  match m with
  | Conv2d i o k g b =>
      (prefix +:+ "weight", [o; i / g; k; k]) ::
      (if b then [(prefix +:+ "bias", [o])] else [])
  | BatchNorm2d c =>
      [(prefix +:+ "weight", [c]); (prefix +:+ "bias", [c]);
       (prefix +:+ "running_mean", [c]); (prefix +:+ "running_var", [c]);
       (prefix +:+ "num_batches_tracked", [])]
  | Linear i o => [(prefix +:+ "weight", [o; i]); (prefix +:+ "bias", [o])]
  | Plain => []
  | Container children =>
      (fix go (cs : list (string * NNModule)) : list (string * list N) :=
         match cs with
         | [] => []
         | (name, child) :: cs' => state_shapes (prefix +:+ name +:+ ".") child ++ go cs'
         end) children
  end.

Definition conv_bn_relu (i o : N) : list NNModule :=
  [Conv2d i o 3 1 true; BatchNorm2d o; Plain].

(** [class CustomCNN1] *)
Definition CustomCNN1 (n : N) : NNModule :=
  Container
    [("features",
      Sequential (conv_bn_relu 3 32 ++ conv_bn_relu 32 32 ++ [Plain] ++
                  conv_bn_relu 32 64 ++ conv_bn_relu 64 64 ++ [Plain] ++
                  conv_bn_relu 64 128 ++ conv_bn_relu 128 128 ++ [Plain] ++
                  conv_bn_relu 128 256 ++ conv_bn_relu 256 256 ++ [Plain]));
     ("avgpool", Plain);
     ("classifier", Sequential [Plain; Linear 256 128; Plain; Plain; Linear 128 n])].

(** [class BasicBlock] *)
Definition BasicBlock (inplanes planes stride : N) : NNModule :=
  Container
    [("conv1", Conv2d inplanes planes 3 1 false); ("bn1", BatchNorm2d planes);
     ("conv2", Conv2d planes planes 3 1 false); ("bn2", BatchNorm2d planes);
     ("shortcut",
      if negb (stride =? 1) || negb (inplanes =? planes)
      then Sequential [Conv2d inplanes planes 1 1 false; BatchNorm2d planes]
      else Sequential [])].

(** [_make_layer(inplanes, planes, blocks, stride)] *)
Definition _make_layer (inplanes planes : N) (blocks : nat) (stride : N) : NNModule :=
  Sequential (BasicBlock inplanes planes stride ::
              repeat (BasicBlock planes planes 1) (Nat.pred blocks)).

Definition residual_trunk : list (string * NNModule) :=
  [("conv1", Conv2d 3 64 7 1 true); ("bn1", BatchNorm2d 64);
   ("relu", Plain); ("maxpool", Plain);
   ("layer1", _make_layer 64 64 2 1); ("layer2", _make_layer 64 128 2 2);
   ("layer3", _make_layer 128 256 2 2); ("layer4", _make_layer 256 512 2 2);
   ("avgpool", Plain)].

Definition deep_head (n : N) : NNModule :=
  Sequential [Plain; Linear 512 256; Plain; Plain; Linear 256 128; Plain; Plain;
              Linear 128 n].

(** [class CustomCNN2] *)
Definition CustomCNN2 (n : N) : NNModule :=
  Container (residual_trunk ++ [("classifier", deep_head n)]).

(** [class MBConv] *)
Definition MBConv (in_channels out_channels expansion_factor : N) : NNModule :=
  let expanded_channels := in_channels * expansion_factor in
  Container
    [("expand", Conv2d in_channels expanded_channels 1 1 false);
     ("expand_bn", BatchNorm2d expanded_channels);
     ("depthwise", Conv2d expanded_channels expanded_channels 3 expanded_channels false);
     ("depthwise_bn", BatchNorm2d expanded_channels);
     ("project", Conv2d expanded_channels out_channels 1 1 false);
     ("project_bn", BatchNorm2d out_channels)].

(** [class CustomCNN3]; [BinaryCNN_Efficient] has the same layers. *)
Definition CustomCNN3 (n : N) : NNModule :=
  Container
    [("stem", Sequential [Conv2d 3 32 3 1 true; BatchNorm2d 32; Plain]);
     ("blocks",
      Sequential [MBConv 32 16 1; MBConv 16 24 6; MBConv 24 40 6; MBConv 40 80 6;
                  MBConv 80 112 6; MBConv 112 192 6; MBConv 192 320 6]);
     ("head",
      Sequential [Conv2d 320 1280 1 1 true; BatchNorm2d 1280; Plain; Plain; Plain; Plain;
                  Linear 1280 n])].

Definition conv_bn_relu_pool (i o : N) : list NNModule :=
  [Conv2d i o 3 1 true; BatchNorm2d o; Plain; Plain].

(** [class BinaryCNN_Light] *)
Definition BinaryCNN_Light (n : N) : NNModule :=
  Container
    [("features",
      Sequential (conv_bn_relu_pool 3 32 ++ conv_bn_relu_pool 32 64 ++
                  conv_bn_relu_pool 64 128 ++ conv_bn_relu_pool 128 256));
     ("avgpool", Plain);
     ("classifier", Sequential [Plain; Linear 256 128; Plain; Plain; Linear 128 n])].

(** [class BinaryCNN_Deep] *)
Definition BinaryCNN_Deep (n : N) (variant : string) : NNModule :=
  Container
    (residual_trunk ++
     [("classifier",
       if String.eqb variant "simple" || String.eqb variant "checkpoint"
       then Sequential [Plain; Linear 512 128; Plain; Plain; Linear 128 n]
       else deep_head n)]).

Definition BinaryCNN_Efficient (n : N) : NNModule := CustomCNN3 n.

(** The architectures that [create_model_architecture] takes from
    [models.py]; the other three names come from torchvision. *)
Definition repo_architecture (model_name : string) (n : N) (variant : string)
  : option NNModule :=
  if String.eqb model_name "CustomCNN1" then Some (CustomCNN1 n)
  else if String.eqb model_name "CustomCNN2" then Some (CustomCNN2 n)
  else if String.eqb model_name "CustomCNN3" then Some (CustomCNN3 n)
  else if String.eqb model_name "BinaryCNN_Light" then Some (BinaryCNN_Light n)
  else if String.eqb model_name "BinaryCNN_Deep" then Some (BinaryCNN_Deep n variant)
  else if String.eqb model_name "BinaryCNN_Efficient" then Some (BinaryCNN_Efficient n)
  else None.

(** A state dict: the shapes with numeric contents. *)
Definition tensors_of (shapes : list (string * list N)) (values : string -> N)
  : list (string * Tensor) :=
  map (fun ks => (fst ks, mkTensor (snd ks) (values (fst ks)))) shapes.

(** [model.state_dict()] of an instance holding [values]. *)
Definition state_dict_of (m : NNModule) (values : string -> N) : list (string * Tensor) :=
  tensors_of (state_shapes "" m) values.

(** The initial parameters of the constructors of [models.py], holding
    [init]; the torchvision models are not described here. *)
Definition repo_parameters (init : string -> N) (model_name : string) (n : N)
    (variant : string) : gmap string Tensor :=
  match repo_architecture model_name n variant with
  | Some m => list_to_map (state_dict_of m init)
  | None => ∅
  end.

(** A models directory with a training checkpoint of [BinaryCNN_Light]. *)
Definition light_path : string := "/srv/backend/models/BinaryCNN_Light_best.pth".

Definition light_checkpoint : PyObj :=
  PyDict [("epoch", PyOpaque 30);
          ("model_state_dict", as_dict (state_dict_of (BinaryCNN_Light 2) (fun _ => 7)));
          ("optimizer_state_dict", PyOpaque 1)].

Definition light_env : Env :=
  mkEnv (fun path => String.eqb path light_path)
        (fun path => if String.eqb path light_path then Some light_checkpoint else None)
        (repo_parameters (fun _ => 0)).

(** ** Polygons ([utils.py]) *)

Module Polygons.
Import ZArith QArith.
Local Open Scope Q_scope.

(** A Python float: a finite double is the rational it stands for. *)
Inductive PyFloat := Finite (q : Q) | PosInf | NegInf | NaN.

(** What [json.loads] returns. *)
Inductive Json :=
| JNull
| JBool (b : bool)
| JInt (z : Z)
| JFloat (f : PyFloat)
| JStr (s : string)
| JList (items : list Json)
| JDict (entries : list (string * Json)).

(** [bool(v)] *)
Definition truthy (v : Json) : bool :=
  match v with
  | JNull => false
  | JBool b => b
  | JInt z => negb (Z.eqb z 0)
  | JFloat (Finite q) => negb (Qeq_bool q 0)
  | JFloat _ => true
  | JStr s => negb (String.eqb s "")
  | JList items => match items with [] => false | _ => true end
  | JDict entries => match entries with [] => false | _ => true end
  end.

(** [len(v)]: numbers, booleans and [None] have no length. *)
Definition py_len (v : Json) : PyExn + nat :=
  match v with
  | JStr s => inr (String.length s)
  | JList items => inr (length items)
  | JDict entries => inr (length entries)
  | _ => inl TypeError
  end.

Fixpoint chars_of (s : string) : list Json :=
  match s with
  | EmptyString => []
  | String c rest => JStr (String c EmptyString) :: chars_of rest
  end.

(** What [for coord in v] goes through, for a [v] that has a length. *)
Definition py_iter (v : Json) : list Json :=
  match v with
  | JStr s => chars_of s
  | JList items => items
  | JDict entries => map (fun kv => JStr (fst kv)) entries
  | _ => []
  end.

(** [isinstance(v, (int, float))]: [bool] is a subclass of [int]. *)
Definition is_number (v : Json) : bool :=
  match v with
  | JBool _ | JInt _ | JFloat _ => true
  | _ => false
  end.

(** [lo <= v <= hi] for a number [v]; every comparison with [nan] is false. *)
Definition between (lo hi : Z) (v : Json) : bool :=
  match v with
  | JBool b => Z.leb lo (Z.b2z b) && Z.leb (Z.b2z b) hi
  | JInt z => Z.leb lo z && Z.leb z hi
  | JFloat (Finite q) => Qle_bool (inject_Z lo) q && Qle_bool q (inject_Z hi)
  | _ => false
  end.

(** The body of the loop of [validate_polygon] for one [coord]: the error
    message, if any. *)
Definition coordinate_error (coord : Json) : option string :=
  match coord with
  | JList [lat; lng] =>
      if negb (is_number lat) || negb (is_number lng)
      then Some "Latitude and longitude must be numbers"
      else if negb (between (-90) 90 lat)
      then Some "Latitude must be between -90 and 90"
      else if negb (between (-180) 180 lng)
      then Some "Longitude must be between -180 and 180"
      else None
  | _ => Some "Each coordinate must be [lat, lng]"
  end.

Fixpoint first_coordinate_error (coords : list Json) : option string :=
  match coords with
  | [] => None
  | coord :: rest =>
      match coordinate_error coord with
      | Some message => Some message
      | None => first_coordinate_error rest
      end
  end.

(** [validate_polygon(coordinates)]: the pair [(is_valid, error_message)]. *)
Definition validate_polygon (coordinates : Json) : PyExn + (bool * option string) :=
  if negb (truthy coordinates)
  then inr (false, Some "Polygon coordinates cannot be empty")
  else
    match py_len coordinates with
    | inl e => inl e
    | inr n =>
        if (n <? 3)%nat
        then inr (false, Some "Polygon must have at least 3 points")
        else
          match first_coordinate_error (py_iter coordinates) with
          | Some message => inr (false, Some message)
          | None => inr (true, None)
          end
    end.

(** [get_health_color(health_label)] *)
Definition color_map : list (string * string) :=
  [("healthy", "green"); ("mildly_stressed", "yellow"); ("diseased", "orange");
   ("pest_damage", "red"); ("nutrient_deficiency", "purple"); ("unknown", "gray")].

Definition get_health_color (health_label : string) : string :=
  default "gray" (dict_get color_map health_label).

(** The number a JSON value stands for in a comparison: [True] is 1 and
    [False] is 0; [nan] and the infinities are no rationals. *)
Definition number_value (v : Json) : option Q :=
  match v with
  | JBool b => Some (inject_Z (Z.b2z b))
  | JInt z => Some (inject_Z z)
  | JFloat (Finite q) => Some q
  | _ => None
  end.

(** A coordinate that [validate_polygon] lets pass. *)
Definition valid_coordinate (coord : Json) : Prop :=
  exists lat lng a b,
    coord = JList [lat; lng] /\ number_value lat = Some a /\ number_value lng = Some b /\
    -90 <= a /\ a <= 90 /\ -180 <= b /\ b <= 180.

(** *** Ray casting *)

Definition qmin (a b : Q) : Q := if Qle_bool a b then a else b.
Definition qmax (a b : Q) : Q := if Qle_bool a b then b else a.

Section RayCasting.

(** The floating-point value of
    [(y - p1y) * (p2x - p1x) / (p2y - p1y) + p1x] and the test
    [x <= xinters] are left open: the statements hold for any arithmetic. *)
Variable F : Type.
Variable intersection : Q -> Q -> Q -> Q -> Q -> F.
Variable le_xinters : Q -> F -> bool.

(** One turn of the loop on the edge from [(p1x, p1y)] to [(p2x, p2y)]:
    the new [inside] and [xinters] ([None]: not assigned yet). *)
Definition cross_edge (x y : Q) (p1 p2 : Q * Q) (state : bool * option F)
  : PyExn + (bool * option F) :=
  let '(p1x, p1y) := p1 in
  let '(p2x, p2y) := p2 in
  let '(inside, xinters) := state in
  if negb (Qle_bool y (qmin p1y p2y)) then
    if Qle_bool y (qmax p1y p2y) then
      if Qle_bool x (qmax p1x p2x) then
        let xinters' :=
          if negb (Qeq_bool p1y p2y) then Some (intersection y p1x p1y p2x p2y)
          else xinters in
        if Qeq_bool p1x p2x then inr (negb inside, xinters')
        else
          match xinters' with
          | None => inl UnboundLocalError
          | Some xi => inr (if le_xinters x xi then negb inside else inside, xinters')
          end
      else inr state
    else inr state
  else inr state.

(** The loop [for i in range(1, n + 1)]: [p1] is the vertex reached,
    [rest] the vertices [polygon_coords[i % n]] still to come. *)
Fixpoint cross_edges (x y : Q) (p1 : Q * Q) (rest : list (Q * Q)) (state : bool * option F)
  : PyExn + bool :=
  match rest with
  | [] => inr (fst state)
  | p2 :: rest' =>
      match cross_edge x y p1 p2 state with
      | inl e => inl e
      | inr state' => cross_edges x y p2 rest' state'
      end
  end.

(** [point_in_polygon(lat, lng, polygon_coords)] on a polygon whose
    coordinates are finite numbers.  The point is read as [x, y = lng, lat],
    each vertex as [p1x, p1y = polygon_coords[i]]. *)
Definition point_in_polygon (lat lng : Q) (polygon_coords : list (Q * Q)) : PyExn + bool :=
  match polygon_coords with
  | [] => inr false
  | first :: others =>
      if (length polygon_coords <? 3)%nat then inr false
      else cross_edges lng lat first (others ++ [first]) (false, None)
  end.

End RayCasting.

(** An edge that the guards of the loop keep out: the point is not above
    both ends, or above both, or right of both. *)
Definition off_edge (x y : Q) (p1 p2 : Q * Q) : Prop :=
  (y <= p1.2 /\ y <= p2.2) \/ (p1.2 < y /\ p2.2 < y) \/ (p1.1 < x /\ p2.1 < x).

(** The arithmetic on rationals, without rounding. *)
Definition exact_intersection (y p1x p1y p2x p2y : Q) : Q :=
  (y - p1y) * (p2x - p1x) / (p2y - p1y) + p1x.

End Polygons.

(** * Analysis of an image ([app.py]) *)

Module Analysis.
Import ZArith QArith Polygons.
Local Open Scope Q_scope.

(** [a < b] on finite floats. *)
Definition Qlt_bool (a b : Q) : bool := negb (Qle_bool b a).

(** [name in names] *)
Definition py_in (name : string) (names : list string) : bool :=
  existsb (String.eqb name) names.

(** [sep.join(parts)] *)
Fixpoint join (sep : string) (parts : list string) : string :=
  match parts with
  | [] => ""
  | [part] => part
  | part :: rest => String.append part (String.append sep (join sep rest))
  end.

(** ** [assess_image_quality] and the test of [create_spot] *)

(** The dict [assess_image_quality] returns; its last two keys are absent
    on the path of the [except]. *)
Record Quality := mkQuality {
  is_blurry : bool;
  is_underexposed : bool;
  is_overexposed : bool;
  notes : string;
  laplacian_variance : option Q;
  mean_brightness : option Q
}.

(** [assess_image_quality(image_bytes)], from what the image libraries
    measure: the variance of the Laplacian and the mean of the grey levels,
    or the text of the exception one of them raises. *)
Definition assess_image_quality (measured : Q * Q + string) : Quality :=
  match measured with
  | inl (laplacian_var, brightness) =>
      let blurry := Qlt_bool laplacian_var 100 in
      let underexposed := Qlt_bool brightness 50 in
      let overexposed := Qlt_bool 200 brightness in
      let notes :=
        (if blurry then ["Image appears blurry"] else []) ++
        (if underexposed then ["Image appears underexposed"] else []) ++
        (if overexposed then ["Image appears overexposed"] else []) in
      let notes := match notes with [] => ["Image quality acceptable"] | _ => notes end in
      mkQuality blurry underexposed overexposed (join "; " notes)
        (Some laplacian_var) (Some brightness)
  | inr e =>
      mkQuality false false false (String.append "Quality assessment error: " e) None None
  end.

(** [is_unusable] in [create_spot]. *)
Definition is_unusable (quality_assessment : Quality) : bool :=
  let laplacian_var := default 1000 (laplacian_variance quality_assessment) in
  let brightness := default 128 (mean_brightness quality_assessment) in
  (is_blurry quality_assessment && Qlt_bool laplacian_var 50)
  || Qlt_bool brightness 20 || Qlt_bool 240 brightness.

(** ** [map_prediction_to_schema] *)

(** The dict [predict_image] returns, as far as it is read here; a key may
    be absent.  [all_probabilities] is a dict in the order of its keys'
    insertion, probabilities are finite floats. *)
Record Prediction := mkPrediction {
  predicted_class : option string;
  prediction_confidence : option Q;
  all_probabilities : option (list (string * Q))
}.

Record HealthAssessment := mkHealth { label : string; confidence : Q }.

Record DetailedFindings := mkFindings {
  diseases_detected : list string;
  pests_detected : list string;
  nutrient_deficiencies_detected : list string;
  stress_signs : list string
}.

Record Schema := mkSchema {
  health_assessment : HealthAssessment;
  detailed_findings : DetailedFindings
}.

Definition class_to_label : list (string * string) :=
  [("Healthy", "healthy"); ("Not Healthy", "mildly_stressed"); ("Cerscospora", "diseased");
   ("Leaf rust", "diseased"); ("Miner", "pest_damage"); ("Phoma", "diseased")].

Definition disease_classes : list string := ["Cerscospora"; "Leaf rust"; "Phoma"].
Definition pest_classes : list string := ["Miner"].

(** The doubles [0.2] and [0.7]. *)
Definition threshold : Q := 3602879701896397 # 18014398509481984.
Definition high_confidence : Q := 3152519739159347 # 4503599627370496.

(** [class_name], or [f"{class_name} ({crop_type})"] under [if crop_type];
    [None] and the empty string are false. *)
Definition finding_name (class_name : string) (crop_type : option string) : string :=
  match crop_type with
  | Some crop =>
      if String.eqb crop "" then class_name
      else String.append class_name (String.append " (" (String.append crop ")"))
  | None => class_name
  end.

(** [if name not in found: found.append(name)] *)
Definition append_new (name : string) (found : list string) : list string :=
  if py_in name found then found else found ++ [name].

(** One turn of [for class_name, prob in all_probs.items()]. *)
Definition visit (crop_type : option string) (found : DetailedFindings)
    (item : string * Q) : DetailedFindings :=
  let '(class_name, prob) := item in
  if Qle_bool threshold prob then
    if py_in class_name disease_classes then
      mkFindings (append_new (finding_name class_name crop_type) (diseases_detected found))
        (pests_detected found) (nutrient_deficiencies_detected found) (stress_signs found)
    else if py_in class_name pest_classes then
      mkFindings (diseases_detected found)
        (append_new (finding_name class_name crop_type) (pests_detected found))
        (nutrient_deficiencies_detected found) (stress_signs found)
    else if String.eqb class_name "Not Healthy" && Qle_bool threshold prob then
      mkFindings (diseases_detected found) (pests_detected found)
        (nutrient_deficiencies_detected found)
        (stress_signs found ++ ["General plant stress detected"])
    else found
  else found.

Definition map_prediction_to_schema (prediction_result : Prediction)
    (crop_type : option string) : Schema :=
  let predicted := default "unknown" (predicted_class prediction_result) in
  let conf := default 0 (prediction_confidence prediction_result) in
  let all_probs := default [] (all_probabilities prediction_result) in
  let health_label := default "unknown" (dict_get class_to_label predicted) in
  let health_label :=
    if String.eqb predicted "Not Healthy" && (length all_probs =? 2)%nat
    then "mildly_stressed" else health_label in
  let found := fold_left (visit crop_type) all_probs (mkFindings [] [] [] []) in
  let stress :=
    if String.eqb predicted "Not Healthy" && Qle_bool high_confidence conf
    then stress_signs found ++ ["Plant health issues detected"]
    else stress_signs found in
  mkSchema (mkHealth health_label conf)
    (mkFindings (diseases_detected found) (pests_detected found)
       (nutrient_deficiencies_detected found) stress).

(** The list comprehensions the loop amounts to on a dict. *)
Definition above_threshold (all_probs : list (string * Q)) : list string :=
  map fst (filter (fun item => Qle_bool threshold item.2 = true) all_probs).

Definition named_findings (classes : list string) (crop_type : option string)
    (all_probs : list (string * Q)) : list string :=
  map (fun class_name => finding_name class_name crop_type)
    (filter (fun class_name => py_in class_name classes = true) (above_threshold all_probs)).

(** ** [get_analysis_summary] *)

(** The columns of [AnalysisResult] and [Spot] the summary reads. *)
Record AnalysisResult := mkAnalysis {
  health_label : option string;
  stored_confidence : option Q
}.

Record Spot := mkSpot {
  latitude : Q;
  longitude : Q;
  analysis : option AnalysisResult
}.

Record HeatPoint := mkHeat {
  heat_latitude : Q;
  heat_longitude : Q;
  severity : Q;
  heat_label : option string
}.

Record Summary := mkSummary {
  field_id : nat;
  total_spots : nat;
  health_distribution : list (option string * nat);
  disease_heatmap : list HeatPoint
}.

(** [health_dist[label] = health_dist.get(label, 0) + 1] on a dict in
    insertion order. *)
Fixpoint count_up (lbl : option string) (health_dist : list (option string * nat))
  : list (option string * nat) :=
  match health_dist with
  | [] => [(lbl, 1%nat)]
  | (k, n) :: rest =>
      if decide (k = lbl) then (k, S n) :: rest else (k, n) :: count_up lbl rest
  end.

(** [health_dist.get(label, 0)] *)
Fixpoint count_of (lbl : option string) (health_dist : list (option string * nat)) : nat :=
  match health_dist with
  | [] => 0%nat
  | (k, n) :: rest => if decide (k = lbl) then n else count_of lbl rest
  end.

(** [confidence or 0.5] *)
Definition severity_of (conf : option Q) : Q :=
  match conf with
  | Some c => if Qeq_bool c 0 then 1 # 2 else c
  | None => 1 # 2
  end.

(** One turn of [for spot in spots]. *)
Definition summarize_spot (acc : list (option string * nat) * list HeatPoint) (spot : Spot)
  : list (option string * nat) * list HeatPoint :=
  match analysis spot with
  | Some result =>
      let lbl := health_label result in
      (count_up lbl acc.1,
       acc.2 ++ [mkHeat (latitude spot) (longitude spot)
                   (severity_of (stored_confidence result)) lbl])
  | None => acc
  end.

(** [jsonify] writes every dict with its keys sorted; a key [None] beside
    a string key cannot be compared with it, and the sort raises
    [TypeError].  A dict has no key twice, so one key is always sorted. *)
Definition sortable (health_dist : list (option string * nat)) : bool :=
  match health_dist with
  | [] | [_] => true
  | _ => forallb (fun entry => bool_decide (is_Some entry.1)) health_dist
  end.

(** What the view answers: the summary with status 200, or
    [jsonify({'error': str(e)}), 500] from its [except Exception]. *)
Inductive Response := Ok200 (summary : Summary) | Error500.

(** [get_analysis_summary(field_id)]; [fields] gives the spots of the field
    of an id, [None] when [Field.query.get_or_404] finds no field and
    aborts: the [NotFound] it raises is an [Exception], so the view catches
    it and answers 500, as it does when [jsonify] raises. *)
Definition get_analysis_summary (fields : nat -> option (list Spot)) (id : nat) : Response :=
  match fields id with
  | None => Error500
  | Some spots =>
      let '(health_dist, heatmap_data) := fold_left summarize_spot spots ([], []) in
      if sortable health_dist
      then Ok200 (mkSummary id (length spots) health_dist heatmap_data)
      else Error500
  end.

(** The analysed spots with a given label. *)
Definition labelled (lbl : option string) (spot : Spot) : bool :=
  match analysis spot with
  | Some result => bool_decide (health_label result = lbl)
  | None => false
  end.

(** ** The choice of a model *)

Definition preferred_models : list string :=
  ["CustomCNN1"; "CustomCNN2"; "CustomCNN3"; "EfficientNet"; "MobileNetV3"].

(** [bool(name)] for a name that may be [None]. *)
Definition named (name : option string) : bool :=
  match name with
  | Some s => negb (String.eqb s "")
  | None => false
  end.

(** The fallback of [analyze_crop_image] and [create_spot]: the first
    preferred model that is a key of [model_paths], else the first key.
    [keys] is [list(model_paths.keys())]; on [None] both functions report
    that no models are available. *)
Definition fallback_model (keys : list string) : option string :=
  let model_name := List.find (fun preferred => py_in preferred keys) preferred_models in
  let model_name :=
    if negb (named model_name) && match keys with [] => false | _ => true end
    then head keys else model_name in
  if negb (named model_name) then None else model_name.

(** The choice of [create_spot], [selected_model] being the form field
    [model]. *)
Definition select_model (selected_model : option string) (keys : list string)
  : option string :=
  match selected_model with
  | Some name =>
      if negb (String.eqb name "") && py_in name keys then Some name
      else fallback_model keys
  | None => fallback_model keys
  end.

End Analysis.

(** * Displayed metrics ([field_calculations.py]) *)

Module FieldCalculations.
Import ZArith QArith.
Local Open Scope Q_scope.

Inductive AreaUnit := Hectares | SquareKilometres | SquareMetres.

(** A formatted quantity [f"{value:.{decimals}f} {unit}"]. *)
Record Display := mkDisplay { value : Q; decimals : nat; unit : AreaUnit }.

Section Floats.

(** Division of floats, with its rounding. *)
Variable fdiv : Q -> Q -> Q.

Definition format_area_display (area_sqm : Q) : Display :=
  let hectares := fdiv area_sqm 10000 in
  if Qle_bool 1 hectares then mkDisplay hectares 2 Hectares
  else if Qle_bool 1000 area_sqm then
    if Qle_bool 1000000 area_sqm then mkDisplay (fdiv area_sqm 1000) 2 SquareKilometres
    else mkDisplay area_sqm 0 SquareMetres
  else mkDisplay area_sqm 1 SquareMetres.

End Floats.

End FieldCalculations.

(** * Properties *)

(** ** Strings *)

Module PyStrFacts.
Import PyStr.

Lemma startswith_iff p s : startswith p s = true <-> exists post, s = p +:+ post.
Proof.
  revert s. induction p as [|a p IH]; intros s; simpl.
  - split; [intros _; by exists s | done].
  - destruct s as [|b s].
    + split; [done | intros [post H]; discriminate H].
    + rewrite andb_true_iff, IH. split.
      * intros [Hab [post ->]]. apply Ascii.eqb_eq in Hab as ->. by exists post.
      * intros [post H]. injection H as -> ->. split; [apply Ascii.eqb_refl | by exists post].
Qed.

(** [contains] is Python's substring test. *)
Lemma contains_iff needle hay :
  contains needle hay = true <-> exists pre post, hay = pre +:+ needle +:+ post.
Proof.
  induction hay as [|c hay IH].
  - unfold contains. rewrite orb_false_r, startswith_iff. split.
    + intros [post H]. by exists EmptyString, post.
    + intros [pre [post H]]. destruct pre; [by exists post | discriminate H].
  - change (contains needle (String c hay))
      with (startswith needle (String c hay) || contains needle hay).
    rewrite orb_true_iff, IH, startswith_iff. split.
    + intros [[post H] | [pre [post H]]].
      * by exists EmptyString, post.
      * exists (String c pre), post. simpl. by rewrite H.
    + intros [pre [post H]]. destruct pre as [|c' pre].
      * left. by exists post.
      * right. simpl in H. injection H as _ ->. by exists pre, post.
Qed.

Lemma take_digits_split s ds tl :
  take_digits s = (ds, tl) ->
  s = String.string_of_list_ascii ds +:+ tl /\ Forall (fun c => is_digit c = true) ds /\
  (forall c tl', tl = String c tl' -> is_digit c = false).
Proof.
  revert ds tl. induction s as [|c s IH]; intros ds tl; simpl.
  - intros [= <- <-]. repeat split; [constructor | discriminate].
  - destruct (is_digit c) eqn:Hc.
    + destruct (take_digits s) as [ds0 tl0]. intros [= <- <-].
      destruct (IH ds0 tl0 eq_refl) as (-> & Hds & Htl).
      repeat split; [by constructor | done].
    + intros [= <- <-]. repeat split; [constructor |].
      intros c' tl' [= <- <-]. done.
Qed.

Lemma take_digits_run ds c post :
  Forall (fun c => is_digit c = true) ds -> is_digit c = false ->
  take_digits (String.string_of_list_ascii ds +:+ String c post) = (ds, String c post).
Proof.
  intros Hds Hc. induction Hds as [|d ds Hd _ IH]; simpl.
  - by rewrite Hc.
  - by rewrite Hd, IH.
Qed.

End PyStrFacts.

Example replace_suffix_token : PyStr.replace "_best" "" "BinaryCNN_Light_best" = "BinaryCNN_Light".
Proof. reflexivity. Qed.

Example replace_all_occurrences : PyStr.replace "_" "" "binary_cnn_deep" = "binarycnndeep".
Proof. reflexivity. Qed.

Example replace_without_overlap : PyStr.replace "aa" "b" "aaaaa" = "bba".
Proof. reflexivity. Qed.

Example stem_of_checkpoint : stem "BinaryCNN_Light_best.pth" = "BinaryCNN_Light_best".
Proof. reflexivity. Qed.

Example stem_last_suffix_only : stem "model.v2.pth" = "model.v2".
Proof. reflexivity. Qed.

Example stem_of_dot_file : stem ".pth" = ".pth".
Proof. reflexivity. Qed.

(** ** The layer index of a key *)

Lemma dot_is_no_digit : PyStr.is_digit "." = false.
Proof. reflexivity. Qed.

Lemma dot_digits_at_head c rest ds :
  dot_digits_at (String c rest) EmptyString ds ->
  c = "."%char /\ exists post, PyStr.take_digits rest = (ds, String "." post) /\ ds <> [].
Proof.
  intros (Hne & Hds & post & H). simpl in H. injection H as -> ->.
  split; [done |]. exists post. split; [| done].
  apply PyStrFacts.take_digits_run; [done | apply dot_is_no_digit].
Qed.

Lemma dot_digits_at_tail c rest c' pre ds :
  dot_digits_at (String c rest) (String c' pre) ds <-> c = c' /\ dot_digits_at rest pre ds.
Proof.
  unfold dot_digits_at. simpl. split.
  - intros (Hne & Hds & post & H). injection H as -> ->. eauto 6.
  - intros (-> & Hne & Hds & post & ->). eauto 6.
Qed.

Lemma search_dot_digits_skip c rest :
  (forall ds, ~ dot_digits_at (String c rest) EmptyString ds) ->
  leftmost_dot_digits rest (search_dot_digits rest) ->
  leftmost_dot_digits (String c rest) (search_dot_digits rest).
Proof.
  intros Hhead. destruct (search_dot_digits rest) as [ds|]; simpl.
  - intros (pre & Hat & Hleft). exists (String c pre). split.
    + by apply dot_digits_at_tail.
    + intros [|c' pre'] ds' Hat'; [by destruct (Hhead ds') |].
      apply dot_digits_at_tail in Hat' as [_ Hat']. simpl.
      apply le_n_S. eauto.
  - intros Hnone [|c' pre] ds Hat; [by destruct (Hhead ds) |].
    apply dot_digits_at_tail in Hat as [_ Hat]. by destruct (Hnone pre ds).
Qed.

Lemma search_dot_digits_leftmost key : leftmost_dot_digits key (search_dot_digits key).
Proof.
  induction key as [|c rest IH]; simpl.
  - intros pre ds (_ & _ & post & H). destruct pre; discriminate H.
  - destruct (Ascii.eqb c ".") eqn:Hc.
    + apply Ascii.eqb_eq in Hc as ->.
      destruct (PyStr.take_digits rest) as [ds tl] eqn:Htake.
      destruct ds as [|d ds].
      { apply search_dot_digits_skip; [| done].
        intros ds' Hat. apply dot_digits_at_head in Hat as (_ & post & Heq & Hne).
        congruence. }
      destruct tl as [|c' tl].
      { apply search_dot_digits_skip; [| done].
        intros ds' Hat. apply dot_digits_at_head in Hat as (_ & post & Heq & Hne).
        congruence. }
      destruct (Ascii.eqb c' ".") eqn:Hc'.
      * apply Ascii.eqb_eq in Hc' as ->. exists EmptyString. split.
        -- apply PyStrFacts.take_digits_split in Htake as (-> & Hds & _).
           split; [done |]. split; [done |]. by exists tl.
        -- intros pre' ds' _. simpl. lia.
      * apply search_dot_digits_skip; [| done].
        intros ds' Hat. apply dot_digits_at_head in Hat as (_ & post & Heq & Hne).
        rewrite Heq in Htake. injection Htake as _ <-.
        by rewrite Ascii.eqb_refl in Hc'.
    + apply search_dot_digits_skip; [| done].
      intros ds Hat. apply dot_digits_at_head in Hat as (-> & _).
      by rewrite Ascii.eqb_refl in Hc.
Qed.

Example layer_index_of_head : _extract_layer_index "classifier.4.weight" = 4.
Proof. reflexivity. Qed.

Example layer_index_leftmost : _extract_layer_index "layer4.0.fc.12.weight" = 0.
Proof. reflexivity. Qed.

Example layer_index_needs_dots : _extract_layer_index "fc2.weight" = 0.
Proof. reflexivity. Qed.

Example layer_index_skips_broken_run : _extract_layer_index "blocks.12x.3.weight" = 3.
Proof. reflexivity. Qed.

(** ** Candidate collection *)

Lemma collect_candidates_acc (sd : list (string * Tensor)) acc :
  collect_candidates (tensor_items sd) acc = inr (acc ++ omap candidate_of sd).
Proof.
  revert acc. induction sd as [|[key t] sd IH]; intros acc.
  - simpl. by rewrite app_nil_r.
  - change (omap candidate_of ((key, t) :: sd)) with
      (match candidate_of (key, t) with
       | Some c => c :: omap candidate_of sd
       | None => omap candidate_of sd
       end).
    unfold candidate_of at 1.
    cbn [tensor_items map collect_candidates shape_of fst snd].
    fold (tensor_items sd).
    destruct (PyStr.contains "weight" key); cbn [andb]; [| apply IH].
    destruct (shape t) as [|d0 [|d1 [|d2 sh]]];
      destruct (is_classifier_key key); try apply IH.
    rewrite IH. f_equal. by rewrite <- (assoc_L (++)).
Qed.

Lemma candidate_of_Some kv c :
  candidate_of kv = Some c <->
  exists d0 d1, PyStr.contains "weight" (fst kv) = true /\ is_classifier_key (fst kv) = true /\
    shape (snd kv) = [d0; d1] /\ c = mkCandidate (fst kv) d0 d1 (_extract_layer_index (fst kv)).
Proof.
  unfold candidate_of. split.
  - destruct (PyStr.contains "weight" (fst kv)), (is_classifier_key (fst kv)); simpl; try done.
    destruct (shape (snd kv)) as [|d0 [|d1 [|d2 sh]]]; try done.
    intros [= <-]. by exists d0, d1.
  - intros (d0 & d1 & -> & -> & -> & ->). done.
Qed.

(** C4 (as amended): on a parameter map of tensors the collection never
    raises and yields, in encounter order, exactly the entries whose key
    contains "weight" and, in lower case, one of "classifier", "fc", "head",
    and whose shape has two dimensions; the layer index of a candidate is
    the integer of the leftmost run of digits enclosed in dots in its key
    (the match of [\.(\d+)\.]), and 0 when the key has none. *)
Theorem collect_candidates_exact (sd : list (string * Tensor)) :
  collect_candidates (tensor_items sd) [] = inr (omap candidate_of sd) /\
  (forall c, In c (omap candidate_of sd) <->
     exists key t d0 d1, In (key, t) sd /\
       PyStr.contains "weight" key = true /\ is_classifier_key key = true /\
       shape t = [d0; d1] /\ c = mkCandidate key d0 d1 (_extract_layer_index key)) /\
  (forall key, exists found, leftmost_dot_digits key found /\
     _extract_layer_index key = from_option PyStr.int_of_digits 0 found).
Proof.
  split; [apply collect_candidates_acc | split].
  - intros c. rewrite <- list_elem_of_In, list_elem_of_omap. split.
    + intros ([key t] & Hin & Hc). apply candidate_of_Some in Hc as (d0 & d1 & ? & ? & ? & ?).
      exists key, t, d0, d1. by rewrite <- list_elem_of_In.
    + intros (key & t & d0 & d1 & Hin & ? & ? & ? & ?). exists (key, t).
      split; [by apply list_elem_of_In |]. apply candidate_of_Some. by exists d0, d1.
  - intros key. exists (search_dot_digits key).
    split; [apply search_dot_digits_leftmost |].
    unfold _extract_layer_index. by destruct (search_dot_digits key).
Qed.

(** C4 as worded fails: a two-dimensional entry under "head.proj" is no
    candidate (its key lacks "weight"), and "fc2.weight" gets index 0, not
    the first integer token 2. *)
Lemma collect_candidates_not_as_worded :
  let sd := [("head.proj", mkTensor [5; 128] 0); ("fc2.weight", mkTensor [5; 128] 1)] in
  collect_candidates (tensor_items sd) [] = inr [mkCandidate "fc2.weight" 5 128 0] /\
  spec_candidates sd =
    [mkCandidate "head.proj" 5 128 0; mkCandidate "fc2.weight" 5 128 2] /\
  ~ (forall cands, collect_candidates (tensor_items sd) [] = inr cands ->
       forall c, In c cands <-> In c (spec_candidates sd)).
Proof.
  assert (Hcode : collect_candidates
            (tensor_items [("head.proj", mkTensor [5; 128] 0); ("fc2.weight", mkTensor [5; 128] 1)]) []
          = inr [mkCandidate "fc2.weight" 5 128 0]) by (vm_compute; reflexivity).
  assert (Hspec : spec_candidates
            [("head.proj", mkTensor [5; 128] 0); ("fc2.weight", mkTensor [5; 128] 1)]
          = [mkCandidate "head.proj" 5 128 0; mkCandidate "fc2.weight" 5 128 2])
    by (vm_compute; reflexivity).
  cbv zeta. split; [exact Hcode | split; [exact Hspec |]].
  intros H. specialize (H _ Hcode (mkCandidate "head.proj" 5 128 0)).
  rewrite Hspec in H. destruct H as [_ H].
  destruct (H (or_introl eq_refl)) as [Heq | []]. discriminate Heq.
Qed.

(** ** The stable descending sort *)

Lemma insert_desc_perm c l : Permutation (insert_desc c l) (c :: l).
Proof.
  induction l as [|d l IH]; simpl; [done |].
  destruct (index d <=? index c); [done |].
  rewrite IH. apply perm_swap.
Qed.

Lemma sort_desc_perm l : Permutation (sort_desc l) l.
Proof.
  induction l as [|c l IH]; simpl; [done |].
  rewrite insert_desc_perm. by constructor.
Qed.

Lemma insert_desc_sorted c l : sorted_desc l -> sorted_desc (insert_desc c l).
Proof.
  unfold sorted_desc. induction 1 as [|d l Hl IH Hd]; simpl.
  - by repeat constructor.
  - destruct (N.leb_spec (index d) (index c)) as [Hle | Hgt].
    + constructor; [by constructor |]. constructor; [done |].
      eapply Forall_impl; [exact Hd |]. simpl. intros; lia.
    + constructor; [done |].
      rewrite insert_desc_perm. constructor; [lia | done].
Qed.

Lemma sort_desc_sorted l : sorted_desc (sort_desc l).
Proof.
  induction l as [|c l IH]; simpl; [constructor | by apply insert_desc_sorted].
Qed.

(** Stability: candidates of one index keep their relative order. *)
Lemma insert_desc_stable i c l :
  sorted_desc l ->
  List.filter (fun d => index d =? i) (insert_desc c l) =
  List.filter (fun d => index d =? i) (c :: l).
Proof.
  unfold sorted_desc. induction 1 as [|d l Hl IH Hd]; [done |].
  simpl insert_desc. destruct (N.leb_spec (index d) (index c)) as [Hle | Hgt]; [done |].
  simpl. simpl in IH. rewrite IH.
  destruct (N.eqb_spec (index d) i), (N.eqb_spec (index c) i); try done. lia.
Qed.

Lemma sort_desc_stable i l :
  List.filter (fun d => index d =? i) (sort_desc l) = List.filter (fun d => index d =? i) l.
Proof.
  induction l as [|c l IH]; [done |]. simpl sort_desc.
  rewrite insert_desc_stable by apply sort_desc_sorted. simpl. by rewrite IH.
Qed.

Lemma insert_desc_front c l :
  Forall (fun d => index d <= index c) l -> insert_desc c l = c :: l.
Proof.
  destruct 1 as [|d l Hd _]; simpl; [done |].
  by apply N.leb_le in Hd as ->.
Qed.

Lemma filter_insert_desc p c l :
  sorted_desc l ->
  List.filter p (insert_desc c l) =
  if p c then insert_desc c (List.filter p l) else List.filter p l.
Proof.
  unfold sorted_desc. induction 1 as [|d l Hl IH Hd]; simpl.
  - by destruct (p c).
  - destruct (N.leb_spec (index d) (index c)) as [Hle | Hgt].
    + simpl. destruct (p c); [| done].
      symmetry. apply insert_desc_front.
      assert (Hall : Forall (fun e => index e <= index c) (d :: l)).
      { constructor; [done |]. eapply Forall_impl; [exact Hd |]. simpl. intros; lia. }
      apply List.Forall_forall. intros e He.
      change (In e (List.filter p (d :: l))) in He. apply filter_In in He as [He _].
      revert e He. by apply List.Forall_forall.
    + simpl. rewrite IH. destruct (p c), (p d); try done.
      simpl. by apply N.leb_gt in Hgt as ->.
Qed.

Lemma filter_sort_desc p l : List.filter p (sort_desc l) = sort_desc (List.filter p l).
Proof.
  induction l as [|c l IH]; [done |]. simpl.
  rewrite filter_insert_desc by apply sort_desc_sorted.
  rewrite IH. by destruct (p c).
Qed.

Lemma find_hd_filter {A} (p : A -> bool) l : List.find p l = hd_error (List.filter p l).
Proof. induction l as [|x l IH]; simpl; [done |]. by destruct (p x). Qed.

Lemma first_of_highest_index_bound c l :
  first_of_highest_index c l -> Forall (fun d => index d <= index c) l.
Proof.
  intros (pre & post & -> & Hpre & Hpost). apply Forall_app. split.
  - eapply Forall_impl; [exact Hpre |]. simpl. intros; lia.
  - constructor; [lia | done].
Qed.

Lemma sort_desc_nil l : sort_desc l = [] -> l = [].
Proof.
  destruct l as [|c l]; [done |]. simpl.
  destruct (sort_desc l) as [|d tl]; simpl; [done |].
  by destruct (index d <=? index c).
Qed.

(** The head of the sorted list is the first candidate of highest index. *)
Lemma sort_desc_head l c :
  hd_error (sort_desc l) = Some c -> first_of_highest_index c l.
Proof.
  revert c. induction l as [|c0 l IH]; intros c; simpl; [done |].
  destruct (sort_desc l) as [|y tl] eqn:Hsort.
  - apply sort_desc_nil in Hsort as ->.
    simpl. intros [= <-]. exists [], []. by repeat split.
  - specialize (IH y eq_refl). simpl.
    destruct (N.leb_spec (index y) (index c0)) as [Hle | Hgt]; simpl; intros [= <-].
    + exists [], l. repeat split; [constructor |].
      eapply Forall_impl; [by apply first_of_highest_index_bound |]. simpl. intros; lia.
    + destruct IH as (pre & post & -> & Hpre & Hpost).
      exists (c0 :: pre), post. repeat split; [by constructor | done].
Qed.

(** ** Class-count inference *)

(** C1: with candidates, the inferred count is the output width of the
    first candidate of highest index among those of width 2..100; when no
    width is in that range, of the first candidate of highest index among
    all; without candidates the result is [None]. *)
Theorem select_num_classes_highest (cands : list Candidate) (Hne : cands <> []) :
  select_num_classes [] = None /\
  (List.filter reasonable cands <> [] ->
     exists c, first_of_highest_index c (List.filter reasonable cands) /\
       select_num_classes cands = Some (output_dim c)) /\
  (List.filter reasonable cands = [] ->
     exists c, first_of_highest_index c cands /\
       select_num_classes cands = Some (output_dim c)).
Proof.
  split; [done |].
  assert (Hsel : select_num_classes cands =
                 match hd_error (sort_desc (List.filter reasonable cands)) with
                 | Some layer => Some (output_dim layer)
                 | None => option_map output_dim (hd_error (sort_desc cands))
                 end).
  { unfold select_num_classes. destruct cands as [|c0 cands']; [done |].
    rewrite find_hd_filter, filter_sort_desc.
    destruct (hd_error (sort_desc (List.filter reasonable (c0 :: cands')))); [done |].
    by destruct (sort_desc (c0 :: cands')). }
  split; intros Hf.
  - destruct (sort_desc (List.filter reasonable cands)) as [|c tl] eqn:Hs.
    { by apply sort_desc_nil in Hs. }
    exists c. split; [apply sort_desc_head; by rewrite Hs |].
    by rewrite Hsel.
  - rewrite Hf in Hsel. simpl in Hsel.
    destruct (sort_desc cands) as [|c tl] eqn:Hs.
    { by apply sort_desc_nil in Hs. }
    exists c. split; [apply sort_desc_head; by rewrite Hs | done].
Qed.

(** The heads of the specification's preference scenario: widths 5 and 512
    at index 4 and width 512 at index 7. *)
Lemma select_num_classes_highest_witness :
  let cands := [mkCandidate "classifier.4.weight" 5 128 4;
                mkCandidate "fc.4.weight" 512 128 4;
                mkCandidate "classifier.7.weight" 512 512 7] in
  cands <> [] /\
  (List.filter reasonable cands <> [] ->
     exists c, first_of_highest_index c (List.filter reasonable cands) /\
       select_num_classes cands = Some (output_dim c)).
Proof.
  cbv zeta. split; [done |].
  apply (select_num_classes_highest
           [mkCandidate "classifier.4.weight" 5 128 4;
            mkCandidate "fc.4.weight" 512 128 4;
            mkCandidate "classifier.7.weight" 512 512 7]).
  done.
Defined.

Example select_num_classes_prefers_small_width :
  select_num_classes [mkCandidate "classifier.4.weight" 5 128 4;
                      mkCandidate "fc.4.weight" 512 128 4;
                      mkCandidate "classifier.7.weight" 512 512 7] = Some 5.
Proof. reflexivity. Qed.

Example select_num_classes_fallback :
  select_num_classes [mkCandidate "fc.1.weight" 512 128 1;
                      mkCandidate "fc.3.weight" 256 512 3;
                      mkCandidate "head.3.weight" 128 256 3] = Some 256.
Proof. reflexivity. Qed.

(** On a map of tensors the detection never raises. *)
Lemma detect_num_classes_tensors (sd : list (string * Tensor)) :
  detect_num_classes_from_checkpoint (as_dict sd) =
  inr (select_num_classes (omap candidate_of sd)).
Proof.
  unfold detect_num_classes_from_checkpoint, as_dict. simpl.
  by rewrite collect_candidates_acc.
Qed.

(** ** Dict lookups *)

Lemma dict_get_tensor_items (sd : list (string * Tensor)) key :
  dict_get (tensor_items sd) key = PyTensor <$> dict_get sd key.
Proof.
  induction sd as [|[k t] sd IH]; simpl; [done |].
  by destruct (String.eqb k key).
Qed.

Lemma dict_get_In {A} (items : list (string * A)) key v :
  dict_get items key = Some v -> In (key, v) items.
Proof.
  induction items as [|[k w] items IH]; simpl; [done |].
  destruct (String.eqb_spec k key) as [-> | Hne].
  - intros [= ->]. by left.
  - intros H. right. by apply IH.
Qed.

Lemma dict_get_None {A} (items : list (string * A)) key :
  dict_get items key = None <-> ~ In key (map fst items).
Proof.
  induction items as [|[k w] items IH]; simpl; [tauto |].
  destruct (String.eqb_spec k key) as [-> | Hne]; [split; [done | tauto] |].
  rewrite IH. tauto.
Qed.

Lemma dict_get_NoDup {A} (items : list (string * A)) key v :
  NoDup (map fst items) -> In (key, v) items -> dict_get items key = Some v.
Proof.
  induction items as [|[k w] items IH]; simpl; [done |].
  intros Hnd [Heq | Hin]; apply NoDup_cons in Hnd as [Hk Hnd].
  - injection Heq as -> ->. by rewrite String.eqb_refl.
  - destruct (String.eqb_spec k key) as [-> | Hne]; [| by apply IH].
    destruct Hk. apply list_elem_of_In. change key with (fst (key, v)). by apply in_map.
Qed.

Lemma dict_get_app_first {A} (before after : list (string * A)) key v :
  ~ In key (map fst before) -> dict_get (before ++ (key, v) :: after) key = Some v.
Proof.
  induction before as [|[k w] before IH]; simpl.
  - by rewrite String.eqb_refl.
  - intros Hnin. destruct (String.eqb_spec k key) as [-> | Hne]; [tauto |].
    apply IH. tauto.
Qed.

(** ** Checkpoint normalisation *)

Lemma find_container_key_first (before after : list string) key :
  Forall (fun k => is_container_key k = false) before -> is_container_key key = true ->
  find_container_key (before ++ key :: after) = Some key.
Proof.
  induction 1 as [|k before Hk _ IH]; simpl; intros Hkey.
  - by rewrite Hkey.
  - rewrite Hk. by apply IH.
Qed.

Lemma find_container_key_none (keys : list string) :
  Forall (fun k => is_container_key k = false) keys -> find_container_key keys = None.
Proof. induction 1 as [|k keys Hk _ IH]; simpl; [done | by rewrite Hk]. Qed.

(** C3 (as amended): the normalisation is a total function of the
    deserialised object.  An object that is no dict is returned as it is.
    For a dict, the value under the first present key of the list
    "model_state_dict", "state_dict", "model" is returned; when none of the
    three is present, the value under the first key that contains
    "state_dict" or "model" in lower case is returned unless that value is
    [None]; when there is no such key, or its value is [None], the dict
    itself is returned. *)
Theorem normalize_checkpoint_cases :
  (forall checkpoint, (forall items, checkpoint <> PyDict items) ->
     normalize_checkpoint checkpoint = checkpoint) /\
  (forall items pre key post v,
     wrapper_keys = pre ++ key :: post ->
     Forall (fun k => dict_get items k = None) pre ->
     dict_get items key = Some v ->
     normalize_checkpoint (PyDict items) = v) /\
  (forall items before key v after,
     Forall (fun k => dict_get items k = None) wrapper_keys ->
     items = before ++ (key, v) :: after ->
     Forall (fun kv => is_container_key (fst kv) = false) before ->
     is_container_key key = true ->
     normalize_checkpoint (PyDict items) =
       match v with PyNone => PyDict items | _ => v end) /\
  (forall items,
     Forall (fun k => dict_get items k = None) wrapper_keys ->
     Forall (fun kv => is_container_key (fst kv) = false) items ->
     normalize_checkpoint (PyDict items) = PyDict items).
Proof.
  repeat split.
  - intros [] H; try done. by destruct (H items).
  - intros items pre key post v Hkeys Hpre Hkey. unfold wrapper_keys in Hkeys. simpl.
    destruct pre as [|k1 [|k2 [|k3 pre]]]; simplify_eq/=.
    + by rewrite Hkey.
    + apply Forall_cons in Hpre as [-> _]. by rewrite Hkey.
    + apply Forall_cons in Hpre as [-> Hpre]. apply Forall_cons in Hpre as [-> _].
      by rewrite Hkey.
    + by destruct pre.
  - intros items before key v after Hnone -> Hbefore Hkey.
    apply Forall_cons in Hnone as [H1 Hnone]. apply Forall_cons in Hnone as [H2 Hnone].
    apply Forall_cons in Hnone as [H3 _]. simpl. rewrite H1, H2, H3.
    rewrite map_app. simpl.
    rewrite find_container_key_first; [| by apply Forall_fmap | done].
    rewrite dict_get_app_first; [by destruct v |].
    intros Hin. apply in_map_iff in Hin as ([k w] & <- & Hin).
    apply List.Forall_forall with (x := (k, w)) in Hbefore; [| done].
    simpl in Hbefore, Hkey. congruence.
  - intros items Hnone Hitems.
    apply Forall_cons in Hnone as [H1 Hnone]. apply Forall_cons in Hnone as [H2 Hnone].
    apply Forall_cons in Hnone as [H3 _]. simpl. rewrite H1, H2, H3.
    rewrite find_container_key_none; [done | by apply Forall_fmap].
Qed.

(** The four cases at work: a tensor, a wrapped map, a fuzzy key, a fuzzy
    key holding [None]. *)
Lemma normalize_checkpoint_cases_witness :
  normalize_checkpoint (PyTensor (mkTensor [2; 3] 0)) = PyTensor (mkTensor [2; 3] 0) /\
  normalize_checkpoint
    (PyDict [("epoch", PyOpaque 3); ("state_dict", as_dict [("fc.weight", mkTensor [5; 128] 0)])])
    = as_dict [("fc.weight", mkTensor [5; 128] 0)] /\
  normalize_checkpoint
    (PyDict [("epoch", PyOpaque 3); ("Net_Model", as_dict [("fc.weight", mkTensor [5; 128] 0)])])
    = as_dict [("fc.weight", mkTensor [5; 128] 0)] /\
  normalize_checkpoint (PyDict [("epoch", PyOpaque 3); ("ema_model", PyNone)])
    = PyDict [("epoch", PyOpaque 3); ("ema_model", PyNone)].
Proof.
  destruct normalize_checkpoint_cases as (Hother & Hwrap & Hfuzzy & _).
  split; [by apply Hother |].
  split; [by apply (Hwrap _ ["model_state_dict"] "state_dict" ["model"]); repeat constructor |].
  split.
  - refine (Hfuzzy [("epoch", PyOpaque 3);
                    ("Net_Model", as_dict [("fc.weight", mkTensor [5; 128] 0)])]
             [("epoch", PyOpaque 3)] "Net_Model"
             (as_dict [("fc.weight", mkTensor [5; 128] 0)]) [] _ eq_refl _ eq_refl);
      by repeat constructor.
  - refine (Hfuzzy [("epoch", PyOpaque 3); ("ema_model", PyNone)]
             [("epoch", PyOpaque 3)] "ema_model" PyNone [] _ eq_refl _ eq_refl);
      by repeat constructor.
Defined.

(** C3 as worded fails on a dict whose first container-like key holds
    [None]: the dict itself comes back, not that value. *)
Lemma normalize_checkpoint_not_as_worded :
  let checkpoint :=
    PyDict [("epoch", PyOpaque 3); ("ema_model", PyNone);
            ("net", as_dict [("fc.weight", mkTensor [5; 128] 0)])] in
  spec_normalize checkpoint = PyNone /\
  normalize_checkpoint checkpoint = checkpoint /\
  normalize_checkpoint checkpoint <> spec_normalize checkpoint.
Proof. cbv zeta. by repeat split. Qed.

(** ** Variant selection *)

Lemma has_simple_head_tensors (sd : list (string * Tensor)) n :
  has_simple_head (tensor_items sd) n =
  inr (existsb (fun kv => PyStr.contains "classifier.4.weight" (fst kv) &&
                          bool_decide (shape (snd kv) = [n; 128])) sd).
Proof.
  induction sd as [|[key t] sd IH]; [done |].
  cbn [tensor_items map has_simple_head shape_of existsb fst snd].
  fold (tensor_items sd). rewrite IH.
  destruct (PyStr.contains "classifier.4.weight" key); [| done]. cbn [andb].
  destruct (shape t) as [|d0 [|d1 [|d2 sh]]]; try by rewrite bool_decide_eq_false_2.
  destruct (N.eqb_spec d0 n) as [-> | H0]; destruct (N.eqb_spec d1 128) as [-> | H1];
    cbn [andb]; first [by rewrite bool_decide_eq_true_2
                      | rewrite bool_decide_eq_false_2; [done | congruence]].
Qed.

(** C5 (as amended): only [BinaryCNN_Deep] is looked at; for it, on a map
    of tensors, the variant is "simple" exactly when some entry whose key
    contains "classifier.4.weight" has the shape [num_classes; 128], with
    [num_classes] the class count settled before (detected or default), and
    "default" otherwise; that shape is the one of [classifier.4.weight] in
    the simple head of [BinaryCNN_Deep].  Every other architecture is built
    with "default". *)
Theorem select_variant_decides :
  (forall model_name state_dict n,
     model_name <> "BinaryCNN_Deep" -> select_variant model_name state_dict n = inr "default") /\
  (forall (sd : list (string * Tensor)) n,
     (select_variant "BinaryCNN_Deep" (Some (as_dict sd)) n = inr "simple" <->
        exists key t, In (key, t) sd /\
          PyStr.contains "classifier.4.weight" key = true /\ shape t = [n; 128]) /\
     (select_variant "BinaryCNN_Deep" (Some (as_dict sd)) n = inr "default" <->
        forall key t, In (key, t) sd ->
          PyStr.contains "classifier.4.weight" key = true -> shape t <> [n; 128])) /\
  (forall n, dict_get (BinaryCNN_Deep_classifier n "simple") "classifier.4.weight"
             = Some [n; 128]) /\
  (forall env fresh_id model_name n variant model,
     model_name <> "BinaryCNN_Deep" ->
     create_model_architecture env fresh_id model_name n variant = inr model ->
     arch_variant model = "default").
Proof.
  split; [| split; [| split]].
  - intros model_name state_dict n H.
    unfold select_variant. by apply String.eqb_neq in H as ->.
  - intros sd n.
    assert (Hsel : select_variant "BinaryCNN_Deep" (Some (as_dict sd)) n =
                   inr (if existsb (fun kv => PyStr.contains "classifier.4.weight" (fst kv) &&
                                      bool_decide (shape (snd kv) = [n; 128])) sd
                        then "simple" else "default")).
    { unfold select_variant, as_dict. simpl. rewrite has_simple_head_tensors.
      by destruct (existsb _ sd). }
    rewrite Hsel. clear Hsel.
    assert (Hex : existsb (fun kv => PyStr.contains "classifier.4.weight" (fst kv) &&
                             bool_decide (shape (snd kv) = [n; 128])) sd = true <->
                  exists key t, In (key, t) sd /\
                    PyStr.contains "classifier.4.weight" key = true /\ shape t = [n; 128]).
    { rewrite existsb_exists. split.
      - intros ([key t] & Hin & Hkv). simpl in Hkv.
        apply andb_true_iff in Hkv as [Hkey Hshape]. apply bool_decide_eq_true in Hshape.
        by exists key, t.
      - intros (key & t & Hin & Hkey & Hshape). exists (key, t). split; [done |].
        simpl. by rewrite Hkey, bool_decide_eq_true_2. }
    destruct (existsb _ sd).
    + destruct Hex as [Hex _]. specialize (Hex eq_refl). split; split; try done.
      intros H. destruct Hex as (key & t & Hin & Hkey & Hshape). by destruct (H key t).
    + destruct Hex as [_ Hex]. split; split; try done.
      * intros H. by specialize (Hex H).
      * intros _ key t Hin Hkey Hshape.
        assert (false = true); [apply Hex; by exists key, t | done].
  - intros n. reflexivity.
  - intros env fresh_id model_name n variant model Hname.
    unfold create_model_architecture.
    destruct (existsb _ known_architectures); [| done].
    apply String.eqb_neq in Hname as ->. by intros [= <-].
Qed.

(** A simple-head checkpoint of two classes, and [CustomCNN1]. *)
Lemma select_variant_decides_witness :
  select_variant "CustomCNN1" None 5 = inr "default" /\
  select_variant "BinaryCNN_Deep"
    (Some (as_dict [("classifier.1.weight", mkTensor [128; 512] 0);
                    ("classifier.4.weight", mkTensor [2; 128] 1)])) 2 = inr "simple" /\
  forall model,
    create_model_architecture example_env 0 "CustomCNN1" 5 "simple" = inr model ->
    arch_variant model = "default".
Proof.
  destruct select_variant_decides as (Hother & Hdeep & _ & Hbuilt).
  split; [by apply Hother |]. split.
  - apply (Hdeep [("classifier.1.weight", mkTensor [128; 512] 0);
                  ("classifier.4.weight", mkTensor [2; 128] 1)] 2).
    exists "classifier.4.weight", (mkTensor [2; 128] 1).
    split; [right; by left | by split].
  - intros model. by apply Hbuilt.
Defined.

(** C5 as worded fails: with a 5-wide layer at position 4 under a 2-wide
    layer at position 7, two classes are detected and the first dimension 5
    keeps the variant at "default", where a check of the second dimension
    alone selects "simple". *)
Lemma select_variant_not_as_worded :
  let sd := [("classifier.4.weight", mkTensor [5; 128] 0);
             ("classifier.7.weight", mkTensor [2; 128] 1)] in
  detect_num_classes_from_checkpoint (as_dict sd) = inr (Some 2) /\
  select_variant "BinaryCNN_Deep" (Some (as_dict sd)) 2 = inr "default" /\
  spec_select_variant "BinaryCNN_Deep" sd = "simple" /\
  select_variant "BinaryCNN_Deep" (Some (as_dict sd)) 2
    <> inr (spec_select_variant "BinaryCNN_Deep" sd).
Proof. cbv zeta. by repeat split. Qed.

(** ** Weight binding *)

Lemma vector_for_scalar_spec current t :
  vector_for_scalar current t = true <-> shape current = [] /\ length (shape t) = 1%nat.
Proof.
  unfold vector_for_scalar. by rewrite andb_true_iff, !bool_decide_eq_true.
Qed.

Lemma vector_for_scalar_shape current t :
  vector_for_scalar current t = true -> shape t <> shape current.
Proof.
  intros [Hc Ht]%vector_for_scalar_spec. rewrite Hc. by destruct (shape t).
Qed.

Lemma same_shape_no_vector current t :
  shape t = shape current -> vector_for_scalar current t = false.
Proof.
  intros Heq. destruct (vector_for_scalar current t) eqn:Hv; [| done].
  by apply vector_for_scalar_shape in Hv.
Qed.

Lemma input_param_indexable current t :
  (shape current = [] -> shape t <> [0]) ->
  input_param current t =
  inr (if vector_for_scalar current t then first_element t else t).
Proof.
  intros Hidx. unfold input_param.
  destruct (vector_for_scalar current t) eqn:Hv; [| done].
  apply vector_for_scalar_spec in Hv as [Hc _].
  by rewrite bool_decide_eq_false_2 by auto.
Qed.

Lemma copy_param_tensors (sd : list (string * Tensor)) key current :
  (forall t, dict_get sd key = Some t -> shape current = [] -> shape t <> [0]) ->
  copy_param (tensor_items sd) key current = loaded_value sd key current.
Proof.
  intros Hidx. unfold copy_param, loaded_value. rewrite dict_get_tensor_items.
  destruct (dict_get sd key) as [t|]; simpl; [| done].
  rewrite input_param_indexable by eauto.
  destruct (vector_for_scalar current t) eqn:Hv.
  - rewrite (bool_decide_eq_false_2 (shape t = shape current))
      by (by apply vector_for_scalar_shape).
    apply vector_for_scalar_spec in Hv as [Hc _].
    by rewrite bool_decide_eq_true_2 by (by rewrite Hc).
  - done.
Qed.

Lemma loaded_value_bound_value sd key current :
  (forall t, dict_get sd key = Some t -> vector_for_scalar current t = false) ->
  loaded_value sd key current = bound_value sd key current.
Proof.
  intros Hv. unfold loaded_value, bound_value.
  destruct (dict_get sd key) as [t|]; [| done].
  by rewrite (Hv t eq_refl).
Qed.

Lemma shape_bound_value sd key current : shape (bound_value sd key current) = shape current.
Proof.
  unfold bound_value. destruct (dict_get sd key) as [t|]; [| done].
  by case_bool_decide.
Qed.

Lemma shape_loaded_value sd key current : shape (loaded_value sd key current) = shape current.
Proof.
  unfold loaded_value. destruct (dict_get sd key) as [t|]; [| done].
  case_bool_decide; [done |].
  destruct (vector_for_scalar current t) eqn:Hv; [| done].
  by apply vector_for_scalar_spec in Hv as [-> _].
Qed.

Lemma param_error_tensors (sd : list (string * Tensor)) key current :
  (forall t, dict_get sd key = Some t -> shape current = [] -> shape t <> [0]) ->
  param_error (tensor_items sd) key current =
  match dict_get sd key with
  | Some t =>
      if bool_decide (shape t = shape current) then None
      else if vector_for_scalar current t then None else Some SizeMismatch
  | None => None
  end.
Proof.
  intros Hidx. unfold param_error. rewrite dict_get_tensor_items.
  destruct (dict_get sd key) as [t|]; simpl; [| done].
  rewrite input_param_indexable by eauto.
  destruct (vector_for_scalar current t) eqn:Hv.
  - rewrite (bool_decide_eq_false_2 (shape t = shape current))
      by (by apply vector_for_scalar_shape).
    apply vector_for_scalar_spec in Hv as [Hc _].
    by rewrite bool_decide_eq_true_2 by (by rewrite Hc).
  - done.
Qed.

Lemma index_error_tensors (sd : list (string * Tensor)) key current :
  index_error (tensor_items sd) key current = true <->
  exists t, dict_get sd key = Some t /\ shape current = [] /\ shape t = [0].
Proof.
  unfold index_error, input_param. rewrite dict_get_tensor_items.
  destruct (dict_get sd key) as [t|]; simpl; [| by split; [| intros (? & ? & _)]].
  destruct (vector_for_scalar current t) eqn:Hv.
  - apply vector_for_scalar_spec in Hv as [Hc Hlen]. case_bool_decide as Ht.
    + split; [by exists t | done].
    + split; [done |]. by intros (t' & [= <-] & _ & ?).
  - split; [done |]. intros (t' & [= <-] & Hc & Ht).
    assert (vector_for_scalar current t = true); [| congruence].
    apply vector_for_scalar_spec. by rewrite Ht.
Qed.

Lemma no_index_error (params : gmap string Tensor) (sd : list (string * Tensor)) :
  indexable params sd ->
  existsb (fun kv => index_error (tensor_items sd) (fst kv) (snd kv)) (map_to_list params)
  = false.
Proof.
  intros Hidx. apply not_true_iff_false. intros Hex.
  apply existsb_exists in Hex as ([key current] & Hin & Herr).
  apply list_elem_of_In, elem_of_map_to_list in Hin.
  apply index_error_tensors in Herr as (t & Hget & Hc & Ht).
  by apply (Hidx key t current).
Qed.

Lemma imap_copy_param_tensors (sd : list (string * Tensor)) (params : gmap string Tensor) :
  indexable params sd ->
  map_imap (fun key cur => Some (copy_param (tensor_items sd) key cur)) params =
  map_imap (fun key cur => Some (loaded_value sd key cur)) params.
Proof.
  intros Hidx. apply map_eq. intros key. rewrite !map_lookup_imap.
  destruct (params !! key) as [cur|] eqn:Hp; simpl; [| done].
  rewrite copy_param_tensors; [done |]. intros t. by apply Hidx.
Qed.

Lemma param_errors_tensors (params : gmap string Tensor) (sd : list (string * Tensor)) e :
  indexable params sd ->
  e ∈ omap (fun kv => param_error (tensor_items sd) (fst kv) (snd kv)) (map_to_list params) <->
  e = SizeMismatch /\
  exists key t current,
    params !! key = Some current /\ dict_get sd key = Some t /\ size_mismatch current t.
Proof.
  intros Hidx. rewrite list_elem_of_omap. split.
  - intros ([key current] & Hin & Herr). apply elem_of_map_to_list in Hin.
    simpl in Herr. rewrite param_error_tensors in Herr by (intros t; by apply Hidx).
    destruct (dict_get sd key) as [t|] eqn:Hget; [| done].
    case_bool_decide as Hshape; [done |].
    destruct (vector_for_scalar current t) eqn:Hv; [done |]. injection Herr as <-.
    split; [done |]. by exists key, t, current.
  - intros (-> & key & t & current & Hp & Hget & Hshape & Hv).
    exists (key, current). split; [by apply elem_of_map_to_list |]. simpl.
    rewrite param_error_tensors by (intros t'; by apply Hidx).
    rewrite Hget, Hv. by rewrite bool_decide_eq_false_2.
Qed.

(** The first attempt raises "size mismatch" as soon as one key differs in
    shape otherwise than a vector does from a scalar; the other parameters
    are bound all the same. *)
Lemma load_state_dict_mismatch (params : gmap string Tensor) (sd : list (string * Tensor))
    key t current :
  indexable params sd ->
  params !! key = Some current -> dict_get sd key = Some t -> size_mismatch current t ->
  load_state_dict params (PyDict (tensor_items sd)) =
  (map_imap (fun key cur => Some (loaded_value sd key cur)) params, inl (RuntimeError true)).
Proof.
  intros Hidx Hp Hsd Hne. unfold load_state_dict.
  rewrite no_index_error, imap_copy_param_tensors by done.
  set (errors := omap _ (map_to_list params)).
  assert (Hin : SizeMismatch ∈ errors).
  { apply param_errors_tensors; [done |]. split; [done |]. by exists key, t, current. }
  assert (Hex : existsb is_size_mismatch errors = true).
  { apply existsb_exists. exists SizeMismatch. split; [by apply list_elem_of_In | done]. }
  clearbody errors. destruct errors as [|e errs]; [by apply not_elem_of_nil in Hin |].
  by rewrite Hex.
Qed.

(** Without such a key the call returns, with the keys the checkpoint
    lacks, the counters of the normalisation layers apart, and the keys the
    model lacks. *)
Lemma load_state_dict_loaded (params : gmap string Tensor) (sd : list (string * Tensor)) :
  indexable params sd ->
  (forall key t current,
     params !! key = Some current -> dict_get sd key = Some t -> ~ size_mismatch current t) ->
  exists missing_keys unexpected_keys,
    load_state_dict params (PyDict (tensor_items sd)) =
      (map_imap (fun key cur => Some (loaded_value sd key cur)) params,
       inr (missing_keys, unexpected_keys)) /\
    (forall key, In key missing_keys <->
       is_Some (params !! key) /\ dict_get sd key = None /\ is_batch_counter key = false) /\
    (forall key, In key unexpected_keys <-> In key (map fst sd) /\ params !! key = None).
Proof.
  intros Hidx Hagree. unfold load_state_dict.
  rewrite no_index_error, imap_copy_param_tensors by done.
  remember (omap (fun kv => param_error (tensor_items sd) (fst kv) (snd kv))
              (map_to_list params)) as errors eqn:He.
  assert (Hnil : errors = []).
  { destruct errors as [|e errs]; [done |].
    assert (Hin : e ∈ omap (fun kv => param_error (tensor_items sd) (fst kv) (snd kv))
                         (map_to_list params)).
    { rewrite <- He. by left. }
    apply param_errors_tensors in Hin as (_ & key & t & current & Hp & Hget & Hbad); [| done].
    by destruct (Hagree key t current Hp Hget). }
  rewrite Hnil. eexists _, _. split; [reflexivity |]. split.
  - intros key. rewrite filter_In, in_map_iff, andb_true_iff, bool_decide_eq_true.
    rewrite negb_true_iff, dict_get_tensor_items. split.
    + intros [([k cur] & <- & Hin) [Hnone Hcounter]]. simpl in *.
      apply list_elem_of_In, elem_of_map_to_list in Hin.
      split; [by exists cur |]. split; [| done]. by destruct (dict_get sd k).
    + intros ([cur Hcur] & Hnone & Hcounter). split; [| by rewrite Hnone].
      exists (key, cur). split; [done |]. by apply list_elem_of_In, elem_of_map_to_list.
  - intros key. rewrite filter_In, bool_decide_eq_true.
    unfold tensor_items. rewrite map_map. simpl. done.
Qed.

Lemma same_shape_indexable (params : gmap string Tensor) (sd : list (string * Tensor)) :
  (forall key t current,
     params !! key = Some current -> dict_get sd key = Some t -> shape t = shape current) ->
  indexable params sd.
Proof.
  intros Hagree key t current Hp Hget Hc Ht.
  specialize (Hagree key t current Hp Hget). rewrite Hc, Ht in Hagree. done.
Qed.

Lemma imap_loaded_value_same_shape (params : gmap string Tensor) (sd : list (string * Tensor)) :
  (forall key t current,
     params !! key = Some current -> dict_get sd key = Some t -> shape t = shape current) ->
  map_imap (fun key cur => Some (loaded_value sd key cur)) params =
  map_imap (fun key cur => Some (bound_value sd key cur)) params.
Proof.
  intros Hagree. apply map_eq. intros key. rewrite !map_lookup_imap.
  destruct (params !! key) as [cur|] eqn:Hp; simpl; [| done].
  rewrite loaded_value_bound_value; [done |].
  intros t Hget. apply same_shape_no_vector. eauto.
Qed.

(** Without a clash of shapes the first attempt returns. *)
Lemma load_state_dict_agree_keys (params : gmap string Tensor) (sd : list (string * Tensor)) :
  (forall key t current,
     params !! key = Some current -> dict_get sd key = Some t -> shape t = shape current) ->
  exists missing_keys unexpected_keys,
    load_state_dict params (PyDict (tensor_items sd)) =
      (map_imap (fun key cur => Some (bound_value sd key cur)) params,
       inr (missing_keys, unexpected_keys)) /\
    (forall key, In key missing_keys <->
       is_Some (params !! key) /\ dict_get sd key = None /\ is_batch_counter key = false) /\
    (forall key, In key unexpected_keys <-> In key (map fst sd) /\ params !! key = None).
Proof.
  intros Hagree. rewrite <- imap_loaded_value_same_shape by done.
  apply load_state_dict_loaded; [by apply same_shape_indexable |].
  intros key t current Hp Hget [Hne _]. eauto.
Qed.

Lemma load_state_dict_agree (params : gmap string Tensor) (sd : list (string * Tensor)) :
  (forall key t current,
     params !! key = Some current -> dict_get sd key = Some t -> shape t = shape current) ->
  exists missing_keys unexpected_keys,
    load_state_dict params (PyDict (tensor_items sd)) =
    (map_imap (fun key cur => Some (bound_value sd key cur)) params,
     inr (missing_keys, unexpected_keys)).
Proof.
  intros Hagree.
  destruct (load_state_dict_agree_keys params sd Hagree) as (missing & unexpected & Hload & _).
  eauto.
Qed.

(** On a checkpoint of tensors with no empty vector for a scalar the only
    error of [load_state_dict] is the size mismatch. *)
Lemma load_state_dict_tensors_cases (params : gmap string Tensor)
    (sd : list (string * Tensor)) :
  indexable params sd ->
  (exists missing_keys unexpected_keys,
     load_state_dict params (PyDict (tensor_items sd)) =
       (map_imap (fun key cur => Some (loaded_value sd key cur)) params,
        inr (missing_keys, unexpected_keys))) \/
  load_state_dict params (PyDict (tensor_items sd)) =
    (map_imap (fun key cur => Some (loaded_value sd key cur)) params, inl (RuntimeError true)).
Proof.
  intros Hidx. unfold load_state_dict.
  rewrite no_index_error, imap_copy_param_tensors by done.
  remember (omap (fun kv => param_error (tensor_items sd) (fst kv) (snd kv))
              (map_to_list params)) as errors eqn:He.
  destruct errors as [|e errs]; [left; eauto |]. right.
  assert (Hin : e ∈ omap (fun kv => param_error (tensor_items sd) (fst kv) (snd kv))
                       (map_to_list params)).
  { rewrite <- He. by left. }
  apply param_errors_tensors in Hin as [-> _]; done.
Qed.

(** An empty vector for a scalar stops the first attempt. *)
Lemma load_state_dict_index_error (params : gmap string Tensor)
    (sd : list (string * Tensor)) key t current :
  params !! key = Some current -> dict_get sd key = Some t ->
  shape current = [] -> shape t = [0] ->
  load_state_dict params (PyDict (tensor_items sd)) = (params, inl IndexError).
Proof.
  intros Hp Hget Hc Ht. unfold load_state_dict.
  assert (existsb (fun kv => index_error (tensor_items sd) (fst kv) (snd kv))
            (map_to_list params) = true) as ->; [| done].
  apply existsb_exists. exists (key, current).
  split; [by apply list_elem_of_In, elem_of_map_to_list |].
  apply index_error_tensors. by exists t.
Qed.

Lemma filter_compatible_tensors (params1 params : gmap string Tensor)
    (sd : list (string * Tensor)) compatible_state incompatible_keys :
  (forall key, shape <$> params1 !! key = shape <$> params !! key) ->
  filter_compatible params1 (tensor_items sd) compatible_state incompatible_keys =
  inr (compatible_state ++ tensor_items (List.filter (compatible params) sd),
       incompatible_keys ++ omap (incompatible_entry params) sd).
Proof.
  intros Hshape. revert compatible_state incompatible_keys.
  induction sd as [|[key t] sd IH]; intros cs ik.
  - simpl. by rewrite !app_nil_r.
  - change (omap (incompatible_entry params) ((key, t) :: sd)) with
      (match incompatible_entry params (key, t) with
       | Some e => e :: omap (incompatible_entry params) sd
       | None => omap (incompatible_entry params) sd
       end).
    cbn [tensor_items map filter_compatible shape_of List.filter fst snd].
    fold (tensor_items sd).
    set (rest_ok := List.filter (compatible params) sd) in *.
    set (rest_bad := omap (incompatible_entry params) sd) in *.
    unfold incompatible_entry, compatible. cbn [fst snd].
    specialize (Hshape key).
    destruct (params1 !! key) as [cur1|], (params !! key) as [cur|];
      cbn [fmap option_fmap option_map] in Hshape; try discriminate Hshape.
    + injection Hshape as ->. case_bool_decide.
      * rewrite IH. cbn [tensor_items map fst snd]. fold (tensor_items rest_ok).
        by rewrite <- !(assoc_L (++)).
      * rewrite IH. by rewrite <- !(assoc_L (++)).
    + rewrite IH. by rewrite <- !(assoc_L (++)).
Qed.

Lemma dict_get_filter_NoDup {A} (P : string * A -> bool) (items : list (string * A)) key :
  NoDup (map fst items) ->
  dict_get (List.filter P items) key =
  match dict_get items key with
  | Some v => if P (key, v) then Some v else None
  | None => None
  end.
Proof.
  induction items as [|[k w] items IH]; [done |].
  intros Hnd. apply NoDup_cons in Hnd as [Hk Hnd]. specialize (IH Hnd). simpl.
  destruct (String.eqb_spec k key) as [-> | Hne].
  - assert (Hnone : dict_get items key = None).
    { apply dict_get_None. intros Hin. by apply list_elem_of_In in Hin. }
    destruct (P (key, w)); simpl.
    + by rewrite String.eqb_refl.
    + by rewrite IH, Hnone.
  - destruct (P (k, w)); simpl; [| done].
    by apply String.eqb_neq in Hne as ->.
Qed.

(** Binding the entries of agreeing shape a second time changes nothing. *)
Lemma rebind_compatible_lookup (params : gmap string Tensor) (sd : list (string * Tensor)) key :
  NoDup (map fst sd) ->
  map_imap (fun key cur => Some (bound_value (List.filter (compatible params) sd) key cur))
    (map_imap (fun key cur => Some (loaded_value sd key cur)) params) !! key =
  loaded_value sd key <$> params !! key.
Proof.
  intros Hdict. rewrite !map_lookup_imap.
  destruct (params !! key) as [cur|] eqn:Hp; simpl; [| done]. f_equal.
  unfold bound_value. rewrite dict_get_filter_NoDup by done.
  unfold loaded_value, compatible. simpl. rewrite Hp.
  destruct (dict_get sd key) as [t|]; [| done].
  destruct (bool_decide (shape t = shape cur)) eqn:Hts.
  - apply bool_decide_eq_true in Hts.
    rewrite (bool_decide_eq_true_2 (shape cur = shape t)) by done.
    by rewrite bool_decide_eq_true_2.
  - apply bool_decide_eq_false in Hts.
    by rewrite (bool_decide_eq_false_2 (shape cur = shape t)) by congruence.
Qed.

(** The second attempt, on [compatible_state], returns. *)
Lemma load_state_dict_compatible (params1 params : gmap string Tensor)
    (sd : list (string * Tensor)) :
  NoDup (map fst sd) ->
  (forall key, shape <$> params1 !! key = shape <$> params !! key) ->
  exists missing_keys unexpected_keys,
    load_state_dict params1 (PyDict (tensor_items (List.filter (compatible params) sd))) =
    (map_imap (fun key cur =>
                 Some (bound_value (List.filter (compatible params) sd) key cur)) params1,
     inr (missing_keys, unexpected_keys)).
Proof.
  intros Hdict Hshape1. apply load_state_dict_agree.
  intros key t cur1 Hp1 Hget. rewrite dict_get_filter_NoDup in Hget by done.
  destruct (dict_get sd key) as [t'|]; [| done].
  destruct (compatible params (key, t')) eqn:Hc; [| done]. injection Hget as ->.
  unfold compatible in Hc. simpl in Hc. specialize (Hshape1 key). rewrite Hp1 in Hshape1.
  destruct (params !! key) as [cur|]; [| done].
  apply bool_decide_eq_true in Hc. simpl in Hshape1. congruence.
Qed.

Lemma shape_imap_loaded_value (params : gmap string Tensor) (sd : list (string * Tensor)) key :
  shape <$> map_imap (fun key cur => Some (loaded_value sd key cur)) params !! key =
  shape <$> params !! key.
Proof.
  rewrite map_lookup_imap. destruct (params !! key); simpl; [| done].
  by rewrite shape_loaded_value.
Qed.

(** C2: when some key of the checkpoint meets a parameter of another shape,
    otherwise than a vector meets a scalar, and no empty vector meets a
    scalar, the binding returns with a partial load.  [compatible_state]
    holds the entries whose key the model has with the identical shape;
    [incompatible_keys] records every key of differing shape with the
    checkpoint's shape and the model's shape, and every key the model lacks
    as not in the model, without shapes.  A parameter ends up with the
    checkpoint's tensor when the shapes are identical, with the first
    element of the checkpoint's vector when it is a scalar, although that
    key is recorded as incompatible, and with the value the constructor
    gave it otherwise. *)
Theorem bind_weights_partial (params : gmap string Tensor) (sd : list (string * Tensor))
    (Hdict : NoDup (map fst sd))
    (Hindex : indexable params sd)
    (Hmismatch : exists key t current,
       In (key, t) sd /\ params !! key = Some current /\ size_mismatch current t) :
  exists params',
    bind_weights params (Some (as_dict sd)) =
      (params', inr (PartialLoad (tensor_items (List.filter (compatible params) sd))
                                 (omap (incompatible_entry params) sd))) /\
    (forall key, params' !! key = loaded_value sd key <$> params !! key) /\
    (forall key t current,
       In (key, t) sd -> params !! key = Some current -> shape t = shape current ->
       In (key, PyTensor t) (tensor_items (List.filter (compatible params) sd)) /\
       params' !! key = Some t) /\
    (forall key t current,
       In (key, t) sd -> params !! key = Some current -> shape t <> shape current ->
       In (ShapeMismatch key (shape t) (shape current)) (omap (incompatible_entry params) sd) /\
       ~ In (key, PyTensor t) (tensor_items (List.filter (compatible params) sd)) /\
       params' !! key =
         Some (if vector_for_scalar current t then first_element t else current)) /\
    (forall key t,
       In (key, t) sd -> params !! key = None ->
       In (NotInModel key) (omap (incompatible_entry params) sd)) /\
    (forall key current,
       params !! key = Some current -> dict_get sd key = None -> params' !! key = Some current).
Proof.
  destruct Hmismatch as (key0 & t0 & cur0 & Hin0 & Hp0 & Hne0).
  set (params1 := map_imap (fun key cur => Some (loaded_value sd key cur)) params).
  set (sd' := List.filter (compatible params) sd).
  set (params2 := map_imap (fun key cur => Some (bound_value sd' key cur)) params1).
  assert (Hlook2 : forall key, params2 !! key = loaded_value sd key <$> params !! key).
  { intros key. by apply rebind_compatible_lookup. }
  exists params2. split; [| split; [done | split; [| split; [| split]]]].
  - unfold bind_weights, as_dict.
    rewrite (load_state_dict_mismatch params sd key0 t0 cur0 Hindex Hp0
               (dict_get_NoDup sd key0 t0 Hdict Hin0) Hne0).
    fold params1. cbn [items_of].
    rewrite (filter_compatible_tensors params1 params sd [] []
               (shape_imap_loaded_value params sd)).
    cbn [app]. fold sd'.
    destruct (load_state_dict_compatible params1 params sd Hdict
                (shape_imap_loaded_value params sd)) as (missing & unexpected & Hload).
    fold sd' in Hload. by rewrite Hload.
  - intros key t cur Hin Hp Heq. split.
    + apply in_map_iff. exists (key, t). split; [done |].
      apply filter_In. split; [done |]. unfold compatible. simpl. rewrite Hp.
      by apply bool_decide_eq_true.
    + rewrite Hlook2, Hp. simpl. f_equal. unfold loaded_value.
      rewrite (dict_get_NoDup sd key t Hdict Hin). by rewrite bool_decide_eq_true_2.
  - intros key t cur Hin Hp Hne. split; [| split].
    + apply list_elem_of_In, list_elem_of_omap. exists (key, t).
      split; [by apply list_elem_of_In |].
      unfold incompatible_entry. simpl. rewrite Hp.
      by rewrite bool_decide_eq_false_2 by congruence.
    + intros Hin'. apply in_map_iff in Hin' as ([k t'] & Heq & Hin').
      simpl in Heq. injection Heq as -> ->.
      apply filter_In in Hin' as [_ Hc]. unfold compatible in Hc. simpl in Hc.
      rewrite Hp in Hc. apply bool_decide_eq_true in Hc. congruence.
    + rewrite Hlook2, Hp. simpl. f_equal. unfold loaded_value.
      rewrite (dict_get_NoDup sd key t Hdict Hin).
      by rewrite bool_decide_eq_false_2.
  - intros key t Hin Hp. apply list_elem_of_In, list_elem_of_omap. exists (key, t).
    split; [by apply list_elem_of_In |]. unfold incompatible_entry. simpl. by rewrite Hp.
  - intros key cur Hp Hnone. rewrite Hlook2, Hp. simpl. f_equal.
    unfold loaded_value. by rewrite Hnone.
Qed.

(** The specification's second scenario, [classifier.4.weight] coming as
    [5 x 256] where the model has [5 x 128], with a counter saved as a
    vector and a key the model does not have. *)
Lemma bind_weights_partial_witness :
  let params : gmap string Tensor :=
    {[ "classifier.4.weight" := mkTensor [5; 128] 100;
       "classifier.4.bias" := mkTensor [5] 101;
       "features.1.num_batches_tracked" := mkTensor [] 102 ]} in
  let sd := [("classifier.4.weight", mkTensor [5; 256] 1);
             ("classifier.4.bias", mkTensor [5] 2);
             ("features.1.num_batches_tracked", mkTensor [1] 3);
             ("aux.weight", mkTensor [3] 4)] in
  exists params',
    bind_weights params (Some (as_dict sd)) =
      (params', inr (PartialLoad
                       [("classifier.4.bias", PyTensor (mkTensor [5] 2))]
                       [ShapeMismatch "classifier.4.weight" [5; 256] [5; 128];
                        ShapeMismatch "features.1.num_batches_tracked" [1] [];
                        NotInModel "aux.weight"])) /\
    params' !! "classifier.4.weight" = Some (mkTensor [5; 128] 100) /\
    params' !! "classifier.4.bias" = Some (mkTensor [5] 2) /\
    params' !! "features.1.num_batches_tracked" = Some (mkTensor [] 3).
Proof.
  cbv zeta.
  destruct (bind_weights_partial
              {[ "classifier.4.weight" := mkTensor [5; 128] 100;
                 "classifier.4.bias" := mkTensor [5] 101;
                 "features.1.num_batches_tracked" := mkTensor [] 102 ]}
              [("classifier.4.weight", mkTensor [5; 256] 1);
               ("classifier.4.bias", mkTensor [5] 2);
               ("features.1.num_batches_tracked", mkTensor [1] 3);
               ("aux.weight", mkTensor [3] 4)])
    as (params' & Hbind & Hlook & _).
  - apply (bool_decide_unpack _). vm_compute. reflexivity.
  - intros key t current. rewrite !lookup_insert, lookup_singleton. simpl.
    repeat case_decide; subst; simpl; intros Hcur Hget Hc; simplify_eq; done.
  - exists "classifier.4.weight", (mkTensor [5; 256] 1), (mkTensor [5; 128] 100).
    split; [by left |]. split; [vm_compute; reflexivity |].
    split; [simpl; congruence | reflexivity].
  - exists params'. split; [exact Hbind |]. rewrite !Hlook.
    repeat split; vm_compute; reflexivity.
Defined.

(** C2 as worded fails in three ways.  A counter of a normalisation layer
    that the checkpoint holds as a vector of one element is bound to the
    model's scalar although the shapes differ, where the wording has the
    parameter keep its value, and when nothing else differs no incompatible
    key is recorded at all; a key the model does not have is recorded
    without shapes; and an empty vector for a scalar makes the binding
    raise. *)
Lemma bind_weights_not_as_worded :
  let params : gmap string Tensor :=
    {[ "features.1.num_batches_tracked" := mkTensor [] 100;
       "classifier.4.bias" := mkTensor [5] 101 ]} in
  let sd := [("features.1.num_batches_tracked", mkTensor [1] 1);
             ("classifier.4.bias", mkTensor [5] 2)] in
  (shape (mkTensor [1] 1) <> shape (mkTensor [] 100) /\
   bound_value sd "features.1.num_batches_tracked" (mkTensor [] 100) = mkTensor [] 100 /\
   bind_weights params (Some (as_dict sd)) =
     ({[ "features.1.num_batches_tracked" := mkTensor [] 1;
         "classifier.4.bias" := mkTensor [5] 2 ]}, inr (FullLoad [] []))) /\
  bind_weights params
    (Some (as_dict [("classifier.4.bias", mkTensor [7] 2);
                    ("aux.weight", mkTensor [3] 3)])) =
    (params, inr (PartialLoad [] [ShapeMismatch "classifier.4.bias" [7] [5];
                                  NotInModel "aux.weight"])) /\
  snd (bind_weights params
         (Some (as_dict [("features.1.num_batches_tracked", mkTensor [0] 1);
                         ("classifier.4.bias", mkTensor [5] 2)]))) =
    inl IndexError.
Proof.
  cbv zeta. split; [split; [simpl; congruence | split] |]; [| | split];
    vm_compute; reflexivity.
Qed.

(** ** The model cache *)

Lemma load_uncached_tables env st model_name r st' :
  load_uncached env st model_name = (r, st') ->
  model_paths st' = model_paths st /\
  loaded_models st' =
    match r with
    | inl _ => loaded_models st
    | inr model => <[model_name := model]> (loaded_models st)
    end.
Proof.
  unfold load_uncached. intros H.
  repeat case_match; simplify_eq/=; done.
Qed.

Lemma load_model_hit env st model_name model :
  loaded_models st !! model_name = Some model ->
  load_model env st model_name = (inr model, st).
Proof. unfold load_model. by intros ->. Qed.

(** A call never touches the cache entry of a name that has one. *)
Lemma load_model_keeps env st called model_name model :
  loaded_models st !! model_name = Some model ->
  loaded_models (snd (load_model env st called)) !! model_name = Some model.
Proof.
  intros Hm. unfold load_model.
  destruct (loaded_models st !! called) as [m'|] eqn:Hc; [done |].
  destruct (load_uncached env st called) as [r st'] eqn:Hl.
  apply load_uncached_tables in Hl as [_ Hl]. simpl. rewrite Hl.
  destruct r; [done |].
  rewrite lookup_insert_ne; [done |]. congruence.
Qed.

Lemma load_models_keep calls st model_name model :
  loaded_models st !! model_name = Some model ->
  loaded_models (load_models calls st) !! model_name = Some model.
Proof.
  revert st. induction calls as [|[env called] calls IH]; intros st Hm; [done |].
  simpl. apply IH. by apply load_model_keeps.
Qed.

(** C7: once [load_model] has returned a model for a name, every later call
    for that name, after any calls in between and whatever the files have
    become, returns that same object and leaves the whole state as it is:
    no checkpoint is read and no model is built. *)
Theorem load_model_cached env st model_name model st'
    (Hloaded : load_model env st model_name = (inr model, st')) :
  forall calls env',
    let st'' := load_models calls st' in
    load_model env' st'' model_name = (inr model, st'') /\
    checkpoint_reads (snd (load_model env' st'' model_name)) = checkpoint_reads st'' /\
    next_obj_id (snd (load_model env' st'' model_name)) = next_obj_id st''.
Proof.
  assert (Hm : loaded_models st' !! model_name = Some model).
  { unfold load_model in Hloaded.
    destruct (loaded_models st !! model_name) as [m|] eqn:Hc.
    - by simplify_eq.
    - apply load_uncached_tables in Hloaded as [_ ->]. apply lookup_insert_eq. }
  intros calls env' st''.
  assert (Hhit : load_model env' st'' model_name = (inr model, st'')).
  { apply load_model_hit. by apply load_models_keep. }
  by rewrite Hhit.
Qed.

(** The cache at work on the example directory. *)
Lemma load_model_cached_witness :
  exists model st',
    load_model example_env example_state "CustomCNN1" = (inr model, st') /\
    load_model emptied_env st' "CustomCNN1" = (inr model, st') /\
    checkpoint_reads st' = [example_path].
Proof.
  destruct (load_model example_env example_state "CustomCNN1") as [[e | model] st'] eqn:Hload.
  - vm_compute in Hload. discriminate Hload.
  - exists model, st'. split; [reflexivity |]. split.
    + apply (load_model_cached example_env example_state "CustomCNN1" model st' Hload
               [] emptied_env).
    + vm_compute in Hload. by injection Hload as _ <-.
Defined.

(** ** Failed loads *)

Lemma has_simple_head_exn items n e : has_simple_head items n = inl e -> e = AttributeError.
Proof.
  induction items as [|[key v] items IH]; simpl; [done |].
  destruct v; simpl; repeat case_match; try done; by intros [= <-].
Qed.

Lemma select_variant_exn model_name state_dict n e :
  select_variant model_name state_dict n = inl e -> e <> ValueError_not_found.
Proof.
  unfold select_variant. destruct (String.eqb model_name "BinaryCNN_Deep"); [| done].
  destruct state_dict as [sd|]; [| by intros [= <-]].
  destruct sd; simpl; try by intros [= <-].
  destruct (has_simple_head items n) as [e'|[]] eqn:Hh; try done.
  apply has_simple_head_exn in Hh as ->. by intros [= <-].
Qed.

Lemma create_model_architecture_exn env fresh_id model_name n variant e :
  create_model_architecture env fresh_id model_name n variant = inl e ->
  e = ValueError_unknown_model.
Proof.
  unfold create_model_architecture. case_match; [done | by intros [= <-]].
Qed.

Lemma load_state_dict_exn params state_dict params' e :
  load_state_dict params state_dict = (params', inl e) ->
  e = TypeError \/ e = IndexError \/ exists flag, e = RuntimeError flag.
Proof.
  unfold load_state_dict. intros H.
  repeat case_match; simplify_eq; eauto.
Qed.

Lemma filter_compatible_exn model_state items cs ik e :
  filter_compatible model_state items cs ik = inl e -> e = AttributeError.
Proof.
  revert cs ik. induction items as [|[key v] items IH]; intros cs ik; simpl; [done |].
  destruct (model_state !! key); [| apply IH].
  destruct v; simpl; try by intros [= <-].
  case_match; apply IH.
Qed.

Lemma bind_weights_exn params state_dict params' e :
  bind_weights params state_dict = (params', inl e) -> e <> ValueError_not_found.
Proof.
  unfold bind_weights. intros H.
  repeat case_match; simplify_eq; try done;
    repeat match goal with
    | H : load_state_dict _ _ = (_, inl _) |- _ =>
        apply load_state_dict_exn in H as [? | [? | [? ?]]]
    | H : filter_compatible _ _ _ _ = inl _ |- _ => apply filter_compatible_exn in H
    | H : items_of _ = inl _ |- _ => unfold items_of in H; repeat case_match
    end; simplify_eq; done.
Qed.

Lemma load_uncached_not_found env st model_name :
  fst (load_uncached env st model_name) = inl ValueError_not_found <->
  model_paths st !! model_name = None \/
  exists path, model_paths st !! model_name = Some path /\
    (path = "" \/ path_exists env path = false).
Proof.
  unfold load_uncached.
  destruct (model_paths st !! model_name) as [path|]; [| by split; [left |]].
  destruct (String.eqb path "" || negb (path_exists env path)) eqn:Hgone.
  - split; [intros _ | done]. right. exists path. split; [done |].
    apply orb_true_iff in Hgone as [Hempty | Hexists].
    + left. by apply String.eqb_eq.
    + right. by apply negb_true_iff.
  - apply orb_false_iff in Hgone as [Hempty Hexists].
    apply String.eqb_neq in Hempty. apply negb_false_iff in Hexists.
    split.
    + destruct (read_checkpoint _ _ _ _ _) as [[state_dict cfg] configs].
      destruct (select_variant _ _ _) as [e | variant] eqn:Hv; simpl.
      { intros [= ->]. by apply select_variant_exn in Hv. }
      destruct (create_model_architecture _ _ _ _ _) as [e | model] eqn:Hc; simpl.
      { intros [= ->]. by apply create_model_architecture_exn in Hc. }
      destruct (bind_weights _ _) as [params [e | diag]] eqn:Hb; simpl; [| done].
      intros [= ->]. by apply bind_weights_exn in Hb.
    + intros [Hnone | (path' & [= <-] & [Hp | Hp])]; [done | done | congruence].
Qed.

(** C6 (as amended): [load_model] raises the "not found" error exactly when
    the name is not cached and either has no entry in the path table or its
    file is gone (an empty path, or [os.path.exists] is false).  A call that
    raises, whatever the exception, leaves the cache as it was, without an
    entry for the name, so that the next call runs the whole load again. *)
Theorem load_model_failure env st model_name :
  (fst (load_model env st model_name) = inl ValueError_not_found <->
     loaded_models st !! model_name = None /\
     (model_paths st !! model_name = None \/
      exists path, model_paths st !! model_name = Some path /\
        (path = "" \/ path_exists env path = false))) /\
  (forall e st',
     load_model env st model_name = (inl e, st') ->
     loaded_models st' = loaded_models st /\
     loaded_models st' !! model_name = None /\
     model_paths st' = model_paths st /\
     forall env', load_model env' st' model_name = load_uncached env' st' model_name).
Proof.
  split.
  - unfold load_model. destruct (loaded_models st !! model_name) as [model|].
    + split; [done | by intros [? _]].
    + rewrite load_uncached_not_found. tauto.
  - intros e st' Hfail. unfold load_model in Hfail.
    destruct (loaded_models st !! model_name) as [model|] eqn:Hc; [done |].
    apply load_uncached_tables in Hfail as [Hpaths Hcache].
    assert (Hmiss : loaded_models st' !! model_name = None) by (by rewrite Hcache).
    repeat split; try done.
    intros env'. unfold load_model. by rewrite Hmiss.
Qed.

(** The scanned file has been removed: the error is "not found" and a later
    call, with the file back, loads from scratch. *)
Lemma load_model_failure_witness :
  exists st',
    load_model emptied_env example_state "CustomCNN1" = (inl ValueError_not_found, st') /\
    loaded_models st' = loaded_models example_state /\
    load_model example_env st' "CustomCNN1" = load_uncached example_env st' "CustomCNN1".
Proof.
  destruct (load_model emptied_env example_state "CustomCNN1") as [r st'] eqn:Hload.
  assert (Hr : r = inl ValueError_not_found).
  { change r with (fst (r, st')). rewrite <- Hload.
    apply (load_model_failure emptied_env example_state "CustomCNN1").
    split; [vm_compute; reflexivity |]. right. exists example_path.
    split; [vm_compute; reflexivity | by right]. }
  subst r. exists st'. split; [reflexivity |].
  destruct (load_model_failure emptied_env example_state "CustomCNN1") as [_ Hfail].
  destruct (Hfail _ _ Hload) as (Hcache & _ & _ & Hagain). by split.
Defined.

(** C6 as worded fails: the name is in the path table built by the scan,
    the file has been removed since, and the call raises "not found". *)
Lemma load_model_not_found_with_path :
  is_Some (model_paths example_state !! "CustomCNN1") /\
  fst (load_model emptied_env example_state "CustomCNN1") = inl ValueError_not_found /\
  ~ (fst (load_model emptied_env example_state "CustomCNN1") = inl ValueError_not_found <->
     model_paths example_state !! "CustomCNN1" = None).
Proof.
  assert (Hpath : model_paths example_state !! "CustomCNN1" = Some example_path)
    by (vm_compute; reflexivity).
  assert (Hfail : fst (load_model emptied_env example_state "CustomCNN1")
                  = inl ValueError_not_found) by (vm_compute; reflexivity).
  split; [by rewrite Hpath |]. split; [done |].
  intros [H _]. specialize (H Hfail). congruence.
Qed.

(** ** The configuration after a load *)

Lemma length_generated_class_names n : length (generated_class_names n) = N.to_nat n.
Proof. unfold generated_class_names. by rewrite length_map, length_seq. Qed.

Lemma length_class_names_for n : length (class_names_for n) = N.to_nat n.
Proof.
  unfold class_names_for.
  destruct (N.eqb_spec n 2) as [-> | _]; [done |].
  destruct (N.eqb_spec n 5) as [-> | _]; [done |].
  destruct (n =? 10); apply length_generated_class_names.
Qed.

Lemma generated_class_names_lookup n (i : nat) :
  (i < N.to_nat n)%nat ->
  generated_class_names n !! i = Some ("Class_" +:+ PyStr.str_of_N (N.of_nat i)).
Proof.
  intros Hi. unfold generated_class_names.
  rewrite list_lookup_fmap, lookup_seq_lt by done. done.
Qed.

Example generated_class_names_12 :
  generated_class_names 12 =
  ["Class_0"; "Class_1"; "Class_2"; "Class_3"; "Class_4"; "Class_5"; "Class_6";
   "Class_7"; "Class_8"; "Class_9"; "Class_10"; "Class_11"].
Proof. reflexivity. Qed.

Lemma read_checkpoint_detected env configs model_name model_path dflt checkpoint n :
  torch_load env model_path = Some checkpoint ->
  detect_num_classes_from_checkpoint (normalize_checkpoint checkpoint) = inr (Some n) ->
  n <> 0 ->
  read_checkpoint env configs model_name model_path dflt =
  (Some (normalize_checkpoint checkpoint), mkConfig n (class_names_for n),
   <[model_name := mkConfig n (class_names_for n)]> configs).
Proof.
  intros Hload Hdetect Hn. unfold read_checkpoint. rewrite Hload, Hdetect.
  by apply N.eqb_neq in Hn as ->.
Qed.

Lemma create_model_architecture_width env fresh_id model_name n variant model :
  create_model_architecture env fresh_id model_name n variant = inr model ->
  out_features model = n.
Proof. unfold create_model_architecture. case_match; [by intros [= <-] | done]. Qed.

(** C10 (as amended): after a load that succeeded and in which the detection
    returned a count [n] other than 0, the configuration stored for the name
    has [num_classes = n] and [n] class names (the binary pair for 2, the
    five disease names for 5, [Class_0] ... [Class_(n-1)] otherwise), and
    the model was built with [n] outputs, so the positions that
    [predict_image] reads stay below the output width. *)
Theorem load_model_config env st model_name model st' model_path checkpoint n
    (Hmiss : loaded_models st !! model_name = None)
    (Hpath : model_paths st !! model_name = Some model_path)
    (Hread : torch_load env model_path = Some checkpoint)
    (Hdetect : detect_num_classes_from_checkpoint (normalize_checkpoint checkpoint)
               = inr (Some n))
    (Hn : n <> 0)
    (Hload : load_model env st model_name = (inr model, st')) :
  exists config,
    model_configs st' !! model_name = Some config /\
    num_classes config = n /\
    length (class_names config) = N.to_nat n /\
    out_features model = n /\
    Forall (fun i => N.of_nat i < out_features model) (predict_positions config) /\
    (n = 2 -> class_names config = ["Healthy"; "Not Healthy"]) /\
    (n = 5 -> class_names config = ["Cerscospora"; "Healthy"; "Leaf rust"; "Miner"; "Phoma"]) /\
    (n <> 2 -> n <> 5 ->
     forall i : nat, (i < N.to_nat n)%nat ->
       class_names config !! i = Some ("Class_" +:+ PyStr.str_of_N (N.of_nat i))).
Proof.
  exists (mkConfig n (class_names_for n)).
  unfold load_model in Hload. rewrite Hmiss in Hload.
  unfold load_uncached in Hload. rewrite Hpath in Hload.
  destruct (String.eqb model_path "" || negb (path_exists env model_path)); [done |].
  rewrite (read_checkpoint_detected _ _ _ _ _ _ _ Hread Hdetect Hn) in Hload.
  cbn [num_classes] in Hload.
  destruct (select_variant _ _ _) as [e | variant]; [done |].
  destruct (create_model_architecture _ _ _ _ _) as [e | fresh] eqn:Hcreate; [done |].
  apply create_model_architecture_width in Hcreate.
  destruct (bind_weights _ _) as [params [e | diag]]; [done |].
  injection Hload as <- <-. cbn [model_configs out_features num_classes class_names].
  split; [apply lookup_insert_eq |]. split; [done |].
  split; [apply length_class_names_for |]. split; [done |]. split.
  - unfold predict_positions. cbn [class_names]. rewrite length_class_names_for, Hcreate.
    apply Forall_forall. intros i Hi. apply elem_of_seq in Hi. lia.
  - split; [by intros -> | split; [by intros -> |]].
    intros H2 H5 i Hi. unfold class_names_for.
    apply N.eqb_neq in H2 as ->. apply N.eqb_neq in H5 as ->.
    destruct (n =? 10); by apply generated_class_names_lookup.
Qed.

(** The first scenario of the specification: five classes are detected. *)
Lemma load_model_config_witness :
  exists model st' config,
    load_model example_env example_state "CustomCNN1" = (inr model, st') /\
    model_configs st' !! "CustomCNN1" = Some config /\
    num_classes config = 5 /\ length (class_names config) = 5%nat /\ out_features model = 5.
Proof.
  destruct (load_model example_env example_state "CustomCNN1") as [[e | model] st'] eqn:Hload.
  - vm_compute in Hload. discriminate Hload.
  - destruct (load_model_config example_env example_state "CustomCNN1" model st'
                example_path example_checkpoint 5)
      as (config & Hconfig & Hnum & Hlen & Hwidth & _);
      [vm_compute; reflexivity | vm_compute; reflexivity | vm_compute; reflexivity
      | vm_compute; reflexivity | lia | exact Hload |].
    exists model, st', config. by repeat split.
Defined.

(** C10 as worded fails for the count 0: the head without rows makes the
    detection return 0, which [if detected_num_classes:] treats as "not
    detected"; the load succeeds and the stored configuration keeps the
    five default classes. *)
Lemma load_model_config_not_for_zero :
  detect_num_classes_from_checkpoint (normalize_checkpoint rowless_checkpoint)
    = inr (Some 0) /\
  exists model st',
    load_model rowless_env example_state "CustomCNN1" = (inr model, st') /\
    model_configs st' !! "CustomCNN1" = Some five_classes /\
    ~ (exists config, model_configs st' !! "CustomCNN1" = Some config /\
         num_classes config = 0 /\ length (class_names config) = N.to_nat 0).
Proof.
  split; [vm_compute; reflexivity |].
  destruct (load_model rowless_env example_state "CustomCNN1") as [[e | model] st'] eqn:Hload.
  - vm_compute in Hload. discriminate Hload.
  - exists model, st'. split; [done |].
    assert (Hconfig : model_configs st' !! "CustomCNN1" = Some five_classes).
    { vm_compute in Hload. injection Hload as _ <-. vm_compute. reflexivity. }
    split; [done |]. intros (config & Hc & Hnum & _).
    rewrite Hconfig in Hc. injection Hc as <-. discriminate Hnum.
Qed.

(** ** Discovery scan *)

(** The inner loop binds the file to the first registered name that matches
    and is still unbound, and to nothing when there is none. *)
Lemma match_file_first_unbound registry model_name path paths configs :
  match match_file registry model_name path paths configs with
  | (paths', configs', true) =>
      exists pre config_name config post,
        registry = pre ++ (config_name, config) :: post /\
        Forall (passed_over model_name paths) pre /\
        name_matches config_name model_name = true /\
        paths !! config_name = None /\
        paths' = <[config_name := path]> paths /\
        configs' = <[config_name := config]> configs
  | (paths', configs', false) =>
      Forall (passed_over model_name paths) registry /\ paths' = paths /\ configs' = configs
  end.
Proof.
  induction registry as [|[config_name config] registry IH]; simpl.
  - by repeat split.
  - destruct (name_matches config_name model_name) eqn:Hmatch.
    + destruct (paths !! config_name) as [bound|] eqn:Hbound.
      * destruct (match_file registry model_name path paths configs) as [[paths' configs'] []].
        -- destruct IH as (pre & c & cfg & post & -> & Hpre & ? & ? & ? & ?).
           exists ((config_name, config) :: pre), c, cfg, post.
           repeat split; try done. constructor; [| done]. right. by exists bound.
        -- destruct IH as (Hall & ? & ?). repeat split; try done.
           constructor; [| done]. right. by exists bound.
      * exists [], config_name, config, registry. by repeat split.
    + destruct (match_file registry model_name path paths configs) as [[paths' configs'] []].
      * destruct IH as (pre & c & cfg & post & -> & Hpre & ? & ? & ? & ?).
        exists ((config_name, config) :: pre), c, cfg, post.
        repeat split; try done. constructor; [| done]. by left.
      * destruct IH as (Hall & ? & ?). repeat split; try done.
        constructor; [| done]. by left.
Qed.

Lemma match_file_keeps registry model_name path paths configs config_name bound :
  paths !! config_name = Some bound ->
  (match_file registry model_name path paths configs).1.1 !! config_name = Some bound.
Proof.
  intros Hbound.
  pose proof (match_file_first_unbound registry model_name path paths configs) as H.
  destruct (match_file registry model_name path paths configs) as [[paths' configs'] []]; simpl.
  - destruct H as (pre & c & cfg & post & _ & _ & _ & Hfree & -> & _).
    rewrite lookup_insert_ne; [done | congruence].
  - by destruct H as (_ & -> & _).
Qed.

Lemma scan_files_keeps pth_files paths configs unmatched config_name bound :
  paths !! config_name = Some bound ->
  (scan_files pth_files paths configs unmatched).1.1 !! config_name = Some bound.
Proof.
  revert paths configs unmatched.
  induction pth_files as [|f pth_files IH]; intros paths configs unmatched Hbound; [done |].
  cbn [scan_files].
  pose proof (match_file_keeps MODEL_CONFIGS (model_name_of f) (resolved f)
                paths configs config_name bound Hbound) as Hkeep.
  destruct (match_file MODEL_CONFIGS (model_name_of f) (resolved f) paths configs)
    as [[paths' configs'] matched].
  by apply IH.
Qed.

(** C9 (as amended): the scan is a total function of the files found.  Each
    file goes to the first registered name that matches it and is not bound
    yet; names that match but are bound are passed over, and a file without
    such a name changes nothing and is reported.  A name that is bound stays
    bound to the same path for the rest of the scan.  A file
    "BinaryCNN_Light_best.pth" has the model name "BinaryCNN_Light" and
    binds that name when it is free; "unknown_model_v3.pth" binds
    nothing. *)
Theorem scan_files_binding :
  (forall f paths configs,
     match match_file MODEL_CONFIGS (model_name_of f) (resolved f) paths configs with
     | (paths', configs', true) =>
         exists pre config_name config post,
           MODEL_CONFIGS = pre ++ (config_name, config) :: post /\
           Forall (passed_over (model_name_of f) paths) pre /\
           name_matches config_name (model_name_of f) = true /\
           paths !! config_name = None /\
           paths' = <[config_name := resolved f]> paths /\
           configs' = <[config_name := config]> configs
     | (paths', configs', false) =>
         Forall (passed_over (model_name_of f) paths) MODEL_CONFIGS /\
         paths' = paths /\ configs' = configs
     end) /\
  (forall pth_files paths configs unmatched config_name bound,
     paths !! config_name = Some bound ->
     (scan_files pth_files paths configs unmatched).1.1 !! config_name = Some bound) /\
  (forall path paths configs,
     model_name_of (mkPth "BinaryCNN_Light_best.pth" path) = "BinaryCNN_Light" /\
     (paths !! "BinaryCNN_Light" = None ->
      match_file MODEL_CONFIGS "BinaryCNN_Light" path paths configs =
      (<["BinaryCNN_Light" := path]> paths, <["BinaryCNN_Light" := two_classes]> configs, true))) /\
  (forall path paths configs unmatched,
     scan_files [mkPth "unknown_model_v3.pth" path] paths configs unmatched =
     (paths, configs, unmatched ++ ["unknown_model_v3.pth"])).
Proof.
  split; [| split; [| split]].
  - intros f paths configs. apply match_file_first_unbound.
  - apply scan_files_keeps.
  - intros path paths configs. split; [vm_compute; reflexivity |].
    intros Hfree.
    change (match_file MODEL_CONFIGS "BinaryCNN_Light" path paths configs)
      with (match paths !! "BinaryCNN_Light" with
            | None => (<["BinaryCNN_Light" := path]> paths,
                       <["BinaryCNN_Light" := two_classes]> configs, true)
            | Some _ => match_file [("BinaryCNN_Deep", two_classes);
                                    ("BinaryCNN_Efficient", two_classes)]
                          "BinaryCNN_Light" path paths configs
            end).
    by rewrite Hfree.
  - intros path paths configs unmatched. reflexivity.
Qed.

(** A directory with the two files that the specification names. *)
Lemma scan_files_binding_witness :
  let files := [mkPth "unknown_model_v3.pth" "/srv/backend/models/unknown_model_v3.pth";
                mkPth "BinaryCNN_Light_best.pth" "/srv/backend/models/BinaryCNN_Light_best.pth"] in
  scan_files files ∅ ∅ [] =
    ({[ "BinaryCNN_Light" := "/srv/backend/models/BinaryCNN_Light_best.pth" ]},
     {[ "BinaryCNN_Light" := two_classes ]}, ["unknown_model_v3.pth"]).
Proof.
  cbv zeta.
  destruct scan_files_binding as (_ & _ & Hlight & Hunknown).
  change (scan_files [mkPth "unknown_model_v3.pth" "/srv/backend/models/unknown_model_v3.pth";
                      mkPth "BinaryCNN_Light_best.pth"
                        "/srv/backend/models/BinaryCNN_Light_best.pth"] ∅ ∅ [])
    with (let '(paths, configs, unmatched) :=
            scan_files [mkPth "unknown_model_v3.pth" "/srv/backend/models/unknown_model_v3.pth"]
              ∅ ∅ [] in
          let '(paths', configs', matched) :=
            match_file MODEL_CONFIGS "BinaryCNN_Light"
              "/srv/backend/models/BinaryCNN_Light_best.pth" paths configs in
          (paths', configs', if matched then unmatched else unmatched ++ ["BinaryCNN_Light_best.pth"])).
  rewrite Hunknown.
  destruct (Hlight "/srv/backend/models/BinaryCNN_Light_best.pth" ∅ ∅) as [_ Hbind].
  rewrite Hbind by reflexivity. reflexivity.
Defined.

(** C9 as worded fails: "BinaryCNN_best.pth" matches [BinaryCNN_Light]
    first, which is bound by then, and the scan goes on and binds the file to
    [BinaryCNN_Deep]. *)
Lemma scan_files_second_match_wins :
  let light := mkPth "BinaryCNN_Light_best.pth" "/srv/backend/models/BinaryCNN_Light_best.pth" in
  let plain := mkPth "BinaryCNN_best.pth" "/srv/backend/models/BinaryCNN_best.pth" in
  let paths := (scan_files [light; plain] ∅ ∅ []).1.1 in
  first_matching_name (model_name_of plain) = Some "BinaryCNN_Light" /\
  paths !! "BinaryCNN_Deep" = Some (resolved plain) /\
  ~ held_by_first_match [light; plain] paths.
Proof.
  cbv zeta.
  assert (Hfirst : first_matching_name
                     (model_name_of (mkPth "BinaryCNN_best.pth"
                                       "/srv/backend/models/BinaryCNN_best.pth"))
                   = Some "BinaryCNN_Light") by (vm_compute; reflexivity).
  split; [exact Hfirst |]. split; [vm_compute; reflexivity |].
  intros Hheld.
  specialize (Hheld (mkPth "BinaryCNN_best.pth" "/srv/backend/models/BinaryCNN_best.pth")
                "BinaryCNN_Deep").
  rewrite Hfirst in Hheld.
  assert (Some "BinaryCNN_Light" = Some "BinaryCNN_Deep"); [| discriminate].
  apply Hheld; [right; by left | vm_compute; reflexivity].
Qed.

(** ** The two end-to-end scenarios *)

(** A wrapped checkpoint that fits: five classes, every key bound. *)
Example load_model_fitting_checkpoint :
  exists model st',
    load_model example_env example_state "CustomCNN1" = (inr model, st') /\
    out_features model = 5 /\
    parameters model =
      {[ "classifier.4.weight" := mkTensor [5; 128] 1;
         "classifier.4.bias" := mkTensor [5] 2;
         "features.0.weight" := mkTensor [32; 3; 3; 3] 3 ]} /\
    loaded_models st' !! "CustomCNN1" = Some model.
Proof.
  destruct (load_model example_env example_state "CustomCNN1") as [[e | model] st'] eqn:Hload.
  - vm_compute in Hload. discriminate Hload.
  - exists model, st'. vm_compute in Hload. injection Hload as <- <-.
    repeat split; vm_compute; reflexivity.
Qed.

(** A head of another shape: the model is returned all the same, the head
    weight keeps the constructor's value and the other keys are bound. *)
Example load_model_drifted_checkpoint :
  exists model st',
    load_model drifted_env example_state "CustomCNN1" = (inr model, st') /\
    out_features model = 5 /\
    parameters model =
      {[ "classifier.4.weight" := mkTensor [5; 128] 100;
         "classifier.4.bias" := mkTensor [5] 2;
         "features.0.weight" := mkTensor [32; 3; 3; 3] 3 ]} /\
    loaded_models st' !! "CustomCNN1" = Some model.
Proof.
  destruct (load_model drifted_env example_state "CustomCNN1") as [[e | model] st'] eqn:Hload.
  - vm_compute in Hload. discriminate Hload.
  - exists model, st'. vm_compute in Hload. injection Hload as <- <-.
    repeat split; vm_compute; reflexivity.
Qed.

(** * Further properties of the loader *)

(** ** Binding a checkpoint of tensors *)

(** A checkpoint of tensors is bound unless it holds an empty vector for a
    scalar of the model: the "Load weights" block then returns, whatever the
    keys and shapes, and each parameter ends up with the checkpoint's tensor
    of its key and shape, with the first element of the checkpoint's vector
    when it is a scalar, or with its own value.  With an empty vector for a
    scalar the block raises [IndexError]. *)
Theorem bind_weights_tensors_return (params : gmap string Tensor)
    (sd : list (string * Tensor)) (Hdict : NoDup (map fst sd)) :
  (indexable params sd ->
   exists params' diagnostics,
     bind_weights params (Some (as_dict sd)) = (params', inr diagnostics) /\
     forall key, params' !! key = loaded_value sd key <$> params !! key) /\
  (forall key t current,
     In (key, t) sd -> params !! key = Some current ->
     shape current = [] -> shape t = [0] ->
     exists params', bind_weights params (Some (as_dict sd)) = (params', inl IndexError)).
Proof.
  split.
  - intros Hindex.
    set (params1 := map_imap (fun key cur => Some (loaded_value sd key cur)) params).
    assert (Hlook1 : forall key, params1 !! key = loaded_value sd key <$> params !! key).
    { intros key. unfold params1. rewrite map_lookup_imap. by destruct (params !! key). }
    unfold bind_weights, as_dict.
    destruct (load_state_dict_tensors_cases params sd Hindex)
      as [(missing & unexpected & ->) | ->].
    + fold params1. eauto.
    + fold params1. cbn [items_of].
      rewrite (filter_compatible_tensors params1 params sd [] []
                 (shape_imap_loaded_value params sd)). cbn [app].
      destruct (load_state_dict_compatible params1 params sd Hdict
                  (shape_imap_loaded_value params sd)) as (missing & unexpected & Hload).
      rewrite Hload. eexists _, _. split; [reflexivity |].
      intros key. unfold params1. by apply rebind_compatible_lookup.
  - intros key t current Hin Hp Hc Ht. exists params. unfold bind_weights, as_dict.
    by rewrite (load_state_dict_index_error params sd key t current Hp
                  (dict_get_NoDup sd key t Hdict Hin) Hc Ht).
Qed.

Lemma bind_weights_tensors_return_witness :
  exists params' diagnostics,
    bind_weights (example_parameters "CustomCNN1" 5 "default")
      (Some (as_dict [("classifier.4.weight", mkTensor [7; 128] 1);
                      ("aux.weight", mkTensor [3] 2)])) = (params', inr diagnostics) /\
    params' !! "classifier.4.weight" = Some (mkTensor [5; 128] 100).
Proof.
  destruct (bind_weights_tensors_return (example_parameters "CustomCNN1" 5 "default")
              [("classifier.4.weight", mkTensor [7; 128] 1); ("aux.weight", mkTensor [3] 2)])
    as [Hbound _].
  - apply (bool_decide_unpack _). vm_compute. reflexivity.
  - destruct Hbound as (params' & diagnostics & Hbind & Hlook).
    + intros key t current. unfold example_parameters.
      rewrite !lookup_insert, lookup_singleton. simpl.
      repeat case_decide; subst; simpl; intros Hcur Hget Hc; simplify_eq; done.
    + exists params', diagnostics. split; [exact Hbind |]. rewrite Hlook.
      vm_compute. reflexivity.
Defined.

(** A checkpoint with exactly the model's keys and shapes is bound in full:
    nothing is missing, nothing is unexpected, and every parameter holds the
    checkpoint's tensor. *)
Theorem bind_weights_exact (params : gmap string Tensor) (sd : list (string * Tensor))
    (Hkeys : forall key, is_Some (params !! key) <-> In key (map fst sd))
    (Hshapes : forall key t current,
       params !! key = Some current -> dict_get sd key = Some t -> shape t = shape current) :
  exists params',
    bind_weights params (Some (as_dict sd)) = (params', inr (FullLoad [] [])) /\
    forall key, params' !! key = dict_get sd key.
Proof.
  destruct (load_state_dict_agree_keys params sd Hshapes)
    as (missing & unexpected & Hload & Hmissing & Hunexpected).
  assert (missing = []) as ->.
  { destruct missing as [|key missing]; [done |].
    destruct (Hmissing key) as [(Hin & Hnone & _) _]; [by left |].
    apply Hkeys, dict_get_None in Hin; done. }
  assert (unexpected = []) as ->.
  { destruct unexpected as [|key unexpected]; [done |].
    destruct (Hunexpected key) as [[Hin Hnone] _]; [by left |].
    apply Hkeys in Hin as [cur Hcur]. congruence. }
  eexists. split.
  - unfold bind_weights, as_dict. rewrite Hload. reflexivity.
  - intros key. rewrite map_lookup_imap.
    destruct (params !! key) as [cur|] eqn:Hp; simpl.
    + unfold bound_value. destruct (dict_get sd key) as [t|] eqn:Hget.
      * by rewrite bool_decide_eq_true_2 by eauto.
      * assert (Hin : In key (map fst sd)) by (apply Hkeys; by exists cur).
        by apply dict_get_None in Hget.
    + symmetry. apply dict_get_None. intros Hin. apply Hkeys in Hin as [cur Hcur].
      congruence.
Qed.

Lemma bind_weights_exact_witness :
  exists params',
    bind_weights (example_parameters "CustomCNN1" 5 "default")
      (Some (as_dict [("classifier.4.weight", mkTensor [5; 128] 1);
                      ("classifier.4.bias", mkTensor [5] 2);
                      ("features.0.weight", mkTensor [32; 3; 3; 3] 3)]))
      = (params', inr (FullLoad [] [])) /\
    params' !! "classifier.4.bias" = Some (mkTensor [5] 2).
Proof.
  destruct (bind_weights_exact (example_parameters "CustomCNN1" 5 "default")
              [("classifier.4.weight", mkTensor [5; 128] 1);
               ("classifier.4.bias", mkTensor [5] 2);
               ("features.0.weight", mkTensor [32; 3; 3; 3] 3)])
    as (params' & Hbind & Hlook).
  - intros key. unfold example_parameters.
    rewrite !lookup_insert, lookup_singleton. simpl.
    split.
    + intros Hsome. repeat case_decide; subst; auto. by destruct Hsome.
    + intros [<- | [<- | [<- | []]]]; repeat case_decide; by eauto.
  - intros key t cur. unfold example_parameters.
    rewrite !lookup_insert, lookup_singleton. simpl.
    repeat case_decide; subst; simpl; intros Hcur Hget; by simplify_eq.
  - exists params'. split; [exact Hbind |]. by rewrite Hlook.
Defined.

(** ** The tables stay consistent *)

Lemma MODEL_CONFIGS_known :
  Forall (fun entry => In (fst entry) known_architectures /\ config_sized (snd entry))
         MODEL_CONFIGS.
Proof.
  unfold MODEL_CONFIGS.
  repeat (apply List.Forall_cons;
          [split; [simpl; repeat (first [left; reflexivity | right]) | reflexivity] |]).
  apply List.Forall_nil.
Qed.

Lemma match_file_tables registry model_name path paths configs :
  Forall (fun entry => In (fst entry) known_architectures /\ config_sized (snd entry)) registry ->
  (forall name, is_Some (paths !! name) ->
     In name known_architectures /\
     exists config, configs !! name = Some config /\ config_sized config) ->
  forall name, is_Some ((match_file registry model_name path paths configs).1.1 !! name) ->
    In name known_architectures /\
    exists config, (match_file registry model_name path paths configs).1.2 !! name
                   = Some config /\ config_sized config.
Proof.
  intros Hreg Hinv name.
  pose proof (match_file_first_unbound registry model_name path paths configs) as H.
  destruct (match_file registry model_name path paths configs) as [[paths' configs'] []]; simpl.
  - destruct H as (pre & c & cfg & post & -> & _ & _ & _ & -> & ->).
    apply Forall_app in Hreg as [_ Hreg]. apply Forall_cons in Hreg as [[Hknown Hsized] _].
    simpl in Hknown, Hsized.
    destruct (decide (c = name)) as [-> | Hne].
    + intros _. split; [done |]. exists cfg. by rewrite lookup_insert_eq.
    + rewrite !lookup_insert_ne by done. apply Hinv.
  - destruct H as (_ & -> & ->). apply Hinv.
Qed.

Lemma scan_files_tables pth_files paths configs unmatched :
  (forall name, is_Some (paths !! name) ->
     In name known_architectures /\
     exists config, configs !! name = Some config /\ config_sized config) ->
  forall name, is_Some ((scan_files pth_files paths configs unmatched).1.1 !! name) ->
    In name known_architectures /\
    exists config, (scan_files pth_files paths configs unmatched).1.2 !! name
                   = Some config /\ config_sized config.
Proof.
  revert paths configs unmatched.
  induction pth_files as [|f pth_files IH]; intros paths configs unmatched Hinv; [done |].
  cbn [scan_files].
  pose proof (match_file_tables MODEL_CONFIGS (model_name_of f) (resolved f) paths configs
                MODEL_CONFIGS_known Hinv) as Hstep.
  destruct (match_file MODEL_CONFIGS (model_name_of f) (resolved f) paths configs)
    as [[paths' configs'] matched].
  by apply IH.
Qed.

Lemma started_consistent pth_files : tables_consistent (started pth_files).
Proof.
  unfold started, scan_for_models.
  pose proof (scan_files_tables pth_files ∅ ∅ []) as H.
  destruct (scan_files pth_files ∅ ∅ []) as [[paths configs] unmatched]. simpl in *.
  split; simpl.
  - apply H. intros name [p Hp]. by rewrite lookup_empty in Hp.
  - intros name model Hm. by rewrite lookup_empty in Hm.
Qed.

Lemma read_checkpoint_config env configs model_name model_path dflt state_dict cfg configs' :
  read_checkpoint env configs model_name model_path dflt = (state_dict, cfg, configs') ->
  configs !! model_name = Some dflt ->
  configs' !! model_name = Some cfg /\
  (config_sized dflt -> config_sized cfg) /\
  (forall other, other <> model_name -> configs' !! other = configs !! other).
Proof.
  unfold read_checkpoint. intros H Hdflt.
  repeat case_match; simplify_eq; try done.
  split; [apply lookup_insert_eq |]. split.
  - intros _. apply length_class_names_for.
  - intros other Hne. by rewrite lookup_insert_ne.
Qed.

Lemma create_model_architecture_name env fresh_id model_name n variant model :
  create_model_architecture env fresh_id model_name n variant = inr model ->
  arch_name model = model_name /\ obj_id model = fresh_id /\
  In model_name known_architectures.
Proof.
  unfold create_model_architecture.
  destruct (existsb _ known_architectures) eqn:Hex; [| done].
  intros [= <-]. repeat split.
  apply existsb_exists in Hex as (known & Hin & Heq).
  by apply String.eqb_eq in Heq as ->.
Qed.

Lemma load_model_consistent env st called :
  tables_consistent st -> tables_consistent (snd (load_model env st called)).
Proof.
  intros [Hpaths Hcache]. unfold load_model.
  destruct (loaded_models st !! called) as [hit|] eqn:Hmiss; [done |].
  unfold load_uncached.
  destruct (model_paths st !! called) as [path|] eqn:Hpath; [| done].
  destruct (String.eqb path "" || negb (path_exists env path)); [done |].
  destruct (Hpaths called) as (Hknown & dflt & Hdflt & Hsized); [by rewrite Hpath |].
  rewrite Hdflt.
  destruct (read_checkpoint env (model_configs st) called path dflt)
    as [[state_dict cfg] configs'] eqn:Hread.
  destruct (read_checkpoint_config _ _ _ _ _ _ _ _ Hread Hdflt) as (Hcfg & Hsz & Hother).
  assert (Hpaths' : forall name, is_Some (model_paths st !! name) ->
            In name known_architectures /\
            exists config, configs' !! name = Some config /\ config_sized config).
  { intros name Hname. destruct (decide (name = called)) as [-> | Hne].
    - split; [done |]. exists cfg. auto.
    - rewrite Hother by done. by apply Hpaths. }
  assert (Hcache' : forall name model, loaded_models st !! name = Some model ->
            is_Some (model_paths st !! name) /\ arch_name model = name /\
            exists config, configs' !! name = Some config /\
              num_classes config = out_features model).
  { intros name model Hm. assert (name <> called) by congruence.
    rewrite Hother by done. by apply Hcache. }
  destruct (select_variant called state_dict (num_classes cfg)) as [e | variant];
    [by split |].
  destruct (create_model_architecture env (next_obj_id st) called (num_classes cfg) variant)
    as [e | model] eqn:Hcreate; [by split |].
  destruct (bind_weights (parameters model) state_dict) as [params [e | diag]]; [by split |].
  split; simpl; [done |].
  intros name model' Hm. destruct (decide (name = called)) as [-> | Hne].
  - rewrite lookup_insert_eq in Hm. injection Hm as <-. simpl.
    split; [by rewrite Hpath |].
    split; [by apply create_model_architecture_name in Hcreate as [? _] |].
    exists cfg. split; [done |]. symmetry.
    by apply create_model_architecture_width in Hcreate.
  - rewrite lookup_insert_ne in Hm by done. by apply Hcache'.
Qed.

Lemma load_models_consistent calls st :
  tables_consistent st -> tables_consistent (load_models calls st).
Proof.
  revert st. induction calls as [|[env called] calls IH]; intros st Hst; [done |].
  simpl. apply IH. by apply load_model_consistent.
Qed.

(** Whatever files the scan found and whatever calls followed, a cached
    model has a configuration with as many classes as the model has outputs
    and one class name per class: [predict_image] finds the configuration,
    and neither [class_names[predicted_class]] nor the loop over
    [range(len(class_names))] leaves the model's output row. *)
Theorem cached_model_config_sized pth_files calls model_name model
    (Hcached : loaded_models (load_models calls (started pth_files)) !! model_name
               = Some model) :
  exists config,
    model_configs (load_models calls (started pth_files)) !! model_name = Some config /\
    num_classes config = out_features model /\
    length (class_names config) = N.to_nat (out_features model) /\
    Forall (fun i => N.of_nat i < out_features model) (predict_positions config) /\
    forall predicted_class : nat,
      N.of_nat predicted_class < out_features model ->
      is_Some (class_names config !! predicted_class).
Proof.
  destruct (load_models_consistent calls (started pth_files) (started_consistent pth_files))
    as [Hpaths Hcache].
  destruct (Hcache model_name model Hcached) as (Hpath & _ & config & Hconfig & Hwidth).
  destruct (Hpaths model_name Hpath) as (_ & config' & Hconfig' & Hsized).
  rewrite Hconfig in Hconfig'. injection Hconfig' as <-. unfold config_sized in Hsized.
  exists config. split; [done |]. split; [done |]. split; [by rewrite Hsized, Hwidth |].
  split.
  - unfold predict_positions. rewrite Hsized, Hwidth.
    apply Forall_forall. intros i Hi. apply elem_of_seq in Hi. lia.
  - intros predicted_class Hlt. apply lookup_lt_is_Some. rewrite Hsized, Hwidth. lia.
Qed.

Lemma cached_model_config_sized_witness :
  exists model config,
    loaded_models (load_models [(example_env, "CustomCNN1")]
                     (started [mkPth "CustomCNN1_best.pth" example_path])) !! "CustomCNN1"
      = Some model /\
    model_configs (load_models [(example_env, "CustomCNN1")]
                     (started [mkPth "CustomCNN1_best.pth" example_path])) !! "CustomCNN1"
      = Some config /\
    length (class_names config) = N.to_nat (out_features model).
Proof.
  destruct (loaded_models (load_models [(example_env, "CustomCNN1")]
              (started [mkPth "CustomCNN1_best.pth" example_path])) !! "CustomCNN1")
    as [model|] eqn:Hcached.
  - destruct (cached_model_config_sized [mkPth "CustomCNN1_best.pth" example_path]
                [(example_env, "CustomCNN1")] "CustomCNN1" model Hcached)
      as (config & Hconfig & _ & Hlen & _).
    exists model, config. split; [reflexivity |]. split; [exact Hconfig | exact Hlen].
  - vm_compute in Hcached. discriminate Hcached.
Defined.

(** ** What a load can raise *)

Lemma select_variant_exn_kind model_name state_dict n e :
  select_variant model_name state_dict n = inl e ->
  model_name = "BinaryCNN_Deep" /\
  (e = UnboundLocalError /\ state_dict = None \/
   e = AttributeError /\ exists sd, state_dict = Some sd).
Proof.
  unfold select_variant. destruct (String.eqb_spec model_name "BinaryCNN_Deep"); [| done].
  intros H. split; [done |].
  destruct state_dict as [sd|]; [| injection H as <-; by left].
  right. split; [| by exists sd].
  destruct sd; simpl in H; try by injection H as <-.
  destruct (has_simple_head items n) as [e'|[]] eqn:Hh; try done.
  apply has_simple_head_exn in Hh as ->. by injection H as <-.
Qed.

Lemma bind_weights_exn_kind params state_dict params' e :
  bind_weights params state_dict = (params', inl e) ->
  e = UnboundLocalError \/ e = AttributeError \/ e = TypeError \/ e = IndexError \/
  exists flag, e = RuntimeError flag.
Proof.
  unfold bind_weights. intros H.
  repeat case_match; simplify_eq; eauto 6;
    repeat match goal with
    | H : load_state_dict _ _ = (_, inl _) |- _ =>
        apply load_state_dict_exn in H as [? | [? | [? ?]]]
    | H : filter_compatible _ _ _ _ = inl _ |- _ => apply filter_compatible_exn in H
    | H : items_of _ = inl _ |- _ => unfold items_of in H; repeat case_match
    end; simplify_eq; eauto 6.
Qed.

(** The scan only binds names that [create_model_architecture] knows: after
    it, no call of [load_model] raises "Unknown model name", whatever name is
    asked for. *)
Theorem load_model_never_unknown_model pth_files calls env model_name :
  fst (load_model env (load_models calls (started pth_files)) model_name)
  <> inl ValueError_unknown_model.
Proof.
  destruct (load_models_consistent calls (started pth_files) (started_consistent pth_files))
    as [Hpaths _].
  set (st := load_models calls (started pth_files)) in *.
  unfold load_model. destruct (loaded_models st !! model_name); [done |].
  unfold load_uncached.
  destruct (model_paths st !! model_name) as [path|] eqn:Hpath; [| done].
  destruct (String.eqb path "" || negb (path_exists env path)); [done |].
  destruct (Hpaths model_name) as [Hknown _]; [by rewrite Hpath |].
  destruct (read_checkpoint _ _ _ _ _) as [[state_dict cfg] configs'].
  destruct (select_variant _ _ _) as [e | variant] eqn:Hv; simpl.
  { apply select_variant_exn_kind in Hv as (_ & [[-> _] | [-> _]]); done. }
  unfold create_model_architecture.
  replace (existsb (String.eqb model_name) known_architectures) with true.
  2:{ symmetry. apply existsb_exists. exists model_name. split; [done |].
      apply String.eqb_refl. }
  cbn [parameters].
  destruct (bind_weights _ _) as [params [e | diag]] eqn:Hb; simpl; [| done].
  apply bind_weights_exn_kind in Hb as [-> | [-> | [-> | [-> | [flag ->]]]]]; done.
Qed.

Lemma read_checkpoint_state_dict env configs model_name model_path dflt state_dict cfg configs' :
  read_checkpoint env configs model_name model_path dflt = (state_dict, cfg, configs') ->
  match torch_load env model_path with
  | Some checkpoint => state_dict = Some (normalize_checkpoint checkpoint)
  | None => state_dict = None /\ cfg = dflt /\ configs' = configs
  end.
Proof.
  unfold read_checkpoint. intros H. repeat case_match; by simplify_eq.
Qed.

Lemma bind_weights_returns_dict params state_dict params' diagnostics :
  bind_weights params state_dict = (params', inr diagnostics) ->
  exists items, state_dict = Some (PyDict items).
Proof.
  unfold bind_weights. destruct state_dict as [sd|]; [| done].
  destruct sd; simpl; try done. eauto.
Qed.

(** A call that misses the cache returns a model only when the name has a
    path at which a file exists, [torch.load] read it and the normalised
    checkpoint is a dict; it has then read that one file, built one new
    object and added it to the cache under the name, and nothing else. *)
Theorem load_model_success_inv env st model_name model st'
    (Hmiss : loaded_models st !! model_name = None)
    (Hload : load_model env st model_name = (inr model, st')) :
  exists model_path checkpoint items,
    model_paths st !! model_name = Some model_path /\
    model_path <> "" /\ path_exists env model_path = true /\
    torch_load env model_path = Some checkpoint /\
    normalize_checkpoint checkpoint = PyDict items /\
    In model_name known_architectures /\
    arch_name model = model_name /\ obj_id model = next_obj_id st /\
    loaded_models st' = <[model_name := model]> (loaded_models st) /\
    model_paths st' = model_paths st /\
    next_obj_id st' = S (next_obj_id st) /\
    checkpoint_reads st' = model_path :: checkpoint_reads st.
Proof.
  unfold load_model in Hload. rewrite Hmiss in Hload. unfold load_uncached in Hload.
  destruct (model_paths st !! model_name) as [path|]; [| done].
  destruct (String.eqb path "" || negb (path_exists env path)) eqn:Hgone; [done |].
  apply orb_false_iff in Hgone as [Hempty Hexists].
  apply String.eqb_neq in Hempty. apply negb_false_iff in Hexists.
  destruct (read_checkpoint _ _ _ _ _) as [[state_dict cfg] configs'] eqn:Hread.
  apply read_checkpoint_state_dict in Hread.
  destruct (select_variant _ _ _) as [e | variant]; [done |].
  destruct (create_model_architecture _ _ _ _ _) as [e | fresh] eqn:Hcreate; [done |].
  apply create_model_architecture_name in Hcreate as (Hname & Hid & Hknown).
  destruct (bind_weights _ _) as [params [e | diag]] eqn:Hbind; [done |].
  apply bind_weights_returns_dict in Hbind as [items ->].
  injection Hload as <- <-. simpl.
  destruct (torch_load env path) as [checkpoint|] eqn:Htorch; [| by destruct Hread].
  injection Hread as Hnorm.
  exists path, checkpoint, items. repeat split; try done.
  all: first [by symmetry | by rewrite Hname | by rewrite Hid].
Qed.

Lemma load_model_success_inv_witness :
  exists model st',
    load_model example_env example_state "CustomCNN1" = (inr model, st') /\
    obj_id model = 0%nat /\ next_obj_id st' = 1%nat /\
    checkpoint_reads st' = [example_path].
Proof.
  destruct (load_model example_env example_state "CustomCNN1") as [[e | model] st'] eqn:Hload.
  - vm_compute in Hload. discriminate Hload.
  - destruct (load_model_success_inv example_env example_state "CustomCNN1" model st')
      as (path & checkpoint & items & Hpath & _ & _ & _ & _ & _ & _ & Hid & _ & _ & Hnext & Hreads);
      [vm_compute; reflexivity | exact Hload |].
    exists model, st'. split; [reflexivity |].
    assert (path = example_path) as -> by (vm_compute in Hpath; by injection Hpath as <-).
    rewrite Hid, Hnext, Hreads. repeat split; vm_compute; reflexivity.
Defined.

(** When [torch.load] raises, the exception is swallowed by the first
    [try] and the call ends in the [UnboundLocalError] of [state_dict];
    the cache and the configurations are as before. *)
Theorem load_model_unreadable_checkpoint env st model_name model_path
    (Hmiss : loaded_models st !! model_name = None)
    (Hpath : model_paths st !! model_name = Some model_path)
    (Hfile : model_path <> "" /\ path_exists env model_path = true)
    (Hknown : In model_name known_architectures)
    (Hread : torch_load env model_path = None) :
  fst (load_model env st model_name) = inl UnboundLocalError /\
  loaded_models (snd (load_model env st model_name)) = loaded_models st /\
  model_configs (snd (load_model env st model_name)) = model_configs st /\
  checkpoint_reads (snd (load_model env st model_name)) = model_path :: checkpoint_reads st.
Proof.
  destruct Hfile as [Hempty Hexists].
  unfold load_model. rewrite Hmiss. unfold load_uncached. rewrite Hpath.
  apply String.eqb_neq in Hempty. rewrite Hempty, Hexists. cbn [negb orb].
  unfold read_checkpoint. rewrite Hread.
  unfold select_variant.
  destruct (String.eqb model_name "BinaryCNN_Deep"); [done |].
  unfold create_model_architecture.
  replace (existsb (String.eqb model_name) known_architectures) with true; [done |].
  symmetry. apply existsb_exists. exists model_name. split; [done | apply String.eqb_refl].
Qed.

(** A models directory whose checkpoint cannot be deserialised. *)
Lemma load_model_unreadable_checkpoint_witness :
  let env := mkEnv (fun _ => true) (fun _ => None) example_parameters in
  fst (load_model env example_state "CustomCNN1") = inl UnboundLocalError /\
  loaded_models (snd (load_model env example_state "CustomCNN1")) = loaded_models example_state.
Proof.
  cbv zeta.
  assert (Hmiss : loaded_models example_state !! "CustomCNN1" = None)
    by (vm_compute; reflexivity).
  assert (Hpath : model_paths example_state !! "CustomCNN1" = Some example_path)
    by (vm_compute; reflexivity).
  assert (Hfile : example_path <> "" /\
                  path_exists (mkEnv (fun _ => true) (fun _ => None) example_parameters)
                    example_path = true)
    by (split; [discriminate | reflexivity]).
  assert (Hknown : In "CustomCNN1" known_architectures) by (simpl; auto 10).
  destruct (load_model_unreadable_checkpoint
              (mkEnv (fun _ => true) (fun _ => None) example_parameters)
              example_state "CustomCNN1" example_path Hmiss Hpath Hfile Hknown eq_refl)
    as (Hexn & Hcache & _).
  split; [exact Hexn | exact Hcache].
Defined.

(** A checkpoint that is read but does not normalise to a dict (a pickled
    module, a bare tensor) never gives a model: the call raises
    [AttributeError] for [BinaryCNN_Deep] and [TypeError] for the other
    architectures. *)
Theorem load_model_non_mapping_checkpoint env st model_name model_path checkpoint
    (Hmiss : loaded_models st !! model_name = None)
    (Hpath : model_paths st !! model_name = Some model_path)
    (Hfile : model_path <> "" /\ path_exists env model_path = true)
    (Hknown : In model_name known_architectures)
    (Hread : torch_load env model_path = Some checkpoint)
    (Hshape : forall items, normalize_checkpoint checkpoint <> PyDict items) :
  fst (load_model env st model_name) =
    inl (if String.eqb model_name "BinaryCNN_Deep" then AttributeError else TypeError) /\
  loaded_models (snd (load_model env st model_name)) = loaded_models st /\
  model_configs (snd (load_model env st model_name)) = model_configs st.
Proof.
  destruct Hfile as [Hempty Hexists].
  unfold load_model. rewrite Hmiss. unfold load_uncached. rewrite Hpath.
  apply String.eqb_neq in Hempty. rewrite Hempty, Hexists. cbn [negb orb].
  unfold read_checkpoint. rewrite Hread.
  assert (Hdetect : detect_num_classes_from_checkpoint (normalize_checkpoint checkpoint)
                    = inl AttributeError).
  { unfold detect_num_classes_from_checkpoint.
    destruct (normalize_checkpoint checkpoint); try done. by destruct (Hshape items). }
  rewrite Hdetect. unfold select_variant.
  destruct (String.eqb model_name "BinaryCNN_Deep").
  - destruct (normalize_checkpoint checkpoint); try done. by destruct (Hshape items).
  - unfold create_model_architecture.
    replace (existsb (String.eqb model_name) known_architectures) with true.
    2:{ symmetry. apply existsb_exists. exists model_name.
        split; [done | apply String.eqb_refl]. }
    cbn [parameters]. unfold bind_weights, load_state_dict.
    destruct (normalize_checkpoint checkpoint); try done. by destruct (Hshape items).
Qed.

Lemma load_model_non_mapping_checkpoint_witness :
  let env := mkEnv (fun _ => true) (fun _ => Some (PyOpaque 7)) example_parameters in
  fst (load_model env example_state "CustomCNN1") =
    inl (if String.eqb "CustomCNN1" "BinaryCNN_Deep" then AttributeError else TypeError).
Proof.
  cbv zeta.
  assert (Hmiss : loaded_models example_state !! "CustomCNN1" = None)
    by (vm_compute; reflexivity).
  assert (Hpath : model_paths example_state !! "CustomCNN1" = Some example_path)
    by (vm_compute; reflexivity).
  assert (Hfile : example_path <> "" /\
                  path_exists (mkEnv (fun _ => true) (fun _ => Some (PyOpaque 7))
                                 example_parameters) example_path = true)
    by (split; [discriminate | reflexivity]).
  assert (Hknown : In "CustomCNN1" known_architectures) by (simpl; auto 10).
  assert (Hshape : forall items, normalize_checkpoint (PyOpaque 7) <> PyDict items)
    by (intros items; discriminate).
  destruct (load_model_non_mapping_checkpoint
              (mkEnv (fun _ => true) (fun _ => Some (PyOpaque 7)) example_parameters)
              example_state "CustomCNN1" example_path (PyOpaque 7)
              Hmiss Hpath Hfile Hknown eq_refl Hshape) as (Hexn & _).
  exact Hexn.
Defined.

(** * Further properties of the discovery scan *)

Lemma MODEL_CONFIGS_NoDup : NoDup (map fst MODEL_CONFIGS).
Proof. apply (bool_decide_unpack _). vm_compute. reflexivity. Qed.

Lemma match_file_size registry model_name path paths configs :
  let '(paths', _, matched) := match_file registry model_name path paths configs in
  size paths' = (size paths + if matched then 1 else 0)%nat.
Proof.
  pose proof (match_file_first_unbound registry model_name path paths configs) as H.
  destruct (match_file registry model_name path paths configs) as [[paths' configs'] []].
  - destruct H as (pre & c & cfg & post & _ & _ & _ & Hfree & -> & _).
    rewrite map_size_insert_None by done. lia.
  - destruct H as (_ & -> & _). lia.
Qed.

Lemma scan_files_size pth_files paths configs unmatched :
  let '(paths', _, unmatched') := scan_files pth_files paths configs unmatched in
  (size paths' + length unmatched' = size paths + length unmatched + length pth_files)%nat.
Proof.
  revert paths configs unmatched.
  induction pth_files as [|f pth_files IH]; intros paths configs unmatched.
  - simpl. lia.
  - cbn [scan_files].
    pose proof (match_file_size MODEL_CONFIGS (model_name_of f) (resolved f) paths configs)
      as Hstep.
    destruct (match_file MODEL_CONFIGS (model_name_of f) (resolved f) paths configs)
      as [[paths1 configs1] matched].
    specialize (IH paths1 configs1
                  (if matched then unmatched else unmatched ++ [file_name f])).
    destruct (scan_files pth_files paths1 configs1 _) as [[paths' configs'] unmatched'].
    destruct matched; rewrite ?length_app in IH; simpl in *; lia.
Qed.

(** Where the entries of the tables come from. *)
Lemma scan_files_origin pth_files paths configs unmatched :
  let '(paths', configs', unmatched') := scan_files pth_files paths configs unmatched in
  (forall name p, paths' !! name = Some p ->
     (paths !! name = Some p /\ configs' !! name = configs !! name) \/
     (exists f, In f pth_files /\ resolved f = p /\
        name_matches name (model_name_of f) = true /\
        configs' !! name = dict_get MODEL_CONFIGS name)) /\
  (forall name, paths' !! name = None -> configs' !! name = configs !! name) /\
  (forall u, In u unmatched' -> In u unmatched \/ exists f, In f pth_files /\ file_name f = u).
Proof.
  revert paths configs unmatched.
  induction pth_files as [|f pth_files IH]; intros paths configs unmatched.
  - simpl. repeat split; auto.
  - cbn [scan_files].
    pose proof (match_file_first_unbound MODEL_CONFIGS (model_name_of f) (resolved f)
                  paths configs) as Hstep.
    destruct (match_file MODEL_CONFIGS (model_name_of f) (resolved f) paths configs)
      as [[paths1 configs1] matched].
    specialize (IH paths1 configs1
                  (if matched then unmatched else unmatched ++ [file_name f])).
    pose proof (scan_files_keeps pth_files paths1 configs1
                  (if matched then unmatched else unmatched ++ [file_name f])) as Hkeep.
    destruct (scan_files pth_files paths1 configs1 _) as [[paths' configs'] unmatched'].
    simpl in Hkeep. destruct IH as (IHp & IHc & IHu).
    destruct matched.
    + destruct Hstep as (pre & c & cfg & post & Hreg & _ & Hmatch & Hfree & -> & ->).
      assert (Hcfg : dict_get MODEL_CONFIGS c = Some cfg).
      { apply dict_get_NoDup; [apply MODEL_CONFIGS_NoDup |]. rewrite Hreg.
        apply in_or_app. right. by left. }
      repeat split.
      * intros name p Hp. destruct (IHp name p Hp) as [[Hp1 Hc1] | (f' & ? & ? & ? & ?)].
        -- destruct (decide (c = name)) as [-> | Hne].
           ++ rewrite lookup_insert_eq in Hp1. rewrite lookup_insert_eq in Hc1.
              injection Hp1 as <-.
              right. exists f. repeat split; [by left | done |]. by rewrite Hc1, Hcfg.
           ++ rewrite lookup_insert_ne in Hp1 by done.
              rewrite lookup_insert_ne in Hc1 by done. by left.
        -- right. exists f'. repeat split; try done. by right.
      * intros name Hnone. rewrite (IHc name Hnone).
        destruct (decide (c = name)) as [-> | Hne]; [| by rewrite lookup_insert_ne].
        rewrite (Hkeep name (resolved f)) in Hnone; [done | apply lookup_insert_eq].
      * intros u Hu. destruct (IHu u Hu) as [? | (f' & ? & ?)]; [by left |].
        right. exists f'. split; [by right | done].
    + destruct Hstep as (_ & -> & ->). repeat split.
      * intros name p Hp. destruct (IHp name p Hp) as [? | (f' & ? & ? & ? & ?)]; [by left |].
        right. exists f'. repeat split; try done. by right.
      * done.
      * intros u Hu. destruct (IHu u Hu) as [Hin | (f' & ? & ?)].
        -- apply in_app_or in Hin as [? | [<- | []]]; [by left |].
           right. exists f. split; [by left | done].
        -- right. exists f'. split; [by right | done].
Qed.

(** The scan accounts for every file: a file is either bound to one name or
    reported as unmatched, so the bound names and the reported files add up
    to the files found.  A bound path is the resolved path of a scanned file
    whose model name matches the name, the name's configuration is its entry
    of [MODEL_CONFIGS], names without a path have no configuration, and the
    model cache is not touched. *)
Theorem scan_for_models_accounting pth_files st :
  let '(st', unmatched) := scan_for_models pth_files st in
  (size (model_paths st') + length unmatched = length pth_files)%nat /\
  (forall name p, model_paths st' !! name = Some p ->
     exists f, In f pth_files /\ resolved f = p /\
       name_matches name (model_name_of f) = true /\
       model_configs st' !! name = dict_get MODEL_CONFIGS name /\
       is_Some (model_configs st' !! name)) /\
  (forall name, model_paths st' !! name = None -> model_configs st' !! name = None) /\
  (forall u, In u unmatched -> exists f, In f pth_files /\ file_name f = u) /\
  loaded_models st' = loaded_models st.
Proof.
  unfold scan_for_models.
  pose proof (scan_files_size pth_files ∅ ∅ []) as Hsize.
  pose proof (scan_files_origin pth_files ∅ ∅ []) as Horigin.
  assert (Hempty : forall name, is_Some ((∅ : gmap string string) !! name) ->
            In name known_architectures /\
            exists config, (∅ : gmap string ModelConfig) !! name = Some config /\
              config_sized config).
  { intros name [p Hp]. by rewrite lookup_empty in Hp. }
  pose proof (scan_files_tables pth_files ∅ ∅ [] Hempty) as Htables. clear Hempty.
  destruct (scan_files pth_files ∅ ∅ []) as [[paths configs] unmatched].
  destruct Horigin as (Hp & Hc & Hu). simpl in *.
  rewrite map_size_empty in Hsize.
  split; [lia |]. split; [| split; [| split; [| done]]].
  - intros name p Hname. destruct (Hp name p Hname) as [[Hempty _] | (f & ? & ? & ? & Hcfg)].
    { by rewrite lookup_empty in Hempty. }
    exists f. repeat split; try done.
    destruct (Htables name) as (_ & cfg & -> & _); [by rewrite Hname | done].
  - intros name Hnone. rewrite (Hc name Hnone). apply lookup_empty.
  - intros u Hin. by destruct (Hu u Hin) as [[] | ?].
Qed.

(** The first registered name that matches takes the file when it is free. *)
Lemma match_file_first_match registry model_name path paths configs config_name config :
  List.find (fun entry => name_matches (fst entry) model_name) registry
    = Some (config_name, config) ->
  paths !! config_name = None ->
  match_file registry model_name path paths configs =
  (<[config_name := path]> paths, <[config_name := config]> configs, true).
Proof.
  intros Hfind Hfree. induction registry as [|[c cfg] registry IH]; [done |].
  simpl in *. destruct (name_matches c model_name).
  - injection Hfind as -> ->. by rewrite Hfree.
  - by apply IH.
Qed.

(** Every registered name is the first registered name that matches it. *)
Lemma registered_name_first_match config_name :
  In config_name registered_names ->
  exists config,
    List.find (fun entry => name_matches (fst entry) config_name) MODEL_CONFIGS
      = Some (config_name, config).
Proof.
  unfold registered_names. simpl.
  intros H. repeat (destruct H as [<- | H]; [eexists; vm_compute; reflexivity |]).
  destruct H.
Qed.

Lemma named_after_model_name f config_name :
  named_after f config_name -> model_name_of f = config_name.
Proof.
  intros [Hname Hfile]. unfold model_name_of.
  unfold registered_names in Hname. simpl in Hname.
  repeat (destruct Hname as [<- | Hname];
          [simpl in Hfile;
           repeat (destruct Hfile as [<- | Hfile]; [vm_compute; reflexivity |]);
           destruct Hfile |]).
  destruct Hname.
Qed.

Lemma scan_files_named pth_files names paths configs unmatched :
  Forall2 named_after pth_files names -> NoDup names ->
  (forall name, In name names -> paths !! name = None) ->
  let '(paths', _, unmatched') := scan_files pth_files paths configs unmatched in
  unmatched' = unmatched /\
  Forall2 (fun f name => paths' !! name = Some (resolved f)) pth_files names /\
  (forall name, ~ In name names -> paths' !! name = paths !! name).
Proof.
  intros Hnamed. revert paths configs unmatched.
  induction Hnamed as [|f name pth_files names Hf Hrest IH];
    intros paths configs unmatched Hnd Hfree.
  - simpl. by repeat split.
  - cbn [scan_files]. apply NoDup_cons in Hnd as [Hfresh Hnd].
    rewrite (named_after_model_name f name Hf).
    destruct (registered_name_first_match name) as [cfg Hfind]; [by destruct Hf |].
    rewrite (match_file_first_match _ _ _ _ _ _ _ Hfind) by (apply Hfree; by left).
    specialize (IH (<[name := resolved f]> paths) (<[name := cfg]> configs) unmatched Hnd).
    pose proof (scan_files_keeps pth_files (<[name := resolved f]> paths)
                  (<[name := cfg]> configs) unmatched name (resolved f)) as Hkeep.
    destruct (scan_files pth_files _ _ _) as [[paths' configs'] unmatched'].
    destruct IH as (Hu & Hall & Hother).
    { intros other Hin. rewrite lookup_insert_ne; [apply Hfree; by right |].
      intros ->. by apply Hfresh, list_elem_of_In. }
    split; [done |]. split.
    + constructor; [| done]. apply Hkeep, lookup_insert_eq.
    + intros other Hnin. rewrite Hother by (intros Hin; apply Hnin; by right).
      apply lookup_insert_ne. intros ->. apply Hnin. by left.
Qed.

(** The naming convention works: when every file of the directory is named
    after a registered model ([name.pth], [name_best.pth] or
    [name_checkpoint.pth]), one file per model, the scan binds every model to
    its own file, in whatever order the files come, and reports nothing. *)
Theorem scan_for_models_named pth_files names st
    (Hnamed : Forall2 named_after pth_files names) (Hdistinct : NoDup names) :
  let '(st', unmatched) := scan_for_models pth_files st in
  unmatched = [] /\
  Forall2 (fun f name => model_paths st' !! name = Some (resolved f)) pth_files names /\
  (forall name, ~ In name names -> model_paths st' !! name = None).
Proof.
  unfold scan_for_models.
  pose proof (scan_files_named pth_files names ∅ ∅ [] Hnamed Hdistinct
                (fun name _ => lookup_empty name)) as H.
  destruct (scan_files pth_files ∅ ∅ []) as [[paths configs] unmatched].
  destruct H as (-> & Hall & Hother). simpl. repeat split; [done |].
  intros name Hnin. rewrite Hother by done. apply lookup_empty.
Qed.

Lemma scan_for_models_named_witness :
  let files := [mkPth "BinaryCNN_Deep_checkpoint.pth" "/m/BinaryCNN_Deep_checkpoint.pth";
                mkPth "EfficientNet.pth" "/m/EfficientNet.pth";
                mkPth "BinaryCNN_Efficient_best.pth" "/m/BinaryCNN_Efficient_best.pth"] in
  let '(st', unmatched) := scan_for_models files initial_state in
  unmatched = [] /\
  model_paths st' !! "BinaryCNN_Efficient" = Some "/m/BinaryCNN_Efficient_best.pth".
Proof.
  cbv zeta.
  assert (Hnamed : Forall2 named_after
            [mkPth "BinaryCNN_Deep_checkpoint.pth" "/m/BinaryCNN_Deep_checkpoint.pth";
             mkPth "EfficientNet.pth" "/m/EfficientNet.pth";
             mkPth "BinaryCNN_Efficient_best.pth" "/m/BinaryCNN_Efficient_best.pth"]
            ["BinaryCNN_Deep"; "EfficientNet"; "BinaryCNN_Efficient"]).
  { repeat (apply List.Forall2_cons;
            [split; simpl; repeat (first [left; reflexivity | right]) |]).
    apply List.Forall2_nil. }
  assert (Hdistinct : NoDup ["BinaryCNN_Deep"; "EfficientNet"; "BinaryCNN_Efficient"]).
  { apply (bool_decide_unpack _). vm_compute. reflexivity. }
  pose proof (scan_for_models_named _ _ initial_state Hnamed Hdistinct) as H.
  destruct (scan_for_models _ initial_state) as [st' unmatched].
  destruct H as (Hnone & Hall & _). split; [exact Hnone |].
  apply Forall2_cons in Hall as [_ Hall]. apply Forall2_cons in Hall as [_ Hall].
  apply Forall2_cons in Hall as [Hall _]. exact Hall.
Defined.

(** * The architectures of [models.py] and the loader *)

(** The classifier of [BinaryCNN_Deep] in the tables is the one the variant
    selection is stated with. *)
Lemma BinaryCNN_Deep_classifier_shapes n variant :
  List.filter (fun ks => PyStr.startswith "classifier." (fst ks))
              (state_shapes "" (BinaryCNN_Deep n variant)) =
  BinaryCNN_Deep_classifier n variant.
Proof.
  unfold BinaryCNN_Deep, BinaryCNN_Deep_classifier.
  destruct (String.eqb variant "simple" || String.eqb variant "checkpoint");
    vm_compute; reflexivity.
Qed.

(** ** The candidates of each architecture *)

Lemma candidates_light_head features n values :
  (features = conv_bn_relu 3 32 ++ conv_bn_relu 32 32 ++ [Plain] ++
              conv_bn_relu 32 64 ++ conv_bn_relu 64 64 ++ [Plain] ++
              conv_bn_relu 64 128 ++ conv_bn_relu 128 128 ++ [Plain] ++
              conv_bn_relu 128 256 ++ conv_bn_relu 256 256 ++ [Plain] \/
   features = conv_bn_relu_pool 3 32 ++ conv_bn_relu_pool 32 64 ++
              conv_bn_relu_pool 64 128 ++ conv_bn_relu_pool 128 256) ->
  omap candidate_of
    (state_dict_of
       (Container [("features", Sequential features); ("avgpool", Plain);
                   ("classifier",
                    Sequential [Plain; Linear 256 128; Plain; Plain; Linear 128 n])])
       values) =
  [mkCandidate "classifier.1.weight" 128 256 1; mkCandidate "classifier.4.weight" n 128 4].
Proof. intros [-> | ->]; vm_compute; reflexivity. Qed.

Lemma candidates_residual_simple n values :
  omap candidate_of
    (state_dict_of
       (Container (residual_trunk ++
                   [("classifier",
                     Sequential [Plain; Linear 512 128; Plain; Plain; Linear 128 n])]))
       values) =
  [mkCandidate "classifier.1.weight" 128 512 1; mkCandidate "classifier.4.weight" n 128 4].
Proof. vm_compute; reflexivity. Qed.

Lemma candidates_residual_deep n values :
  omap candidate_of
    (state_dict_of (Container (residual_trunk ++ [("classifier", deep_head n)])) values) =
  [mkCandidate "classifier.1.weight" 256 512 1; mkCandidate "classifier.4.weight" 128 256 4;
   mkCandidate "classifier.7.weight" n 128 7].
Proof. vm_compute; reflexivity. Qed.

Lemma candidates_efficient n values :
  omap candidate_of (state_dict_of (CustomCNN3 n) values) =
  [mkCandidate "head.6.weight" n 1280 6].
Proof. vm_compute; reflexivity. Qed.

(** The final layer decides, whatever its width. *)
Lemma select_num_classes_two hidden n i0 i1 k0 k1 :
  select_num_classes [mkCandidate k0 128 hidden 1; mkCandidate k1 n i0 4] = Some n /\
  select_num_classes [mkCandidate k0 256 hidden 1; mkCandidate k1 128 i1 4;
                      mkCandidate "classifier.7.weight" n i0 7] = Some n /\
  select_num_classes [mkCandidate k0 n hidden 6] = Some n.
Proof.
  unfold select_num_classes. cbn [sort_desc insert_desc index N.leb N.compare Pos.compare
                                  Pos.compare_cont].
  unfold reasonable. cbn [List.find output_dim].
  repeat split; destruct ((2 <=? n) && (n <=? 100)); reflexivity.
Qed.

Lemma repo_architecture_cases model_name n variant m :
  repo_architecture model_name n variant = Some m ->
  (model_name = "CustomCNN1" /\ m = CustomCNN1 n) \/
  (model_name = "CustomCNN2" /\ m = CustomCNN2 n) \/
  (model_name = "CustomCNN3" /\ m = CustomCNN3 n) \/
  (model_name = "BinaryCNN_Light" /\ m = BinaryCNN_Light n) \/
  (model_name = "BinaryCNN_Deep" /\ m = BinaryCNN_Deep n variant) \/
  (model_name = "BinaryCNN_Efficient" /\ m = CustomCNN3 n).
Proof.
  unfold repo_architecture.
  destruct (String.eqb_spec model_name "CustomCNN1") as [-> | _];
    [intros [= <-]; auto 10 |].
  destruct (String.eqb_spec model_name "CustomCNN2") as [-> | _];
    [intros [= <-]; auto 10 |].
  destruct (String.eqb_spec model_name "CustomCNN3") as [-> | _];
    [intros [= <-]; auto 10 |].
  destruct (String.eqb_spec model_name "BinaryCNN_Light") as [-> | _];
    [intros [= <-]; auto 10 |].
  destruct (String.eqb_spec model_name "BinaryCNN_Deep") as [-> | _];
    [intros [= <-]; auto 10 |].
  destruct (String.eqb_spec model_name "BinaryCNN_Efficient") as [-> | _];
    [intros [= <-]; auto 10 | done].
Qed.

(** Detection is a right inverse of the constructors: the state dict of any
    architecture of [models.py], built for [n] classes, is detected as
    having [n] classes, also when [n] is outside of 2..100. *)
Theorem detect_num_classes_round_trip model_name n variant m values
    (Harch : repo_architecture model_name n variant = Some m) :
  detect_num_classes_from_checkpoint (as_dict (state_dict_of m values)) = inr (Some n).
Proof.
  rewrite detect_num_classes_tensors. f_equal.
  destruct (select_num_classes_two 256 n 128 256 "classifier.1.weight" "classifier.4.weight")
    as (Hlight & _ & _).
  destruct (select_num_classes_two 512 n 128 256 "classifier.1.weight" "classifier.4.weight")
    as (Hsimple & Hdeep & _).
  destruct (select_num_classes_two 1280 n 128 256 "head.6.weight" "") as (_ & _ & Hhead).
  apply repo_architecture_cases in Harch
    as [[_ ->] | [[_ ->] | [[_ ->] | [[_ ->] | [[_ ->] | [_ ->]]]]]].
  - unfold CustomCNN1. rewrite candidates_light_head by (by left). exact Hlight.
  - unfold CustomCNN2. rewrite candidates_residual_deep. exact Hdeep.
  - rewrite candidates_efficient. exact Hhead.
  - unfold BinaryCNN_Light. rewrite candidates_light_head by (by right). exact Hlight.
  - unfold BinaryCNN_Deep.
    destruct (String.eqb variant "simple" || String.eqb variant "checkpoint").
    + rewrite candidates_residual_simple. exact Hsimple.
    + rewrite candidates_residual_deep. exact Hdeep.
  - rewrite candidates_efficient. exact Hhead.
Qed.

Lemma detect_num_classes_round_trip_witness :
  detect_num_classes_from_checkpoint
    (as_dict (state_dict_of (BinaryCNN_Deep 300 "default") (fun _ => 0))) = inr (Some 300).
Proof.
  apply (detect_num_classes_round_trip "BinaryCNN_Deep" 300 "default"). reflexivity.
Defined.

(** ** The variant of a saved [BinaryCNN_Deep] *)

Lemma existsb_andb_filter {A} (p q : A -> bool) l :
  existsb (fun x => p x && q x) l = existsb q (List.filter p l).
Proof.
  induction l as [|x l IH]; [done |]. simpl. rewrite IH.
  by destruct (p x).
Qed.

Lemma head_position_simple n values :
  List.filter (fun kv : string * Tensor => PyStr.contains "classifier.4.weight" (fst kv))
    (state_dict_of
       (Container (residual_trunk ++
                   [("classifier",
                     Sequential [Plain; Linear 512 128; Plain; Plain; Linear 128 n])]))
       values) =
  [("classifier.4.weight", mkTensor [n; 128] (values "classifier.4.weight"))].
Proof. vm_compute; reflexivity. Qed.

Lemma head_position_deep n values :
  List.filter (fun kv : string * Tensor => PyStr.contains "classifier.4.weight" (fst kv))
    (state_dict_of (Container (residual_trunk ++ [("classifier", deep_head n)])) values) =
  [("classifier.4.weight", mkTensor [128; 256] (values "classifier.4.weight"))].
Proof. vm_compute; reflexivity. Qed.

(** The variant selection recovers the head a [BinaryCNN_Deep] was built
    with: from its own state dict and class count, "simple" is selected for
    an instance built as "simple" or "checkpoint" and "default" for any
    other, so that the instance built next has the same layers. *)
Theorem select_variant_round_trip n variant values :
  exists selected,
    select_variant "BinaryCNN_Deep"
      (Some (as_dict (state_dict_of (BinaryCNN_Deep n variant) values))) n = inr selected /\
    selected = (if String.eqb variant "simple" || String.eqb variant "checkpoint"
                then "simple" else "default") /\
    BinaryCNN_Deep n selected = BinaryCNN_Deep n variant.
Proof.
  unfold select_variant, as_dict. cbn [String.eqb Ascii.eqb Bool.eqb items_of].
  rewrite has_simple_head_tensors, existsb_andb_filter. unfold BinaryCNN_Deep at 1 3.
  destruct (String.eqb variant "simple" || String.eqb variant "checkpoint") eqn:Hv.
  - rewrite head_position_simple. cbn [existsb snd shape].
    rewrite bool_decide_eq_true_2 by done. eexists. by repeat split.
  - rewrite head_position_deep. cbn [existsb snd shape].
    rewrite bool_decide_eq_false_2 by (intros [= _ ?]; done).
    eexists. by repeat split.
Qed.

(** ** Saving and loading an architecture of [models.py] *)

Lemma dict_get_list_to_map {A} (items : list (string * A)) key :
  (list_to_map items : gmap string A) !! key = dict_get items key.
Proof.
  induction items as [|[k v] items IH]; simpl; [apply lookup_empty |].
  destruct (String.eqb_spec k key) as [-> | Hne].
  - apply lookup_insert_eq.
  - by rewrite lookup_insert_ne.
Qed.

Lemma dict_get_tensors_of shapes values key :
  dict_get (tensors_of shapes values) key =
  (fun sh => mkTensor sh (values key)) <$> dict_get shapes key.
Proof.
  induction shapes as [|[k sh] shapes IH]; simpl; [done |].
  by destruct (String.eqb_spec k key) as [-> | Hne].
Qed.

(** A freshly built instance takes the whole state dict of an instance of
    the same layers. *)
Lemma bind_weights_same_shapes shapes init values :
  exists params',
    bind_weights (list_to_map (tensors_of shapes init))
      (Some (as_dict (tensors_of shapes values)))
      = (params', inr (FullLoad [] [])) /\
    forall key, params' !! key = dict_get (tensors_of shapes values) key.
Proof.
  set (params := list_to_map (tensors_of shapes init) : gmap string Tensor).
  set (sd := tensors_of shapes values).
  assert (Hlook : forall key, params !! key =
            (fun sh => mkTensor sh (init key)) <$> dict_get shapes key).
  { intros key. unfold params. by rewrite dict_get_list_to_map, dict_get_tensors_of. }
  assert (Hsd : forall key, dict_get sd key =
            (fun sh => mkTensor sh (values key)) <$> dict_get shapes key).
  { intros key. apply dict_get_tensors_of. }
  destruct (load_state_dict_agree_keys params sd)
    as (missing & unexpected & Hload & Hmissing & Hunexpected).
  { intros key t cur. rewrite Hlook, Hsd.
    destruct (dict_get shapes key); simpl; [| done]. by intros [= <-] [= <-]. }
  assert (missing = []) as ->.
  { destruct missing as [|key missing]; [done |].
    destruct (Hmissing key) as [([cur Hcur] & Hnone & _) _]; [by left |].
    rewrite Hlook in Hcur. rewrite Hsd in Hnone. by destruct (dict_get shapes key). }
  assert (unexpected = []) as ->.
  { destruct unexpected as [|key unexpected]; [done |].
    destruct (Hunexpected key) as [[Hin Hnone] _]; [by left |].
    apply dict_get_None in Hin; [done |].
    rewrite Hlook in Hnone. rewrite Hsd. by destruct (dict_get shapes key). }
  eexists. split.
  - unfold bind_weights, as_dict. rewrite Hload. reflexivity.
  - intros key. rewrite map_lookup_imap, Hlook. unfold bound_value. rewrite Hsd.
    destruct (dict_get shapes key); simpl; [| done].
    by rewrite bool_decide_eq_true_2.
Qed.

(** Save and load: a checkpoint that holds, bare or wrapped, the state dict
    of an architecture of [models.py] built for [n] classes (not 0) loads
    into an instance with [n] outputs and the same layers, binds every key
    (nothing missing, nothing unexpected, no shape clash), and stores the
    configuration for [n] classes. *)
Theorem load_model_round_trip env st model_name model_path checkpoint n variant m
    values init
    (Hmiss : loaded_models st !! model_name = None)
    (Hpath : model_paths st !! model_name = Some model_path)
    (Hfile : model_path <> "" /\ path_exists env model_path = true)
    (Hread : torch_load env model_path = Some checkpoint)
    (Harch : repo_architecture model_name n variant = Some m)
    (Hsaved : normalize_checkpoint checkpoint = as_dict (state_dict_of m values))
    (Hn : n <> 0)
    (Hbuilt : forall v m', repo_architecture model_name n v = Some m' ->
                init_parameters env model_name n v = list_to_map (state_dict_of m' init)) :
  exists model st',
    load_model env st model_name = (inr model, st') /\
    out_features model = n /\
    (forall key, parameters model !! key = dict_get (state_dict_of m values) key) /\
    model_configs st' !! model_name = Some (mkConfig n (class_names_for n)) /\
    loaded_models st' !! model_name = Some model.
Proof.
  destruct Hfile as [Hempty Hexists].
  unfold load_model. rewrite Hmiss. unfold load_uncached. rewrite Hpath.
  apply String.eqb_neq in Hempty. rewrite Hempty, Hexists. cbn [negb orb].
  assert (Hdetect : detect_num_classes_from_checkpoint (normalize_checkpoint checkpoint)
                    = inr (Some n)).
  { rewrite Hsaved. by eapply detect_num_classes_round_trip. }
  rewrite (read_checkpoint_detected _ _ _ _ _ _ _ Hread Hdetect Hn).
  cbn [num_classes]. rewrite Hsaved.
  assert (Hvariant : exists selected,
            select_variant model_name (Some (as_dict (state_dict_of m values))) n
              = inr selected /\
            repo_architecture model_name n
              (if String.eqb model_name "BinaryCNN_Deep" then selected else "default")
              = Some m).
  { pose proof Harch as Hcases. apply repo_architecture_cases in Hcases
      as [[-> ->] | [[-> ->] | [[-> ->] | [[-> ->] | [[-> ->] | [-> ->]]]]]];
      try (exists "default"; split; reflexivity).
    destruct (select_variant_round_trip n variant values) as (selected & Hsel & _ & Hsame).
    exists selected. split; [exact Hsel |]. cbn. by rewrite Hsame. }
  destruct Hvariant as (selected & -> & Hsame).
  unfold create_model_architecture.
  assert (Hknown : existsb (String.eqb model_name) known_architectures = true).
  { apply repo_architecture_cases in Harch
      as [[-> _] | [[-> _] | [[-> _] | [[-> _] | [[-> _] | [-> _]]]]]]; reflexivity. }
  rewrite Hknown. cbn [parameters].
  rewrite (Hbuilt _ _ Hsame).
  destruct (bind_weights_same_shapes (state_shapes "" m) init values)
    as (params' & Hbind & Hlook).
  unfold state_dict_of. rewrite Hbind.
  eexists _, _. split; [reflexivity |]. cbn.
  split; [done |]. split; [exact Hlook |]. split; apply lookup_insert_eq.
Qed.

Lemma load_model_round_trip_witness :
  exists model st',
    load_model light_env (started [mkPth "BinaryCNN_Light_best.pth" light_path])
      "BinaryCNN_Light" = (inr model, st') /\
    out_features model = 2 /\
    parameters model !! "classifier.4.weight" = Some (mkTensor [2; 128] 7).
Proof.
  assert (Hmiss : loaded_models (started [mkPth "BinaryCNN_Light_best.pth" light_path])
                    !! "BinaryCNN_Light" = None) by (vm_compute; reflexivity).
  assert (Hpath : model_paths (started [mkPth "BinaryCNN_Light_best.pth" light_path])
                    !! "BinaryCNN_Light" = Some light_path) by (vm_compute; reflexivity).
  assert (Hfile : light_path <> "" /\ path_exists light_env light_path = true)
    by (split; [discriminate | vm_compute; reflexivity]).
  assert (Hread : torch_load light_env light_path = Some light_checkpoint)
    by (vm_compute; reflexivity).
  assert (Hsaved : normalize_checkpoint light_checkpoint
                   = as_dict (state_dict_of (BinaryCNN_Light 2) (fun _ => 7)))
    by (vm_compute; reflexivity).
  assert (Hbuilt : forall v m', repo_architecture "BinaryCNN_Light" 2 v = Some m' ->
            init_parameters light_env "BinaryCNN_Light" 2 v
            = list_to_map (state_dict_of m' (fun _ => 0))).
  { intros v m' Hm'. cbn [init_parameters light_env]. unfold repo_parameters.
    by rewrite Hm'. }
  destruct (load_model_round_trip light_env
              (started [mkPth "BinaryCNN_Light_best.pth" light_path])
              "BinaryCNN_Light" light_path light_checkpoint 2 "default"
              (BinaryCNN_Light 2) (fun _ => 7) (fun _ => 0)
              Hmiss Hpath Hfile Hread eq_refl Hsaved ltac:(discriminate) Hbuilt)
    as (model & st' & Hload & Hwidth & Hparams & _).
  exists model, st'. split; [exact Hload |]. split; [exact Hwidth |].
  rewrite Hparams. vm_compute. reflexivity.
Defined.

(** ** Calls that overlap *)

Lemma load_model_two_steps env st model_name :
  load_model env st model_name = after_lookup env st model_name (cache_lookup st model_name).
Proof. reflexivity. Qed.








(** * Polygons *)

Section PolygonFacts.

Import ZArith QArith Lqa Polygons.
Local Open Scope Q_scope.

Lemma between_number lo hi v :
  is_number v = true /\ between lo hi v = true <->
  exists q, number_value v = Some q /\ inject_Z lo <= q /\ q <= inject_Z hi.
Proof.
  destruct v as [| b | z | [q | | |] | s | items | entries]; simpl;
    try (split; [intros [? ?]; discriminate | intros (q & ? & _); discriminate]).
  - rewrite andb_true_iff, !Z.leb_le, !Zle_Qle. split.
    + intros [_ [? ?]]. eauto.
    + intros (q & [= <-] & ? & ?). auto.
  - rewrite andb_true_iff, !Z.leb_le, !Zle_Qle. split.
    + intros [_ [? ?]]. eauto.
    + intros (q & [= <-] & ? & ?). auto.
  - rewrite andb_true_iff, !Qle_bool_iff. split.
    + intros [_ [? ?]]. eauto.
    + intros (q' & [= <-] & ? & ?). auto.
Qed.

Lemma coordinate_error_None coord : coordinate_error coord = None <-> valid_coordinate coord.
Proof.
  unfold valid_coordinate. split.
  - destruct coord as [| | | | | [|lat [|lng [|more items]]] |]; simpl; try done.
    destruct (is_number lat) eqn:Hlat, (is_number lng) eqn:Hlng; simpl; try done.
    destruct (between (-90) 90 lat) eqn:Hb1; simpl; [| done].
    destruct (between (-180) 180 lng) eqn:Hb2; simpl; [| done]. intros _.
    destruct (proj1 (between_number (-90) 90 lat) (conj Hlat Hb1)) as (a & Ha & ? & ?).
    destruct (proj1 (between_number (-180) 180 lng) (conj Hlng Hb2)) as (b & Hb & ? & ?).
    exists lat, lng, a, b. by repeat split.
  - intros (lat & lng & a & b & -> & Ha & Hb & ? & ? & ? & ?). simpl.
    destruct (proj2 (between_number (-90) 90 lat)) as [-> ->]; [by exists a |].
    destruct (proj2 (between_number (-180) 180 lng)) as [-> ->]; [by exists b |].
    done.
Qed.

Lemma first_coordinate_error_None coords :
  first_coordinate_error coords = None <-> Forall valid_coordinate coords.
Proof.
  induction coords as [|coord coords IH]; simpl.
  - split; [constructor | done].
  - rewrite Forall_cons, <- IH, <- coordinate_error_None.
    destruct (coordinate_error coord); split; try done; [by intros [? ?] | tauto].
Qed.

(** [validate_polygon] accepts exactly the lists of at least three pairs
    [[lat, lng]] of numbers ([True] and [False] count as 1 and 0) with
    -90 <= lat <= 90 and -180 <= lng <= 180, [nan] and the infinities
    excluded.  On any list it returns, with a message exactly when the list
    is rejected; a string or a dict is rejected, and a number or [True]
    raises [TypeError] at [len]. *)
Theorem validate_polygon_accepts :
  (forall coordinates,
     validate_polygon coordinates = inr (true, None) <->
     exists items, coordinates = JList items /\ (3 <= length items)%nat /\
       Forall valid_coordinate items) /\
  (forall items, exists is_valid message,
     validate_polygon (JList items) = inr (is_valid, message) /\
     (is_valid = true <-> message = None)) /\
  (forall coordinates e,
     validate_polygon coordinates = inl e ->
     e = TypeError /\ is_number coordinates = true /\ truthy coordinates = true).
Proof.
  split; [| split].
  - intros coordinates. unfold validate_polygon. split.
    + destruct (truthy coordinates); simpl; [| done].
      destruct coordinates as [| | | | s | items |entries]; simpl; try done.
      * destruct (String.length s <? 3)%nat eqn:Hlen; [done |].
        destruct s as [|c s]; [done |]. done.
      * destruct (length items <? 3)%nat eqn:Hlen; [done |].
        apply Nat.ltb_ge in Hlen.
        destruct (first_coordinate_error items) eqn:Herr; [done |]. intros _.
        exists items. repeat split; [done |]. by apply first_coordinate_error_None.
      * destruct (length entries <? 3)%nat eqn:Hlen; [done |].
        destruct entries as [|entry entries]; [done |]. done.
    + intros (items & -> & Hlen & Hall). simpl.
      destruct items as [|item items]; [simpl in Hlen; lia |]. simpl negb. cbn [py_len py_iter].
      apply Nat.ltb_ge in Hlen. rewrite Hlen.
      apply first_coordinate_error_None in Hall. by rewrite Hall.
  - intros items. unfold validate_polygon.
    destruct (truthy (JList items)); simpl; [| by eexists _, _].
    destruct (length items <? 3)%nat; [by eexists _, _ |].
    destruct (first_coordinate_error items); by eexists _, _.
  - intros coordinates e. unfold validate_polygon.
    destruct (truthy coordinates) eqn:Ht; simpl; [| done].
    destruct coordinates; simpl; repeat case_match; try done; by intros [= <-].
Qed.

(** A triangle with a boolean and a float among its numbers. *)
Lemma validate_polygon_accepts_witness :
  validate_polygon
    (JList [JList [JInt 1; JInt 2]; JList [JBool true; JFloat (Finite (1 # 2))];
            JList [JInt 90; JInt (-180)]]) = inr (true, None).
Proof.
  destruct validate_polygon_accepts as (Haccepts & _).
  apply Haccepts. eexists. split; [reflexivity |]. split; [simpl; lia |].
  repeat constructor.
  - exists (JInt 1), (JInt 2), (inject_Z 1), (inject_Z 2). repeat split; reflexivity || discriminate.
  - exists (JBool true), (JFloat (Finite (1 # 2))), (inject_Z 1), (1 # 2).
    repeat split; reflexivity || discriminate.
  - exists (JInt 90), (JInt (-180)), (inject_Z 90), (inject_Z (-180)).
    repeat split; reflexivity || discriminate.
Defined.

(** ** Ray casting *)

Section RayCastingFacts.

Variable F : Type.
Variable intersection : Q -> Q -> Q -> Q -> Q -> F.
Variable le_xinters : Q -> F -> bool.

Local Abbreviation cross_edge := (cross_edge F intersection le_xinters).
Local Abbreviation cross_edges := (cross_edges F intersection le_xinters).
Local Abbreviation point_in_polygon := (point_in_polygon F intersection le_xinters).

Lemma Qle_bool_false a b : Qle_bool a b = false <-> b < a.
Proof.
  rewrite <- not_true_iff_false, Qle_bool_iff. split; [apply Qnot_le_lt | apply Qlt_not_le].
Qed.

Lemma qmin_le y a b : y <= qmin a b <-> y <= a /\ y <= b.
Proof.
  unfold qmin. destruct (Qle_bool a b) eqn:Hab.
  - apply Qle_bool_iff in Hab. split; [intros ?; split; lra | tauto].
  - apply Qle_bool_false in Hab. split; [intros ?; split; lra | tauto].
Qed.

Lemma qmax_le y a b : y <= qmax a b <-> y <= a \/ y <= b.
Proof.
  unfold qmax. destruct (Qle_bool a b) eqn:Hab.
  - apply Qle_bool_iff in Hab. split; [tauto | intros [?|?]; lra].
  - apply Qle_bool_false in Hab. split; [tauto | intros [?|?]; lra].
Qed.

(** Where the guards let the turn reach [x <= xinters], the two ends differ
    in their second coordinate, so [xinters] has just been assigned. *)
Lemma cross_edge_returns x y p1 p2 state :
  exists state', cross_edge x y p1 p2 state = inr state'.
Proof.
  destruct p1 as [p1x p1y], p2 as [p2x p2y], state as [inside xinters]. simpl.
  destruct (Qle_bool y (qmin p1y p2y)) eqn:Hmin; simpl; [by eexists |].
  destruct (Qle_bool y (qmax p1y p2y)) eqn:Hmax; simpl; [| by eexists].
  destruct (Qle_bool x (qmax p1x p2x)); [| by eexists].
  destruct (Qeq_bool p1y p2y) eqn:Heq; simpl.
  - apply Qeq_bool_iff in Heq. apply Qle_bool_false in Hmin. apply Qle_bool_iff in Hmax.
    apply qmax_le in Hmax. exfalso. apply (Qlt_not_le _ _ Hmin), qmin_le.
    destruct Hmax; split; lra.
  - destruct (Qeq_bool p1x p2x); by eexists.
Qed.

Lemma cross_edges_returns x y rest : forall p1 state,
  exists inside, cross_edges x y p1 rest state = inr inside.
Proof.
  induction rest as [|p2 rest IH]; intros p1 state; simpl; [by eexists |].
  destruct (cross_edge_returns x y p1 p2 state) as [state' ->]. apply IH.
Qed.

(** An edge that the guards keep out leaves [inside] as it is. *)
Lemma cross_edge_skip x y p1 p2 state :
  off_edge x y p1 p2 -> cross_edge x y p1 p2 state = inr state.
Proof.
  destruct p1 as [p1x p1y], p2 as [p2x p2y], state as [inside xinters].
  unfold off_edge. simpl. intros Hoff.
  destruct (Qle_bool y (qmin p1y p2y)) eqn:Hmin; simpl; [done |].
  destruct (Qle_bool y (qmax p1y p2y)) eqn:Hmax; simpl; [| done].
  destruct (Qle_bool x (qmax p1x p2x)) eqn:Hx; [| done]. exfalso.
  apply Qle_bool_false in Hmin. apply Qle_bool_iff, qmax_le in Hmax.
  apply Qle_bool_iff, qmax_le in Hx.
  destruct Hoff as [[? ?] | [[? ?] | [? ?]]].
  - apply (Qlt_not_le _ _ Hmin), qmin_le. by split.
  - destruct Hmax; lra.
  - destruct Hx; lra.
Qed.

Lemma cross_edges_skip (P : Q * Q -> Prop) x y :
  (forall p1 p2, P p1 -> P p2 -> off_edge x y p1 p2) ->
  forall rest p1 state, P p1 -> Forall P rest ->
  cross_edges x y p1 rest state = inr state.1.
Proof.
  intros Hoff. induction rest as [|p2 rest IH]; intros p1 state Hp1 Hrest; simpl; [done |].
  apply Forall_cons in Hrest as [Hp2 Hrest].
  rewrite (cross_edge_skip x y p1 p2 state) by auto. by apply IH.
Qed.

Lemma point_in_polygon_skip (P : Q * Q -> Prop) lat lng polygon_coords :
  (forall p1 p2, P p1 -> P p2 -> off_edge lng lat p1 p2) ->
  Forall P polygon_coords ->
  point_in_polygon lat lng polygon_coords = inr false.
Proof.
  intros Hoff Hall. unfold point_in_polygon.
  destruct polygon_coords as [|first others]; [done |].
  destruct (_ <? _)%nat; [done |].
  apply Forall_cons in Hall as [Hfirst Hothers].
  rewrite (cross_edges_skip P lng lat Hoff); [done | done |].
  apply Forall_app. split; [done |]. by constructor.
Qed.

(** [point_in_polygon] raises on no polygon of finite numbers, although
    [xinters] is assigned in one branch only, and answers [False] to fewer
    than three vertices. *)
Theorem point_in_polygon_returns lat lng polygon_coords :
  exists inside,
    point_in_polygon lat lng polygon_coords = inr inside /\
    ((length polygon_coords < 3)%nat -> inside = false).
Proof.
  unfold point_in_polygon. destruct polygon_coords as [|first others].
  - by exists false.
  - destruct (_ <? _)%nat eqn:Hlen.
    + by exists false.
    + apply Nat.ltb_ge in Hlen.
      destruct (cross_edges_returns lng lat (others ++ [first]) first (false, None))
        as [inside ->].
      exists inside. split; [done |]. intros ?. lia.
Qed.

(** The point is read as [x, y = lng, lat] and a vertex as [p1x, p1y]:
    the answer is [False] when the point's latitude is at most every
    vertex's second coordinate, or above every one of them, or when its
    longitude is above every vertex's first coordinate. *)
Theorem point_in_polygon_outside lat lng polygon_coords :
  Forall (fun vertex => lat <= vertex.2) polygon_coords \/
  Forall (fun vertex => vertex.2 < lat) polygon_coords \/
  Forall (fun vertex => vertex.1 < lng) polygon_coords ->
  point_in_polygon lat lng polygon_coords = inr false.
Proof.
  intros [Hall | [Hall | Hall]];
    (eapply point_in_polygon_skip; [| exact Hall]);
    intros p1 p2 H1 H2; unfold off_edge; simpl in *; auto.
Qed.

(** On the rectangle of the vertices [[a0, b0], [a0, b1], [a1, b1],
    [a1, b0]] the answer does not depend on the arithmetic of [xinters]:
    it is [True] exactly when [b0 < lat <= b1] and [a0 < lng <= a1], the
    point's latitude being held against the vertices' second coordinates
    and its longitude against their first. *)
Theorem point_in_polygon_rectangle lat lng a0 a1 b0 b1 :
  a0 < a1 -> b0 < b1 ->
  point_in_polygon lat lng [(a0, b0); (a0, b1); (a1, b1); (a1, b0)] =
  inr (negb (Qle_bool lat b0) && Qle_bool lat b1 &&
       negb (Qle_bool lng a0) && Qle_bool lng a1).
Proof.
  intros Ha Hb. unfold point_in_polygon. cbn [length Nat.ltb Nat.leb app].
  assert (Hb01 : Qeq_bool b0 b1 = false).
  { apply not_true_iff_false. rewrite Qeq_bool_iff. lra. }
  assert (Hb10 : Qeq_bool b1 b0 = false).
  { apply not_true_iff_false. rewrite Qeq_bool_iff. lra. }
  assert (Ha0 : Qeq_bool a0 a0 = true) by (apply Qeq_bool_iff; lra).
  assert (Ha1 : Qeq_bool a1 a1 = true) by (apply Qeq_bool_iff; lra).
  assert (Hmin01 : qmin b0 b1 = b0).
  { unfold qmin. by rewrite (proj2 (Qle_bool_iff b0 b1)) by lra. }
  assert (Hmax01 : qmax b0 b1 = b1).
  { unfold qmax. by rewrite (proj2 (Qle_bool_iff b0 b1)) by lra. }
  assert (Hmin10 : qmin b1 b0 = b0).
  { unfold qmin. by rewrite (proj2 (Qle_bool_false b1 b0)) by lra. }
  assert (Hmax10 : qmax b1 b0 = b1).
  { unfold qmax. by rewrite (proj2 (Qle_bool_false b1 b0)) by lra. }
  assert (Hmin00 : qmin b0 b0 = b0).
  { unfold qmin. by destruct (Qle_bool b0 b0). }
  assert (Hmax00 : qmax b0 b0 = b0).
  { unfold qmax. by destruct (Qle_bool b0 b0). }
  assert (Hmin11 : qmin b1 b1 = b1).
  { unfold qmin. by destruct (Qle_bool b1 b1). }
  assert (Hmax11 : qmax b1 b1 = b1).
  { unfold qmax. by destruct (Qle_bool b1 b1). }
  assert (Hmaxa0 : qmax a0 a0 = a0).
  { unfold qmax. by destruct (Qle_bool a0 a0). }
  assert (Hmaxa1 : qmax a1 a1 = a1).
  { unfold qmax. by destruct (Qle_bool a1 a1). }
  cbn [Polygons.cross_edges Polygons.cross_edge].
  rewrite Hmin01, Hmax01, Hmin11, Hmax11, Hmin10, Hmax10, Hmin00, Hmax00, Hmaxa0, Hmaxa1.
  rewrite Hb01, Hb10, Ha0, Ha1.
  destruct (Qle_bool lat b0) eqn:H0; destruct (Qle_bool lat b1) eqn:H1;
    destruct (Qle_bool lng a0) eqn:H2; destruct (Qle_bool lng a1) eqn:H3;
    cbn; try reflexivity; exfalso.
  all: apply Qle_bool_iff in H2; apply Qle_bool_false in H3; lra.
Qed.

End RayCastingFacts.

(** The centre of a field between latitudes 10 and 11 and longitudes 20 and
    21 lies south of every longitude. *)
Lemma point_in_polygon_outside_witness :
  point_in_polygon Q exact_intersection Qle_bool (21 # 2) (41 # 2)
    [(10, 20); (10, 21); (11, 21); (11, 20)] = inr false.
Proof.
  apply point_in_polygon_outside. left.
  repeat constructor; simpl; unfold Qle; simpl; lia.
Defined.

(** The same field, and the point with its latitude and longitude exchanged. *)
Lemma point_in_polygon_rectangle_witness :
  point_in_polygon Q exact_intersection Qle_bool (41 # 2) (21 # 2)
    [(10, 20); (10, 21); (11, 21); (11, 20)] = inr true.
Proof.
  rewrite (point_in_polygon_rectangle Q exact_intersection Qle_bool (41 # 2) (21 # 2) 10 11 20 21).
  - reflexivity.
  - unfold Qlt; simpl; lia.
  - unfold Qlt; simpl; lia.
Defined.

End PolygonFacts.

(** * Analysis of an image *)

Section AnalysisFacts.

Import ZArith QArith Lqa Polygons Analysis.
Local Open Scope Q_scope.

Lemma Qlt_bool_iff a b : Qlt_bool a b = true <-> a < b.
Proof. unfold Qlt_bool. rewrite negb_true_iff. apply Qle_bool_false. Qed.

Lemma py_in_spec name names : py_in name names = true <-> In name names.
Proof.
  unfold py_in. rewrite existsb_exists. split.
  - intros (x & Hin & Heq). apply String.eqb_eq in Heq. by subst.
  - intros Hin. exists name. split; [done | apply String.eqb_refl].
Qed.

Lemma py_in_false name names : py_in name names = false <-> ~ In name names.
Proof. rewrite <- py_in_spec. by destruct (py_in name names). Qed.

(** ** The quality of the image *)

(** [create_spot] finds the image unusable exactly when the measurement
    succeeds with a variance of the Laplacian below 50 or a mean brightness
    below 20 or above 240: the flag [is_blurry] adds nothing to the test,
    and a failed assessment never makes an image unusable.  An unusable
    image always carries one of the three flags and never the note
    [Image quality acceptable]. *)
Theorem unusable_image_decision measured :
  (is_unusable (assess_image_quality measured) = true <->
   exists laplacian_var brightness,
     measured = inl (laplacian_var, brightness) /\
     (laplacian_var < 50 \/ brightness < 20 \/ 240 < brightness)) /\
  (is_unusable (assess_image_quality measured) = true ->
   (is_blurry (assess_image_quality measured)
    || is_underexposed (assess_image_quality measured)
    || is_overexposed (assess_image_quality measured) = true)%bool /\
   notes (assess_image_quality measured) <> "Image quality acceptable").
Proof.
  destruct measured as [[laplacian_var brightness] | e].
  - assert (Hiff : is_unusable (assess_image_quality (inl (laplacian_var, brightness))) = true <->
                   laplacian_var < 50 \/ brightness < 20 \/ 240 < brightness).
    { unfold is_unusable. cbn [assess_image_quality is_blurry laplacian_variance
        mean_brightness default from_option id].
      rewrite !orb_true_iff, andb_true_iff, !Qlt_bool_iff. split.
      - intros [[[_ ?] | ?] | ?]; auto.
      - intros [? | [? | ?]]; auto. left. left. split; [lra | done]. }
    split.
    + rewrite Hiff. split; [by eexists _, _ | by intros (? & ? & [= <- <-] & ?)].
    + rewrite Hiff. intros Hbad.
      cbn [assess_image_quality is_blurry is_underexposed is_overexposed notes].
      destruct (Qlt_bool laplacian_var 100) eqn:Hblurry;
        destruct (Qlt_bool brightness 50) eqn:Hunder;
        destruct (Qlt_bool 200 brightness) eqn:Hover; try (split; [reflexivity | discriminate]).
      exfalso.
      apply not_true_iff_false in Hblurry, Hunder, Hover.
      rewrite Qlt_bool_iff in Hblurry, Hunder, Hover.
      destruct Hbad as [? | [? | ?]]; [apply Hblurry | apply Hunder | apply Hover]; lra.
  - split; [split |]; [discriminate | by intros (? & ? & ? & _) | discriminate].
Qed.

(** ** The schema of a prediction *)

Lemma visit_nutrient crop_type found item :
  nutrient_deficiencies_detected (visit crop_type found item) =
  nutrient_deficiencies_detected found.
Proof. destruct item as [class_name prob]. unfold visit. by repeat case_match. Qed.

Lemma fold_visit_nutrient crop_type all_probs : forall found,
  nutrient_deficiencies_detected (fold_left (visit crop_type) all_probs found) =
  nutrient_deficiencies_detected found.
Proof.
  induction all_probs as [|item all_probs IH]; intros found; simpl; [done |].
  by rewrite IH, visit_nutrient.
Qed.

Lemma append_new_NoDup name found : List.NoDup found -> List.NoDup (append_new name found).
Proof.
  intros Hfound. unfold append_new. destruct (py_in name found) eqn:Hin; [done |].
  apply py_in_false in Hin. apply List.NoDup_app; repeat split; try done.
  - constructor; [by intros [] | constructor].
  - intros x Hx [<- | []]. done.
Qed.

Lemma fold_visit_NoDup crop_type all_probs : forall found,
  List.NoDup (diseases_detected found) -> List.NoDup (pests_detected found) ->
  List.NoDup (diseases_detected (fold_left (visit crop_type) all_probs found)) /\
  List.NoDup (pests_detected (fold_left (visit crop_type) all_probs found)).
Proof.
  induction all_probs as [|[class_name prob] all_probs IH]; intros found Hd Hp; simpl; [done |].
  apply IH; unfold visit; repeat case_match; simpl; auto using append_new_NoDup.
Qed.

Lemma class_to_label_cases predicted :
  dict_get class_to_label predicted = None \/
  In (dict_get class_to_label predicted)
    [Some "healthy"; Some "mildly_stressed"; Some "diseased"; Some "pest_damage"].
Proof.
  unfold class_to_label. cbn [dict_get].
  repeat (case_match; [right; simpl; tauto |]). by left.
Qed.

(** The label of the schema is the entry of [class_to_label] for the
    predicted class, or [unknown]: the refinement for binary models never
    changes it, whatever [all_probabilities] holds.  No prediction yields
    a nutrient deficiency, so the colour of the label is never purple, and
    it is gray exactly for a class outside the table.  The diseases and
    the pests are listed without repetition, and every class of a model of
    [MODEL_CONFIGS] has a label. *)
Theorem map_prediction_to_schema_label prediction_result crop_type :
  label (health_assessment (map_prediction_to_schema prediction_result crop_type)) =
    default "unknown"
      (dict_get class_to_label (default "unknown" (predicted_class prediction_result))) /\
  nutrient_deficiencies_detected
    (detailed_findings (map_prediction_to_schema prediction_result crop_type)) = [] /\
  get_health_color
    (label (health_assessment (map_prediction_to_schema prediction_result crop_type)))
    <> "purple" /\
  (get_health_color
     (label (health_assessment (map_prediction_to_schema prediction_result crop_type)))
     = "gray" <->
   dict_get class_to_label (default "unknown" (predicted_class prediction_result)) = None) /\
  List.NoDup (diseases_detected
    (detailed_findings (map_prediction_to_schema prediction_result crop_type))) /\
  List.NoDup (pests_detected
    (detailed_findings (map_prediction_to_schema prediction_result crop_type))) /\
  List.Forall (fun entry =>
    List.Forall (fun class_name => is_Some (dict_get class_to_label class_name))
      (class_names entry.2)) MODEL_CONFIGS.
Proof.
  set (predicted := default "unknown" (predicted_class prediction_result)).
  assert (Hlabel :
    label (health_assessment (map_prediction_to_schema prediction_result crop_type)) =
    default "unknown" (dict_get class_to_label predicted)).
  { unfold map_prediction_to_schema. fold predicted. cbn [health_assessment label].
    destruct (String.eqb_spec predicted "Not Healthy") as [-> | Hne]; cbn [andb]; [| done].
    by case_match. }
  rewrite Hlabel.
  split; [done |]. split.
  { unfold map_prediction_to_schema. cbn [detailed_findings nutrient_deficiencies_detected].
    by rewrite fold_visit_nutrient. }
  split; [| split; [| split; [| split]]].
  - destruct (class_to_label_cases predicted) as [-> | Hin]; [vm_compute; discriminate |].
    cbn [In] in Hin. destruct Hin as [<- | [<- | [<- | [<- | []]]]]; vm_compute; discriminate.
  - destruct (class_to_label_cases predicted) as [-> | Hin]; [done |].
    cbn [In] in Hin.
    destruct Hin as [<- | [<- | [<- | [<- | []]]]];
      (split; [vm_compute; discriminate | discriminate]).
  - unfold map_prediction_to_schema. cbn [detailed_findings diseases_detected].
    apply fold_visit_NoDup; constructor.
  - unfold map_prediction_to_schema. cbn [detailed_findings pests_detected].
    apply fold_visit_NoDup; constructor.
  - repeat constructor; by eexists.
Qed.

(** *** The findings as list comprehensions *)

Lemma py_in_app name names names' :
  py_in name (names ++ names') = py_in name names || py_in name names'.
Proof. unfold py_in. apply existsb_app. Qed.

Lemma finding_name_inj crop_type c c' :
  In c (disease_classes ++ pest_classes) -> In c' (disease_classes ++ pest_classes) ->
  finding_name c crop_type = finding_name c' crop_type -> c = c'.
Proof.
  cbn [disease_classes pest_classes app In]. unfold finding_name. intros Hc Hc'.
  destruct crop_type as [crop|]; [destruct (String.eqb crop "") |]; try done.
  destruct Hc as [<- | [<- | [<- | [<- | []]]]];
    destruct Hc' as [<- | [<- | [<- | [<- | []]]]];
    cbn [String.append]; intros Heq; first [reflexivity | discriminate Heq].
Qed.

Lemma above_threshold_snoc all_probs class_name prob :
  above_threshold (all_probs ++ [(class_name, prob)]) =
  above_threshold all_probs ++ (if Qle_bool threshold prob then [class_name] else []).
Proof.
  unfold above_threshold. rewrite filter_app, List.map_app. f_equal.
  destruct (Qle_bool threshold prob) eqn:Hprob.
  - by rewrite filter_cons_True by done.
  - rewrite filter_cons_False; [done |]. simpl. congruence.
Qed.

Lemma named_findings_snoc classes crop_type all_probs class_name prob :
  named_findings classes crop_type (all_probs ++ [(class_name, prob)]) =
  named_findings classes crop_type all_probs ++
  (if Qle_bool threshold prob && py_in class_name classes
   then [finding_name class_name crop_type] else []).
Proof.
  unfold named_findings. rewrite above_threshold_snoc, filter_app, List.map_app. f_equal.
  destruct (Qle_bool threshold prob); [| done]. cbn [andb].
  destruct (py_in class_name classes) eqn:Hin.
  - by rewrite filter_cons_True by done.
  - rewrite filter_cons_False; [done |]. congruence.
Qed.

Lemma above_threshold_keys all_probs class_name :
  In class_name (above_threshold all_probs) -> In class_name (map fst all_probs).
Proof.
  unfold above_threshold. rewrite !List.in_map_iff.
  intros (item & <- & Hin). exists item. split; [done |].
  apply list_elem_of_In. apply list_elem_of_In in Hin.
  by apply list_elem_of_filter in Hin as [_ ?].
Qed.

Lemma named_findings_origin classes crop_type all_probs name :
  In name (named_findings classes crop_type all_probs) ->
  exists class_name,
    name = finding_name class_name crop_type /\ In class_name classes /\
    In class_name (map fst all_probs).
Proof.
  unfold named_findings. rewrite List.in_map_iff. intros (class_name & <- & Hin).
  apply list_elem_of_In, list_elem_of_filter in Hin as [Hclass Habove].
  exists class_name. split; [done |]. split; [by apply py_in_spec |].
  by apply above_threshold_keys, list_elem_of_In.
Qed.

Lemma named_findings_fresh classes crop_type all_probs class_name :
  (forall c, In c classes -> In c (disease_classes ++ pest_classes)) ->
  In class_name classes -> ~ In class_name (map fst all_probs) ->
  py_in (finding_name class_name crop_type) (named_findings classes crop_type all_probs) = false.
Proof.
  intros Hsub Hclass Hfresh. apply py_in_false. intros Hin.
  apply named_findings_origin in Hin as (c & Heq & Hc & Hkey).
  apply finding_name_inj in Heq; [by subst | by apply Hsub | by apply Hsub].
Qed.

Lemma fold_visit_findings crop_type all_probs :
  List.NoDup (map fst all_probs) ->
  diseases_detected (fold_left (visit crop_type) all_probs (mkFindings [] [] [] [])) =
    named_findings disease_classes crop_type all_probs /\
  pests_detected (fold_left (visit crop_type) all_probs (mkFindings [] [] [] [])) =
    named_findings pest_classes crop_type all_probs /\
  stress_signs (fold_left (visit crop_type) all_probs (mkFindings [] [] [] [])) =
    if py_in "Not Healthy" (above_threshold all_probs)
    then ["General plant stress detected"] else [].
Proof.
  induction all_probs as [|[class_name prob] all_probs IH] using rev_ind; [done |].
  rewrite List.map_app. cbn [map fst]. intros Hkeys.
  apply List.NoDup_remove in Hkeys as [Hkeys Hfresh]. rewrite app_nil_r in Hkeys, Hfresh.
  destruct (IH Hkeys) as (Hd & Hp & Hs). clear IH.
  rewrite fold_left_app. cbn [fold_left].
  set (found := fold_left (visit crop_type) all_probs (mkFindings [] [] [] [])) in *.
  rewrite !named_findings_snoc, above_threshold_snoc, py_in_app.
  unfold visit. destruct (Qle_bool threshold prob) eqn:Hprob; cbn [andb].
  2: { rewrite !app_nil_r, orb_false_r. done. }
  destruct (py_in class_name disease_classes) eqn:Hdisease.
  { cbn [diseases_detected pests_detected stress_signs].
    apply py_in_spec in Hdisease.
    rewrite Hd, Hp, Hs. unfold append_new.
    rewrite named_findings_fresh; [| by intros c Hc; apply List.in_or_app; left | done | done].
    assert (py_in class_name pest_classes = false) as ->.
    { cbn in Hdisease. by destruct Hdisease as [<- | [<- | [<- | []]]]. }
    assert (py_in "Not Healthy" [class_name] = false) as ->.
    { cbn in Hdisease. by destruct Hdisease as [<- | [<- | [<- | []]]]. }
    by rewrite app_nil_r, orb_false_r. }
  destruct (py_in class_name pest_classes) eqn:Hpest.
  { cbn [diseases_detected pests_detected stress_signs].
    apply py_in_spec in Hpest.
    rewrite Hd, Hp, Hs. unfold append_new.
    rewrite named_findings_fresh; [| by intros c Hc; apply List.in_or_app; right | done | done].
    assert (py_in "Not Healthy" [class_name] = false) as ->.
    { cbn in Hpest. by destruct Hpest as [<- | []]. }
    by rewrite app_nil_r, orb_false_r. }
  rewrite !app_nil_r.
  destruct (String.eqb_spec class_name "Not Healthy") as [-> | Hother]; cbn [andb].
  - cbn [diseases_detected pests_detected stress_signs]. rewrite Hd, Hp, Hs.
    assert (py_in "Not Healthy" (above_threshold all_probs) = false) as ->.
    { apply py_in_false. intros Hin. by apply Hfresh, above_threshold_keys. }
    done.
  - rewrite Hd, Hp, Hs.
    assert (py_in "Not Healthy" [class_name] = false) as ->.
    { apply py_in_false. intros [-> | []]. done. }
    by rewrite orb_false_r.
Qed.

(** On a dict of probabilities the loop is a pair of list comprehensions:
    the diseases (the pests) are the classes of [disease_classes]
    ([pest_classes]) with a probability of at least the float 0.2, in the
    order of the dict and under the name the crop gives them, the tests
    [not in] never rejecting one.  The stress signs are the general
    message when [Not Healthy] reaches the threshold, followed by the
    second message when [Not Healthy] is predicted with a confidence of at
    least the float 0.7. *)
Theorem map_prediction_to_schema_findings prediction_result crop_type :
  List.NoDup (map fst (default [] (all_probabilities prediction_result))) ->
  diseases_detected (detailed_findings (map_prediction_to_schema prediction_result crop_type)) =
    named_findings disease_classes crop_type (default [] (all_probabilities prediction_result)) /\
  pests_detected (detailed_findings (map_prediction_to_schema prediction_result crop_type)) =
    named_findings pest_classes crop_type (default [] (all_probabilities prediction_result)) /\
  stress_signs (detailed_findings (map_prediction_to_schema prediction_result crop_type)) =
    (if py_in "Not Healthy"
          (above_threshold (default [] (all_probabilities prediction_result)))
     then ["General plant stress detected"] else []) ++
    (if String.eqb (default "unknown" (predicted_class prediction_result)) "Not Healthy"
        && Qle_bool high_confidence (default 0 (prediction_confidence prediction_result))
     then ["Plant health issues detected"] else []).
Proof.
  intros Hkeys. destruct (fold_visit_findings crop_type _ Hkeys) as (Hd & Hp & Hs).
  unfold map_prediction_to_schema.
  cbn [detailed_findings diseases_detected pests_detected stress_signs].
  rewrite Hd, Hp, Hs. repeat split.
  destruct (String.eqb (default "unknown" (predicted_class prediction_result)) "Not Healthy"
            && Qle_bool high_confidence (default 0 (prediction_confidence prediction_result)));
    [done | by rewrite app_nil_r].
Qed.

(** A five-class prediction on a coffee field: leaf rust at 0.55 and the
    miner at 0.25 are reported, phoma at 0.15 is not. *)
Lemma map_prediction_to_schema_findings_witness :
  let schema :=
    map_prediction_to_schema
      (mkPrediction (Some "Leaf rust") (Some (11 # 20))
         (Some [("Cerscospora", 1 # 40); ("Healthy", 1 # 40); ("Leaf rust", 11 # 20);
                ("Miner", 1 # 4); ("Phoma", 3 # 20)]))
      (Some "coffee") in
  diseases_detected (detailed_findings schema) = ["Leaf rust (coffee)"] /\
  pests_detected (detailed_findings schema) = ["Miner (coffee)"] /\
  stress_signs (detailed_findings schema) = [].
Proof.
  intros schema.
  assert (Hkeys : List.NoDup ["Cerscospora"; "Healthy"; "Leaf rust"; "Miner"; "Phoma"]).
  { repeat constructor; cbn [In]; intros Hin;
      repeat (destruct Hin as [Hin | Hin]; [discriminate Hin |]); exact Hin. }
  destruct (map_prediction_to_schema_findings
    (mkPrediction (Some "Leaf rust") (Some (11 # 20))
       (Some [("Cerscospora", 1 # 40); ("Healthy", 1 # 40); ("Leaf rust", 11 # 20);
              ("Miner", 1 # 4); ("Phoma", 3 # 20)]))
    (Some "coffee") Hkeys) as (Hd & Hp & Hs).
  subst schema. rewrite Hd, Hp, Hs. repeat split; vm_compute; reflexivity.
Defined.

(** ** The summary of a field *)

Lemma count_up_keys lbl health_dist k :
  In k (map fst (count_up lbl health_dist)) <-> k = lbl \/ In k (map fst health_dist).
Proof.
  induction health_dist as [|[k' n] rest IH]; cbn [count_up map fst In].
  - split; [intros [<- | []]; by left | intros [-> | []]; by left].
  - destruct (decide (k' = lbl)) as [-> | Hne]; cbn [map fst In].
    + intuition congruence.
    + rewrite IH. intuition congruence.
Qed.

Lemma count_up_NoDup lbl health_dist :
  List.NoDup (map fst health_dist) -> List.NoDup (map fst (count_up lbl health_dist)).
Proof.
  induction health_dist as [|[k n] rest IH]; cbn [count_up map fst].
  - intros _. constructor; [by intros [] | constructor].
  - intros Hkeys. apply List.NoDup_cons_iff in Hkeys as [Hk Hrest].
    destruct (decide (k = lbl)) as [-> | Hne]; cbn [map fst].
    + by constructor.
    + constructor; [| by apply IH]. rewrite count_up_keys. by intros [-> | ?].
Qed.

Lemma count_up_sum lbl health_dist :
  sum_list (map snd (count_up lbl health_dist)) = S (sum_list (map snd health_dist)).
Proof.
  induction health_dist as [|[k n] rest IH]; cbn [count_up map snd sum_list]; [done |].
  destruct (decide (k = lbl)); cbn [map snd sum_list]; [done |]. rewrite IH. lia.
Qed.

Lemma count_of_count_up lbl health_dist lbl' :
  count_of lbl' (count_up lbl health_dist) =
  if decide (lbl = lbl') then S (count_of lbl' health_dist) else count_of lbl' health_dist.
Proof.
  induction health_dist as [|[k n] rest IH]; cbn [count_up count_of]; [done |].
  destruct (decide (k = lbl)) as [-> | Hne]; cbn [count_of].
  - by destruct (decide (lbl = lbl')).
  - rewrite IH. destruct (decide (k = lbl')) as [-> | ?]; [| done].
    by destruct (decide (lbl = lbl')).
Qed.

Lemma count_up_positive lbl health_dist :
  List.Forall (fun entry => (0 < entry.2)%nat) health_dist ->
  List.Forall (fun entry => (0 < entry.2)%nat) (count_up lbl health_dist).
Proof.
  induction health_dist as [|[k n] rest IH]; cbn [count_up]; intros Hpos.
  - repeat constructor.
  - apply List.Forall_cons_iff in Hpos as [Hn Hrest].
    destruct (decide (k = lbl)); constructor; auto. simpl. lia.
Qed.

Lemma severity_of_nonzero conf : ~ severity_of conf == 0.
Proof.
  unfold severity_of. destruct conf as [c|]; [| done].
  destruct (Qeq_bool c 0) eqn:Hzero; [done |].
  intros Heq. apply Qeq_bool_iff in Heq. congruence.
Qed.

Lemma summarize_spots spots :
  length (fold_left summarize_spot spots ([], [])).2 =
    length (filter (fun spot => is_Some (analysis spot)) spots) /\
  sum_list (map snd (fold_left summarize_spot spots ([], [])).1) =
    length (fold_left summarize_spot spots ([], [])).2 /\
  List.NoDup (map fst (fold_left summarize_spot spots ([], [])).1) /\
  (forall lbl, count_of lbl (fold_left summarize_spot spots ([], [])).1 =
               length (filter (fun spot => labelled lbl spot = true) spots)) /\
  List.Forall (fun entry => (0 < entry.2)%nat) (fold_left summarize_spot spots ([], [])).1 /\
  List.Forall (fun point => ~ severity point == 0)
    (fold_left summarize_spot spots ([], [])).2.
Proof.
  induction spots as [|spot spots IH] using rev_ind.
  - cbn. repeat split; constructor.
  - rewrite fold_left_app. cbn [fold_left].
    destruct (fold_left summarize_spot spots ([], [])) as [health_dist heatmap_data].
    cbn [fst snd] in IH. destruct IH as (Hlen & Hsum & Hkeys & Hcount & Hpos & Hsev).
    rewrite filter_app, length_app.
    assert (Hlabelled : forall lbl,
      length (filter (fun spot => labelled lbl spot = true) (spots ++ [spot])) =
      (length (filter (fun spot => labelled lbl spot = true) spots) +
       if labelled lbl spot then 1 else 0)%nat).
    { intros lbl. rewrite filter_app, length_app. f_equal.
      destruct (labelled lbl spot) eqn:Hl.
      - by rewrite filter_cons_True by done.
      - rewrite filter_cons_False; [done | congruence]. }
    unfold summarize_spot, labelled in *. destruct (analysis spot) as [result|] eqn:Han; cbn [fst snd].
    + rewrite filter_cons_True by (simpl; rewrite Han; by eexists). rewrite filter_nil, length_app. cbn [length].
      repeat split.
      * lia.
      * rewrite count_up_sum. lia.
      * by apply count_up_NoDup.
      * intros lbl. rewrite Hlabelled, count_of_count_up, Hcount.
        destruct (decide (health_label result = lbl)) as [Heq | Hne].
        -- rewrite bool_decide_eq_true_2 by done. lia.
        -- rewrite bool_decide_eq_false_2 by done. lia.
      * by apply count_up_positive.
      * apply List.Forall_app. split; [done |]. constructor; [| constructor].
        apply severity_of_nonzero.
    + rewrite filter_cons_False by (simpl; rewrite Han; by intros [? ?]). rewrite filter_nil. cbn [length].
      repeat split; try done.
      * lia.
      * intros lbl. rewrite Hlabelled, Hcount. lia.
Qed.

Lemma forallb_false {A} (f : A -> bool) (l : list A) :
  forallb f l = false <-> exists x, In x l /\ f x = false.
Proof.
  induction l as [|x l IH]; cbn [forallb In]; [by split; [| intros (? & [] & _)] |].
  rewrite andb_false_iff, IH. split.
  - intros [Hx | (y & Hy & Hfy)]; [by exists x; auto | exists y; auto].
  - intros (y & [<- | Hy] & Hfy); [by left | right; by exists y].
Qed.

Lemma sortable_false (health_dist : list (option string * nat)) :
  List.NoDup (map fst health_dist) ->
  sortable health_dist = false <->
  In None (map fst health_dist) /\ exists lbl, In (Some lbl) (map fst health_dist).
Proof.
  intros Hkeys. destruct health_dist as [|[k1 n1] [|[k2 n2] rest]].
  - split; [done | by intros [[] _]].
  - split; [done |]. cbn. intros [[-> | []] (lbl & [? | []])]. done.
  - unfold sortable. rewrite forallb_false. split.
    + intros ([k n] & Hin & Hnone). apply bool_decide_eq_false in Hnone.
      assert (k = None) as -> by (destruct k; [by destruct Hnone; eexists | done]).
      split; [apply in_map_iff; by exists (None, n) |].
      apply List.NoDup_cons_iff in Hkeys as [Hk1 _]. cbn [map fst In] in *.
      destruct k1 as [l1|]; [exists l1; by left |].
      destruct k2 as [l2|]; [exists l2; right; by left |]. destruct Hk1. by left.
    + intros [Hnone _]. apply in_map_iff in Hnone as ([k n] & Hk & Hin). simpl in Hk.
      subst k. exists (None, n). split; [done |].
      apply bool_decide_eq_false. by intros [? ?].
Qed.

Lemma count_of_positive lbl (health_dist : list (option string * nat)) :
  List.Forall (fun entry => (0 < entry.2)%nat) health_dist ->
  In lbl (map fst health_dist) <-> (0 < count_of lbl health_dist)%nat.
Proof.
  induction health_dist as [|[k n] rest IH]; cbn [map fst In count_of]; intros Hpos.
  - split; [done | lia].
  - apply List.Forall_cons_iff in Hpos as [Hn Hrest]. simpl in Hn.
    destruct (decide (k = lbl)) as [-> | Hne].
    + split; [done | by left].
    + rewrite <- (IH Hrest). split; [by intros [? | ?] | by right].
Qed.

Lemma length_filter_positive {A} (P : A -> Prop) `{!forall x, Decision (P x)} (l : list A) :
  (0 < length (filter P l))%nat <-> exists x, In x l /\ P x.
Proof.
  split.
  - destruct (filter P l) as [|x rest] eqn:Hf; [simpl; lia |]. intros _.
    assert (Hx : x ∈ filter P l) by (rewrite Hf; by left).
    apply list_elem_of_filter in Hx as [? ?]. exists x. split; [by apply list_elem_of_In | done].
  - intros (x & Hin & Hx).
    assert (Hf : x ∈ filter P l).
    { apply list_elem_of_filter. split; [done | by apply list_elem_of_In]. }
    destruct (filter P l); [by apply not_elem_of_nil in Hf | simpl; lia].
Qed.

(** The view answers 500 exactly when there is no field of the id, the
    abort of [get_or_404] being caught by its own [except], or when among
    the analysed spots one has no label and another has one, the keys of
    [health_distribution] then not being sortable.  Otherwise it answers
    with the summary: [total_spots] counts every spot of the field,
    analysed or not; the heat map has one point for each analysed spot and
    the counts of [health_distribution] add up to its length; each label
    is a key once, with the number of analysed spots that carry it, and no
    count is 0.  No point has severity 0: a confidence that is missing or
    0, as stored for an unusable image, is replaced by 0.5. *)
Theorem get_analysis_summary_counts fields id :
  (get_analysis_summary fields id = Error500 <->
   fields id = None \/
   exists spots, fields id = Some spots /\
     (exists spot, In spot spots /\ labelled None spot = true) /\
     (exists spot lbl, In spot spots /\ labelled (Some lbl) spot = true)) /\
  (forall summary, get_analysis_summary fields id = Ok200 summary ->
   exists spots,
     fields id = Some spots /\
     field_id summary = id /\
     total_spots summary = length spots /\
     length (disease_heatmap summary) =
       length (filter (fun spot => is_Some (analysis spot)) spots) /\
     (length (disease_heatmap summary) <= total_spots summary)%nat /\
     sum_list (map snd (health_distribution summary)) = length (disease_heatmap summary) /\
     List.NoDup (map fst (health_distribution summary)) /\
     (forall lbl,
        count_of lbl (health_distribution summary) =
        length (filter (fun spot => labelled lbl spot = true) spots)) /\
     List.Forall (fun entry => (0 < entry.2)%nat) (health_distribution summary) /\
     List.Forall (fun point => ~ severity point == 0) (disease_heatmap summary)) /\
  severity_of None = 1 # 2 /\ severity_of (Some 0) = 1 # 2.
Proof.
  unfold get_analysis_summary. destruct (fields id) as [spots|]; [| by split; [split; auto |]].
  pose proof (summarize_spots spots) as Hinv.
  destruct (fold_left summarize_spot spots ([], [])) as [health_dist heatmap_data].
  cbn [fst snd] in Hinv. destruct Hinv as (Hlen & Hsum & Hkeys & Hcount & Hpos & Hsev).
  assert (Hkey : forall lbl, In lbl (map fst health_dist) <->
                   exists spot, In spot spots /\ labelled lbl spot = true).
  { intros lbl. rewrite (count_of_positive lbl health_dist Hpos), Hcount.
    apply length_filter_positive. }
  assert (Hsort : sortable health_dist = false <->
            (exists spot, In spot spots /\ labelled None spot = true) /\
            (exists spot lbl, In spot spots /\ labelled (Some lbl) spot = true)).
  { rewrite (sortable_false health_dist Hkeys), Hkey. split.
    - intros [Hnone (lbl & Hlbl)]. split; [done |].
      apply Hkey in Hlbl as (spot & ? & ?). by exists spot, lbl.
    - intros [Hnone (spot & lbl & ? & ?)]. split; [done |]. exists lbl. apply Hkey.
      by exists spot. }
  split; [| split; [| done]].
  - destruct (sortable health_dist).
    + split; [done |]. intros [? | (spots' & [= <-] & Hbad)]; [done |].
      by apply Hsort in Hbad.
    + split; [| done]. intros _. right. exists spots. split; [done |]. by apply Hsort.
  - intros summary. destruct (sortable health_dist); [| done]. intros [= <-].
    exists spots. cbn [field_id total_spots health_distribution disease_heatmap].
    repeat split; try done.
    rewrite Hlen. apply length_filter.
Qed.

(** ** The choice of a model *)

Lemma find_preferred keys name :
  List.find (fun preferred => py_in preferred keys) preferred_models = Some name ->
  In name preferred_models /\ In name keys /\ name <> "".
Proof.
  intros Hfind. apply List.find_some in Hfind as [Hpref Hkey].
  apply py_in_spec in Hkey. repeat split; [done | done |].
  cbn in Hpref. by destruct Hpref as [<- | [<- | [<- | [<- | [<- | []]]]]].
Qed.

Lemma fallback_model_cases keys :
  match List.find (fun preferred => py_in preferred keys) preferred_models with
  | Some name => fallback_model keys = Some name
  | None =>
      match keys with
      | [] => fallback_model keys = None
      | first :: _ => fallback_model keys = if String.eqb first "" then None else Some first
      end
  end.
Proof.
  unfold fallback_model.
  destruct (List.find _ preferred_models) as [name|] eqn:Hfind.
  - apply find_preferred in Hfind as (_ & _ & Hname).
    apply String.eqb_neq in Hname. cbn [named]. rewrite Hname. cbn [negb andb named].
    by rewrite Hname.
  - destruct keys as [|first keys]; [done |]. cbn [named negb andb head].
    by destruct (String.eqb first "").
Qed.

Lemma find_first {A} (f : A -> bool) (before : list A) x after :
  Forall (fun y => f y = false) before -> f x = true ->
  List.find f (before ++ x :: after) = Some x.
Proof.
  induction before as [|y before IH]; cbn [app List.find]; intros Hbefore Hx.
  - by rewrite Hx.
  - apply List.Forall_cons_iff in Hbefore as [-> Hbefore]. by apply IH.
Qed.

(** The model [create_spot] analyses with is always a key of
    [model_paths] with a name that is not empty.  A selected model that is
    such a key is taken; any other selection, and none, leaves the choice
    to the fallback, which is that of [analyze_crop_image]: the first of
    the preferred models, in their order, that is a key, and when none is
    there the first key, unless its name is empty.  The error
    [No models available] is raised when there is no key, and also when
    the first key is the empty name and nothing else is chosen. *)
Theorem select_model_available selected_model keys :
  (forall name, select_model selected_model keys = Some name ->
     In name keys /\ name <> "") /\
  (forall name, selected_model = Some name -> name <> "" -> In name keys ->
     select_model selected_model keys = Some name) /\
  (forall name, selected_model = Some name -> name = "" \/ ~ In name keys ->
     select_model selected_model keys = fallback_model keys) /\
  select_model None keys = fallback_model keys /\
  (forall name,
     List.find (fun preferred => py_in preferred keys) preferred_models = Some name ->
     fallback_model keys = Some name) /\
  (forall before preferred after,
     preferred_models = before ++ preferred :: after ->
     Forall (fun earlier => ~ In earlier keys) before -> In preferred keys ->
     fallback_model keys = Some preferred) /\
  (Forall (fun preferred => ~ In preferred keys) preferred_models ->
   fallback_model keys =
   match keys with
   | [] => None
   | first :: _ => if String.eqb first "" then None else Some first
   end) /\
  (select_model selected_model keys = None <->
   (forall name, selected_model = Some name -> name = "" \/ ~ In name keys) /\
   Forall (fun preferred => ~ In preferred keys) preferred_models /\
   (keys = [] \/ head keys = Some "")).
Proof.
  assert (Hfallback : forall name, fallback_model keys = Some name -> In name keys /\ name <> "").
  { intros name. pose proof (fallback_model_cases keys) as Hcases.
    destruct (List.find _ preferred_models) as [found|] eqn:Hfind.
    - rewrite Hcases. intros [= <-]. by apply find_preferred in Hfind as (_ & ? & ?).
    - destruct keys as [|first keys]; rewrite Hcases; [done |].
      destruct (String.eqb_spec first ""); [done |]. intros [= <-]. split; [by left | done]. }
  assert (Hnone : fallback_model keys = None <->
            Forall (fun preferred => ~ In preferred keys) preferred_models /\
            (keys = [] \/ head keys = Some "")).
  { pose proof (fallback_model_cases keys) as Hcases.
    destruct (List.find _ preferred_models) as [found|] eqn:Hfind.
    - rewrite Hcases. split; [done |]. intros [Hall _]. exfalso.
      apply find_preferred in Hfind as (Hpref & Hkey & _).
      rewrite List.Forall_forall in Hall. by apply (Hall found).
    - assert (Hall : Forall (fun preferred => ~ In preferred keys) preferred_models).
      { apply List.Forall_forall. intros preferred Hpref Hkey.
        apply (List.find_none _ _ Hfind) in Hpref. apply py_in_spec in Hkey. congruence. }
      destruct keys as [|first keys]; rewrite Hcases.
      + split; [by intros _; split; [| left] | done].
      + destruct (String.eqb_spec first "") as [-> | Hne].
        * split; [by intros _; split; [| right] | done].
        * split; [done |]. intros [_ [? | [= ?]]]; done. }
  assert (Hfound : forall name,
    List.find (fun preferred => py_in preferred keys) preferred_models = Some name ->
    fallback_model keys = Some name).
  { intros name Hfind. pose proof (fallback_model_cases keys) as Hcases.
    by rewrite Hfind in Hcases. }
  assert (Hunusable : forall name, name = "" \/ ~ In name keys ->
    select_model (Some name) keys = fallback_model keys).
  { intros name Hbad. unfold select_model.
    destruct (String.eqb_spec name "") as [-> | Hne]; cbn [negb andb]; [done |].
    destruct Hbad as [? | Hkey]; [done |]. apply py_in_false in Hkey. by rewrite Hkey. }
  split; [| split; [| split; [| split; [| split; [| split; [| split]]]]]].
  - intros name. unfold select_model. destruct selected_model as [selected|]; [| apply Hfallback].
    destruct (String.eqb_spec selected "") as [-> | Hne]; cbn [negb andb]; [apply Hfallback |].
    destruct (py_in selected keys) eqn:Hkey; [| apply Hfallback].
    intros [= <-]. split; [by apply py_in_spec | done].
  - intros name -> Hne Hkey. unfold select_model.
    apply String.eqb_neq in Hne. apply py_in_spec in Hkey. by rewrite Hne, Hkey.
  - intros name -> Hbad. by apply Hunusable.
  - done.
  - exact Hfound.
  - intros before preferred after Hsplit Hbefore Hkey. apply Hfound. rewrite Hsplit.
    apply find_first; [| by apply py_in_spec].
    eapply List.Forall_impl; [| exact Hbefore]. intros earlier. apply py_in_false.
  - intros Hall. pose proof (fallback_model_cases keys) as Hcases.
    destruct (List.find _ preferred_models) as [found|] eqn:Hfind;
      [| by destruct keys].
    exfalso. apply find_preferred in Hfind as (Hpref & Hkey & _).
    rewrite List.Forall_forall in Hall. by apply (Hall found).
  - unfold select_model. destruct selected_model as [selected|].
    + destruct (String.eqb_spec selected "") as [-> | Hne]; cbn [negb andb].
      * rewrite Hnone. split; [intros [? ?]; split; [intros ? [= <-]; by left | done] | tauto].
      * destruct (py_in selected keys) eqn:Hkey.
        -- split; [done |]. intros [Hsel _]. apply py_in_spec in Hkey.
           destruct (Hsel selected eq_refl); done.
        -- apply py_in_false in Hkey. rewrite Hnone.
           split; [intros [? ?]; split; [intros ? [= <-]; by right | done] | tauto].
    + rewrite Hnone. split; [intros [? ?]; split; [done | done] | tauto].
Qed.

End AnalysisFacts.

(** * Displayed metrics *)

Section FieldCalculationsFacts.

Import ZArith QArith Lqa FieldCalculations.
Local Open Scope Q_scope.

(** The branch of square kilometres is never taken: an area of at least
    1000000 square metres is at least one hectare, and is shown in
    hectares, provided the division of floats does not take a quotient of
    at least 1 below 1. *)
Theorem format_area_display_unit (fdiv : Q -> Q -> Q) (area_sqm : Q) :
  (forall a, 10000 <= a -> 1 <= fdiv a 10000) ->
  unit (format_area_display fdiv area_sqm) <> SquareKilometres /\
  (10000 <= area_sqm -> unit (format_area_display fdiv area_sqm) = Hectares) /\
  (unit (format_area_display fdiv area_sqm) = SquareMetres ->
   decimals (format_area_display fdiv area_sqm) = (if Qle_bool 1000 area_sqm then 0 else 1)%nat).
Proof.
  intros Hdiv. unfold format_area_display.
  destruct (Qle_bool 1 (fdiv area_sqm 10000)) eqn:Hha; cbn [unit decimals].
  - repeat split; [done | done].
  - assert (Hsmall : ~ 10000 <= area_sqm).
    { intros Hbig. apply Hdiv, Qle_bool_iff in Hbig. congruence. }
    destruct (Qle_bool 1000 area_sqm) eqn:Hk; cbn [unit decimals].
    + destruct (Qle_bool 1000000 area_sqm) eqn:Hm; cbn [unit decimals].
      * exfalso. apply Hsmall. apply Qle_bool_iff in Hm. lra.
      * repeat split; [done | by intros ?].
    + repeat split; [done | by intros ?].
Qed.

(** Two square kilometres under exact division: 200 hectares. *)
Lemma format_area_display_unit_witness :
  unit (format_area_display Qdiv 2000000) = Hectares.
Proof.
  destruct (format_area_display_unit Qdiv 2000000) as (_ & Hbig & _).
  - intros a Ha. apply Qle_shift_div_l; [reflexivity | lra].
  - apply Hbig. unfold Qle. simpl. lia.
Defined.

End FieldCalculationsFacts.
